(** * pdf-convertor: the job registry, the archive pipeline and the download
      lookup of [lib/pdf-processor] and its API routes.

    The development embeds the [PDFProcessor] class and the routes that call
    it.  JavaScript strings are [string]s (a character stands for one code
    unit), the [Map] of jobs is an insertion-ordered association list, and
    everything the class awaits from outside (the file system, [extract-zip],
    child processes) is read from an explicit environment. *)

From Stdlib Require Import List String Ascii Bool ZArith Lia Arith.
From Stdlib Require Import Sorted Permutation.
From Stdlib Require DecimalString DecimalZ OrderedTypeEx.
Import ListNotations.

Local Open Scope string_scope.
Local Open Scope list_scope.

Set Implicit Arguments.
Set Warnings "-register-all".

(** ** Strings *)

Module Str.

Definition slash : ascii := "/"%char.

(** [s.split('/')]. *)
Fixpoint split_slash (s : string) : list string :=
  match s with
  | EmptyString => [""]
  | String c s' =>
      if Ascii.eqb c slash then "" :: split_slash s'
      else match split_slash s' with
           | [] => [String c ""]
           | seg :: rest => String c seg :: rest
           end
  end.

Definition starts_with_slash (s : string) : bool :=
  match s with
  | String c _ => Ascii.eqb c slash
  | EmptyString => false
  end.

Fixpoint ends_with_slash (s : string) : bool :=
  match s with
  | EmptyString => false
  | String c EmptyString => Ascii.eqb c slash
  | String _ s' => ends_with_slash s'
  end.

(** No ['/'] occurs in [s]. *)
Fixpoint slash_free (s : string) : bool :=
  match s with
  | EmptyString => true
  | String c s' => negb (Ascii.eqb c slash) && slash_free s'
  end.

(** ASCII case folding: what [/i] and [toLowerCase] do to the letters the
    source compares against. *)
Definition lower (c : ascii) : ascii :=
  let n := nat_of_ascii c in
  if (65 <=? n)%nat && (n <=? 90)%nat then ascii_of_nat (n + 32) else c.

Fixpoint to_lower (s : string) : string :=
  match s with
  | EmptyString => EmptyString
  | String c s' => String (lower c) (to_lower s')
  end.

(** [s] ends with [suf]. *)
Fixpoint ends_with (suf s : string) : bool :=
  String.eqb s suf ||
  match s with
  | EmptyString => false
  | String _ s' => ends_with suf s'
  end.

End Str.

(** ** Node's [path.join] on POSIX paths *)

Module Path.

(** One segment of [normalizeString]: empty and ["."] segments vanish,
    [".."] removes the segment before it (or, on a relative path with
    nothing to remove, stays), anything else is kept. *)
Definition norm_step (allowAboveRoot : bool) (acc : list string) (seg : string)
  : list string :=
  if String.eqb seg "" || String.eqb seg "." then acc
  else if String.eqb seg ".." then
    match rev acc with
    | [] => if allowAboveRoot then [".."] else []
    | top :: _ =>
        if String.eqb top ".." then
          (if allowAboveRoot then acc ++ [".."] else acc)
        else removelast acc
    end
  else acc ++ [seg].

Definition normalizeString (p : string) (allowAboveRoot : bool) : list string :=
  fold_left (norm_step allowAboveRoot) (Str.split_slash p) [].

(** [path.normalize]. *)
Definition normalize (p : string) : string :=
  if String.eqb p "" then "."
  else
    let isAbsolute := Str.starts_with_slash p in
    let trailingSeparator := Str.ends_with_slash p in
    let body := String.concat "/" (normalizeString p (negb isAbsolute)) in
    if String.eqb body "" then
      (if isAbsolute then "/" else if trailingSeparator then "./" else ".")
    else
      ((if isAbsolute then "/" else "") ++ body ++
       (if trailingSeparator then "/" else ""))%string.

(** [path.join(a, b)]: empty arguments are skipped, the rest are glued
    with ['/'] and normalized. *)
Definition join (a b : string) : string :=
  let joined :=
    if String.eqb a "" then b
    else if String.eqb b "" then a
    else (a ++ "/" ++ b)%string in
  normalize joined.

(** A segment as [process.cwd()] has them: a name, none of ["."], [".."]. *)
Definition plain (seg : string) : Prop :=
  Str.slash_free seg = true /\ seg <> "" /\ seg <> "." /\ seg <> "..".

(** The absolute path with the given segments. *)
Definition render_abs (segs : list string) : string :=
  ("/" ++ String.concat "/" segs)%string.

(** [p] is [dir] itself or lies below it. *)
Definition under (dir p : string) : Prop :=
  p = dir \/ exists rest, p = (dir ++ "/" ++ rest)%string.

End Path.

(** ** The job record *)

Inductive JobType := type_convert | type_merge | type_full_process.

Inductive Status := pending | processing | completed | failed.

Record Steps := mkSteps { extract : bool; convert : bool; merge : bool }.

(** [interface ProcessingJob].  [createdAt] is the [Date]'s [getTime()];
    an optional field that is [None] is absent (undefined). *)
Record ProcessingJob := mkJob {
  id : string;
  type : JobType;
  status : Status;
  progress : Z;
  inputFiles : list string;
  outputFile : option string;
  error : option string;
  createdAt : Z;
  steps : option Steps
}.

(** [Partial<ProcessingJob>]: the properties an update object carries. *)
Record Partial := mkPartial {
  u_id : option string;
  u_type : option JobType;
  u_status : option Status;
  u_progress : option Z;
  u_inputFiles : option (list string);
  u_outputFile : option string;
  u_error : option string;
  u_createdAt : option Z;
  u_steps : option Steps
}.

Definition or_keep {A} (u : option A) (old : A) : A :=
  match u with Some v => v | None => old end.

Definition or_keep_opt {A} (u : option A) (old : option A) : option A :=
  match u with Some v => Some v | None => old end.

(** [Object.assign(job, updates)]: every property of [updates] overwrites
    the job's, the others stay. *)
Definition assign (job : ProcessingJob) (updates : Partial) : ProcessingJob :=
  {| id := or_keep (u_id updates) (id job);
     type := or_keep (u_type updates) (type job);
     status := or_keep (u_status updates) (status job);
     progress := or_keep (u_progress updates) (progress job);
     inputFiles := or_keep (u_inputFiles updates) (inputFiles job);
     outputFile := or_keep_opt (u_outputFile updates) (outputFile job);
     error := or_keep_opt (u_error updates) (error job);
     createdAt := or_keep (u_createdAt updates) (createdAt job);
     steps := or_keep_opt (u_steps updates) (steps job) |}.

Definition JobType_eqb (a b : JobType) : bool :=
  match a, b with
  | type_convert, type_convert | type_merge, type_merge
  | type_full_process, type_full_process => true
  | _, _ => false
  end.

(** ** The registry: a JavaScript [Map<string, ProcessingJob>] *)

Module JsMap.

(** Entries in insertion order, one per key. *)
Definition t := list (string * ProcessingJob).

Fixpoint get (m : t) (k : string) : option ProcessingJob :=
  match m with
  | [] => None
  | (k', v) :: m' => if String.eqb k' k then Some v else get m' k
  end.

(** [Map.prototype.set]: an existing key keeps its place and gets the new
    value, a new key goes to the end. *)
Fixpoint set (m : t) (k : string) (v : ProcessingJob) : t :=
  match m with
  | [] => [(k, v)]
  | (k', v') :: m' =>
      if String.eqb k' k then (k', v) :: m' else (k', v') :: set m' k v
  end.

Definition values (m : t) : list ProcessingJob := map snd m.

Definition keys (m : t) : list string := map fst m.

End JsMap.

(** [Number.prototype.toString()] of an integer. *)
Definition toString (n : Z) : string := DecimalString.NilEmpty.string_of_int (Z.to_int n).

(** [Array.prototype.sort(compareFn)]: the stable sort, [x] placed before
    the first [y] with [compareFn(x, y) <= 0]. *)
Section ArraySort.
Variable A : Type.
Variable compareFn : A -> A -> Z.

Fixpoint sort_insert (x : A) (sorted : list A) : list A :=
  match sorted with
  | [] => [x]
  | y :: rest =>
      if (compareFn x y <=? 0)%Z then x :: y :: rest
      else y :: sort_insert x rest
  end.

Definition array_sort (l : list A) : list A := fold_right sort_insert [] l.
End ArraySort.

(** The default comparison of [sort()] on strings: code unit order. *)
Definition compare_strings (a b : string) : Z :=
  match String.compare a b with Lt => (-1)%Z | Eq => 0%Z | Gt => 1%Z end.

(** ** Values thrown and awaited *)

(** What a [catch] clause receives: an [Error] with its message, or
    something that is not an [Error]. *)
Inductive thrown := ErrorObj (message : string) | NonError.

(** How an awaited call settles.  A run is followed through calls that
    settle; a call that never does has no outcome here. *)
Inductive outcome (A : Type) :=
| Returned (a : A)
| Thrown (t : thrown).
Arguments Returned {A} a.
Arguments Thrown {A} t.

(** How a child process ends for the promise that waits on it: the ['close']
    event with its exit code ([None] is [null]), or the ['error'] event. *)
Inductive ProcEnd := Close (code : option Z) | ProcError (message : string).

Record PyRun := mkPyRun { stdout : string; stderr : string; ending : ProcEnd }.

(** An entry of [readdir(..., { withFileTypes: true })]: a regular file, a
    directory with its own entries, or anything else (symbolic link, socket,
    ...), for which [isFile()] and [isDirectory()] are both false. *)
Inductive Dirent :=
| File (name : string)
| Directory (name : string) (entries : list Dirent)
| Other (name : string).

(** Everything outside the class that a run consults. *)
Record Env := mkEnv {
  cwd : string;                                  (* process.cwd() *)
  extname : string -> string;                    (* path.extname *)
  mkdir : string -> outcome unit;                (* fs.mkdir(dir, { recursive: true }) *)
  extract_zip : string -> string -> outcome unit;(* import('extract-zip') and the call *)
  which_unrar : ProcEnd;                         (* spawn('which', ['unrar']) *)
  unrar : string -> string -> ProcEnd;           (* spawn('unrar', ['x', '-y', archive, dir + '/']) *)
  readdir_tree : string -> outcome (list Dirent);(* the readdir calls of one scan: the tree, or the first throw *)
  spawn_throws : string -> bool;                 (* spawn(executable, ...) throws synchronously *)
  python : string -> list string -> PyRun;       (* the spawned interpreter's run *)
  rm : string -> outcome unit;                   (* fs.rm(dir, { recursive: true, force: true }) *)
  existsSync : string -> bool;                   (* fs.existsSync *)
  readFile : string -> outcome string            (* fs.readFile *)
}.

(** ** The run monad: the registry as state, a log of the registry after
       every [updateJob], and exceptions *)

Definition M (A : Type) : Type :=
  JsMap.t -> JsMap.t * list JsMap.t * outcome A.

Definition ret {A} (a : A) : M A := fun jobs => (jobs, [], Returned a).

Definition bind {A B} (m : M A) (k : A -> M B) : M B :=
  fun jobs =>
    match m jobs with
    | (jobs1, log1, Returned a) =>
        match k a jobs1 with
        | (jobs2, log2, r) => (jobs2, log1 ++ log2, r)
        end
    | (jobs1, log1, Thrown t) => (jobs1, log1, Thrown t)
    end.

Definition throw {A} (t : thrown) : M A := fun jobs => (jobs, [], Thrown t).

(** [await p] for a promise settled by the environment. *)
Definition await {A} (p : outcome A) : M A := fun jobs => (jobs, [], p).

(** [try { body } catch (error) { handler(error) }]. *)
Definition try_catch {A} (body : M A) (handler : thrown -> M A) : M A :=
  fun jobs =>
    match body jobs with
    | (jobs1, log1, Returned a) => (jobs1, log1, Returned a)
    | (jobs1, log1, Thrown t) =>
        match handler t jobs1 with
        | (jobs2, log2, r) => (jobs2, log1 ++ log2, r)
        end
    end.

Declare Scope run_scope.
Delimit Scope run_scope with run.
Notation "x <- m ;; k" := (bind m (fun x => k))
  (at level 61, m at next level, right associativity) : run_scope.
Notation "m ;; k" := (bind m (fun _ => k))
  (at level 61, right associativity) : run_scope.

Definition final {A} (r : JsMap.t * list JsMap.t * outcome A) : JsMap.t :=
  fst (fst r).
Definition snapshots {A} (r : JsMap.t * list JsMap.t * outcome A) : list JsMap.t :=
  snd (fst r).
Definition result {A} (r : JsMap.t * list JsMap.t * outcome A) : outcome A :=
  snd r.

(** ** [class PDFProcessor] *)

Definition uploadDir (env : Env) : string := Path.join (cwd env) "uploads".
Definition outputDir (env : Env) : string := Path.join (cwd env) "outputs".

(** The object literal of [createJob]. *)
Definition new_record (jobId : string) (created : Z) (type : JobType)
    (inputFiles : list string) : ProcessingJob :=
  {| id := jobId;
     type := type;
     status := pending;
     progress := 0;
     inputFiles := inputFiles;
     outputFile := None;
     error := None;
     createdAt := created;
     steps := if JobType_eqb type type_full_process
              then Some (mkSteps false false false) else None |}.

(** The id [createJob] builds from [Date.now()] and
    [Math.random().toString(36)]. *)
Definition new_id (now : Z) (random36 : string) : string :=
  (toString now ++ substring 2 9 random36)%string.

(** [createJob(type, inputFiles)].  [now] is [Date.now()], [random36] is
    [Math.random().toString(36)] and [created] is the [new Date()] of the
    record; the method returns the id and the registry with the record set. *)
Definition createJob (now : Z) (random36 : string) (created : Z)
    (type : JobType) (inputFiles : list string) (jobs : JsMap.t)
  : string * JsMap.t :=
  let jobId := new_id now random36 in
  let job := new_record jobId created type inputFiles in
  (jobId, JsMap.set jobs jobId job).

Definition getJob (jobs : JsMap.t) (jobId : string) : option ProcessingJob :=
  JsMap.get jobs jobId.

(** [getAllJobs()]. *)
Definition getAllJobs (jobs : JsMap.t) : list ProcessingJob :=
  array_sort (fun a b => (createdAt b - createdAt a)%Z) (JsMap.values jobs).

(** [updateJob(jobId, updates)] on the registry alone. *)
Definition updateJob_map (jobs : JsMap.t) (jobId : string) (updates : Partial)
  : JsMap.t :=
  match JsMap.get jobs jobId with
  | Some job => JsMap.set jobs jobId (assign job updates)
  | None => jobs
  end.

(** [updateJob] as a step of a run: the registry after it is observable. *)
Definition updateJob (jobId : string) (updates : Partial) : M unit :=
  fun jobs =>
    let jobs' := updateJob_map jobs jobId updates in
    (jobs', [jobs'], Returned tt).

Definition show_code (code : option Z) : string :=
  match code with Some c => toString c | None => "null" end.

(** [extractArchive(archivePath, extractDir)]. *)
Definition extractArchive (env : Env) (archivePath extractDir : string)
  : outcome unit :=
  match mkdir env extractDir with
  | Thrown t => Thrown t
  | Returned _ =>
      let ext := Str.to_lower (extname env archivePath) in
      if String.eqb ext ".zip" then extract_zip env archivePath extractDir
      else if String.eqb ext ".rar" then
        let isUnrarAvailable :=
          match which_unrar env with
          | Close (Some 0%Z) => true
          | _ => false
          end in
        if negb isUnrarAvailable then
          Thrown (ErrorObj "RAR extraction is not supported on this system. Please install unrar utility or use ZIP files instead. For Ubuntu/Debian: sudo apt-get install unrar")
        else
          match unrar env archivePath extractDir with
          | Close (Some 0%Z) => Returned tt
          | Close code =>
              Thrown (ErrorObj ("RAR extraction failed with code " ++ show_code code)%string)
          | ProcError message =>
              Thrown (ErrorObj ("RAR extraction error: " ++ message ++ ". Please install unrar utility or use ZIP files instead.")%string)
          end
      else Thrown (ErrorObj "Unsupported archive format. Please use ZIP or RAR files.")
  end.

(** The test [/\.(html|htm)$/i] on a name. *)
Definition is_html_name (name : string) : bool :=
  Str.ends_with ".html" (Str.to_lower name) || Str.ends_with ".htm" (Str.to_lower name).

(** [scanDirectory(currentDir)] over the entries read there, appending to
    [files]. *)
Fixpoint scanEntry (currentDir : string) (files : list string) (entry : Dirent)
  : list string :=
  let fullPath := Path.join currentDir
                    match entry with
                    | File name | Directory name _ | Other name => name
                    end in
  match entry with
  | Directory _ entries =>
      fold_left (scanEntry fullPath) entries files
  | File name =>
      if is_html_name name then files ++ [fullPath] else files
  | Other _ => files
  end.

Definition scanDirectory (currentDir : string) (entries : list Dirent)
    (files : list string) : list string :=
  fold_left (scanEntry currentDir) entries files.

(** [findHtmlFiles(dir)]. *)
Definition findHtmlFiles (env : Env) (dir : string) : outcome (list string) :=
  match readdir_tree env dir with
  | Thrown t => Thrown t
  | Returned entries =>
      Returned (array_sort compare_strings (scanDirectory dir entries []))
  end.

Definition pythonExecutables : list string :=
  ["python3"; "python"; "/usr/bin/python3"; "/usr/local/bin/python3"].

(** The loop over [pythonExecutables]: the first executable whose [spawn]
    does not throw. *)
Definition spawn_python (env : Env) (args : list string) : option PyRun :=
  match find (fun executable => negb (spawn_throws env executable)) pythonExecutables with
  | Some executable => Some (python env executable args)
  | None => None
  end.

Definition or_else (a b : string) : string :=
  if String.eqb a "" then b else a.

(** The promise both Python adapters build around the spawned process. *)
Definition python_promise (env : Env) (args : list string) (failed_prefix : string)
  : outcome unit :=
  match spawn_python env args with
  | None =>
      Thrown (ErrorObj "Python executable not found. Please ensure Python 3.x is installed.")
  | Some run =>
      match ending run with
      | Close (Some 0%Z) => Returned tt
      | Close _ =>
          Thrown (ErrorObj (failed_prefix ++ or_else (stderr run) (stdout run))%string)
      | ProcError message =>
          Thrown (ErrorObj ("Failed to start Python script: " ++ message)%string)
      end
  end.

(** [convertHtmlToPdf(inputDir, outputDir)]. *)
Definition convertHtmlToPdf (env : Env) (inputDir outDir : string) : outcome unit :=
  let pythonScript :=
    Path.join (Path.join (cwd env) "backend") "convert_with_playwright.py" in
  python_promise env
    [pythonScript; "--input-dir"; inputDir; "--pattern"; "*.html"; "--out-dir"; outDir]
    "HTML to PDF conversion failed: ".

(** [mergePdfs(pdfDir, outputPath)]. *)
Definition mergePdfs (env : Env) (pdfDir outputPath : string) : outcome unit :=
  let pythonScript := Path.join (Path.join (cwd env) "backend") "merge_pdfs.py" in
  python_promise env
    [pythonScript; "--input-dir"; pdfDir; "--pattern"; "*.pdf"; "--output"; outputPath]
    "PDF merge failed: ".

(** [cleanup(extractDir, pdfDir)]: whatever [fs.rm] throws is logged. *)
Definition cleanup (env : Env) (extractDir pdfDir : string) : outcome unit :=
  match rm env extractDir with
  | Thrown _ => Returned tt
  | Returned _ =>
      match rm env pdfDir with
      | Thrown _ => Returned tt
      | Returned _ => Returned tt
      end
  end.

(** [error instanceof Error ? error.message : 'Unknown error occurred']. *)
Definition error_text (t : thrown) : string :=
  match t with
  | ErrorObj message => message
  | NonError => "Unknown error occurred"
  end.

(** The update objects of [processArchive], in the order of the source. *)
Definition to_processing : Partial :=          (* { status: 'processing', progress: 10 } *)
  {| u_id := None; u_type := None; u_status := Some processing;
     u_progress := Some 10%Z; u_inputFiles := None; u_outputFile := None;
     u_error := None; u_createdAt := None; u_steps := None |}.

Definition extracted : Partial :=  (* { progress: 30, steps: { extract: true, convert: false, merge: false } } *)
  {| u_id := None; u_type := None; u_status := None;
     u_progress := Some 30%Z; u_inputFiles := None; u_outputFile := None;
     u_error := None; u_createdAt := None;
     u_steps := Some (mkSteps true false false) |}.

Definition discovered : Partial :=             (* { progress: 40 } *)
  {| u_id := None; u_type := None; u_status := None;
     u_progress := Some 40%Z; u_inputFiles := None; u_outputFile := None;
     u_error := None; u_createdAt := None; u_steps := None |}.

Definition converted : Partial :=  (* { progress: 70, steps: { extract: true, convert: true, merge: false } } *)
  {| u_id := None; u_type := None; u_status := None;
     u_progress := Some 70%Z; u_inputFiles := None; u_outputFile := None;
     u_error := None; u_createdAt := None;
     u_steps := Some (mkSteps true true false) |}.

Definition to_completed (jobId : string) : Partial :=
  (* { status: 'completed', progress: 100, outputFile: `merged_${jobId}.pdf`,
       steps: { extract: true, convert: true, merge: true } } *)
  {| u_id := None; u_type := None; u_status := Some completed;
     u_progress := Some 100%Z; u_inputFiles := None;
     u_outputFile := Some ("merged_" ++ jobId ++ ".pdf")%string;
     u_error := None; u_createdAt := None;
     u_steps := Some (mkSteps true true true) |}.

Definition to_failed (error : thrown) : Partial :=
  (* { status: 'failed', error: error instanceof Error ? error.message : 'Unknown error occurred' } *)
  {| u_id := None; u_type := None; u_status := Some failed;
     u_progress := None; u_inputFiles := None; u_outputFile := None;
     u_error := Some (error_text error); u_createdAt := None;
     u_steps := None |}.

(** The job-scoped directories and the merged file of a run. *)
Definition extractDir_of (env : Env) (jobId : string) : string :=
  Path.join (uploadDir env) ("extracted_" ++ jobId)%string.
Definition pdfDir_of (env : Env) (jobId : string) : string :=
  Path.join (outputDir env) ("pdfs_" ++ jobId)%string.
Definition mergedPdfPath_of (env : Env) (jobId : string) : string :=
  Path.join (outputDir env) ("merged_" ++ jobId ++ ".pdf")%string.

Definition no_html_files : thrown :=
  ErrorObj "No HTML files found in the archive".

Local Open Scope run_scope.

(** [processArchive(jobId, archivePath)]. *)
Definition processArchive (env : Env) (jobId archivePath : string) : M unit :=
  try_catch
    (updateJob jobId to_processing;;
     let extractDir := extractDir_of env jobId in
     await (extractArchive env archivePath extractDir);;
     updateJob jobId extracted;;
     htmlFiles <- await (findHtmlFiles env extractDir);;
     if (List.length htmlFiles =? 0)%nat
     then throw no_html_files
     else
       updateJob jobId discovered;;
       let pdfDir := pdfDir_of env jobId in
       await (mkdir env pdfDir);;
       await (convertHtmlToPdf env extractDir pdfDir);;
       updateJob jobId converted;;
       let mergedPdfPath := mergedPdfPath_of env jobId in
       await (mergePdfs env pdfDir mergedPdfPath);;
       updateJob jobId (to_completed jobId);;
       await (cleanup env extractDir pdfDir))
    (fun error =>
       updateJob jobId (to_failed error);;
       throw error).

Local Close Scope run_scope.

(** [downloadFile(filename)]: [None] is [null]. *)
Definition downloadFile (env : Env) (filename : string) : option string :=
  let filePath := Path.join (outputDir env) filename in
  if existsSync env filePath then Some filePath else None.

(** The responses of the download route. *)
Inductive Response :=
| NotFound404
| Attachment200 (body : string) (filename : string)
| Failed500.

(** The value of the [Content-Disposition] header of the download route:
    [attachment; filename=] and the name between double quotes. *)
Definition content_disposition (filename : string) : string :=
  ("attachment; filename=" ++ String (ascii_of_nat 34)
     (filename ++ String (ascii_of_nat 34) ""))%string.

(** What [Headers] accepts as a value: it throws a [TypeError] for one that
    holds a NUL, a line feed or a carriage return.  (It also strips blanks
    at both ends, of which the value built here has none, and refuses
    characters above 255, which the strings of this development do not
    have.) *)
Fixpoint header_value_ok (value : string) : bool :=
  match value with
  | EmptyString => true
  | String c rest =>
      negb (Nat.eqb (nat_of_ascii c) 0 || Nat.eqb (nat_of_ascii c) 10
            || Nat.eqb (nat_of_ascii c) 13)
      && header_value_ok rest
  end.

(** [GET /api/download/[filename]]: the lookup, the read and the
    construction of the response are all inside the [try]. *)
Definition GET_download (env : Env) (filename : string) : Response :=
  match downloadFile env filename with
  | None => NotFound404
  | Some filePath =>
      match readFile env filePath with
      | Returned fileBuffer =>
          if header_value_ok (content_disposition filename)
          then Attachment200 fileBuffer filename
          else Failed500
      | Thrown _ => Failed500
      end
  end.

(** A run as the upload route starts it: the record is created, then
    [processArchive] works on the returned id. *)
Definition create_and_process (env : Env) (now : Z) (random36 : string)
    (created : Z) (type : JobType) (inputFiles : list string)
    (archivePath : string) (jobs : JsMap.t)
  : JsMap.t * list JsMap.t * outcome unit :=
  let '(jobId, jobs0) := createJob now random36 created type inputFiles jobs in
  match processArchive env jobId archivePath jobs0 with
  | (jobs1, log, r) => (jobs1, jobs0 :: log, r)
  end.

(** ** Vocabulary of the statements *)

(** The job's record at [jobId] in each registry of a list. *)
Definition history (jobId : string) (snaps : list JsMap.t)
  : list (option ProcessingJob) :=
  map (fun jobs => JsMap.get jobs jobId) snaps.

Definition terminal (s : Status) : Prop := s = completed \/ s = failed.

(** The status and the progress of the job at [jobId] in each registry. *)
Definition statuses (jobId : string) (snaps : list JsMap.t) : list (option Status) :=
  map (option_map status) (history jobId snaps).

Definition progresses (jobId : string) (snaps : list JsMap.t) : list (option Z) :=
  map (option_map progress) (history jobId snaps).

Definition steps_history (jobId : string) (snaps : list JsMap.t)
  : list (option (option Steps)) :=
  map (option_map steps) (history jobId snaps).

(** The progress values of the stage updates of a run that goes through. *)
Definition progress_marks : list Z := [0; 10; 30; 40; 70; 100]%Z.

(** What a completed record must carry. *)
Definition completed_ok (job : ProcessingJob) : Prop :=
  status job = completed ->
  (exists o, outputFile job = Some o /\ o <> "") /\
  progress job = 100%Z /\
  error job = None /\
  (forall s, steps job = Some s ->
             extract s = true /\ convert s = true /\ merge s = true).

(** Stage completion is ordered: merge implies convert implies extract. *)
Definition steps_ordered (s : Steps) : Prop :=
  (merge s = true -> convert s = true) /\ (convert s = true -> extract s = true).

(** A flag of an optional [steps]; an absent record has no flag set. *)
Definition flag (f : Steps -> bool) (o : option Steps) : bool :=
  match o with Some s => f s | None => false end.

(** No flag goes back from true to false between two records. *)
Definition steps_kept (before after : option Steps) : Prop :=
  forall f, In f [extract; convert; merge] ->
            flag f before = true -> flag f after = true.

(** A sequence of booleans that flips at most once, from false to true. *)
Definition flips_once (l : list bool) : Prop :=
  exists n m, l = repeat false n ++ repeat true m.

(** The [Error]s that come from outside the class (the file system and
    [extract-zip]) carry a message. *)
Definition described (t : thrown) : Prop := error_text t <> "".

Definition external_errors_described (env : Env) : Prop :=
  (forall dir t, mkdir env dir = Thrown t -> described t) /\
  (forall archive dir t, extract_zip env archive dir = Thrown t -> described t) /\
  (forall dir t, readdir_tree env dir = Thrown t -> described t).

(** The name has an extension that is [html] or [htm] up to case. *)
Definition has_html_extension (name : string) : Prop :=
  exists stem ext,
    name = (stem ++ "." ++ ext)%string /\
    (Str.to_lower ext = "html" \/ Str.to_lower ext = "htm").

(** [p] is the full path of a regular file with such a name somewhere in
    the tree whose top entries [entries] sit in [dir]. *)
Inductive html_file_at : string -> list Dirent -> string -> Prop :=
| html_here dir entries name :
    In (File name) entries -> has_html_extension name ->
    html_file_at dir entries (Path.join dir name)
| html_below dir entries name sub p :
    In (Directory name sub) entries ->
    html_file_at (Path.join dir name) sub p ->
    html_file_at dir entries p.

(** The number of regular files with such a name in a tree. *)
Fixpoint count_html (entry : Dirent) : nat :=
  match entry with
  | File name => if is_html_name name then 1 else 0
  | Directory _ entries => fold_right (fun e n => count_html e + n)%nat 0%nat entries
  | Other _ => 0
  end.

Definition count_html_all (entries : list Dirent) : nat :=
  fold_right (fun e n => count_html e + n)%nat 0%nat entries.

(** ** The runs of [processArchive], stage by stage *)

(** The registries after each of a list of updates of one job. *)
Fixpoint scan_updates (jobs : JsMap.t) (jobId : string) (ups : list Partial)
  : list JsMap.t :=
  match ups with
  | [] => []
  | u :: us =>
      let jobs' := updateJob_map jobs jobId u in
      jobs' :: scan_updates jobs' jobId us
  end.

Definition fold_updates (jobs : JsMap.t) (jobId : string) (ups : list Partial)
  : JsMap.t :=
  fold_left (fun m u => updateJob_map m jobId u) ups jobs.

(** The records one job goes through under a list of updates. *)
Fixpoint scan_assign (job : ProcessingJob) (ups : list Partial)
  : list ProcessingJob :=
  match ups with
  | [] => []
  | u :: us => assign job u :: scan_assign (assign job u) us
  end.

(** The ways a run can go: the updates it issues and what it returns or
    throws, by the stage that fails. *)
Inductive run_path (env : Env) (jobId archivePath : string)
  : list Partial -> outcome unit -> Prop :=
| fails_extract t :
    extractArchive env archivePath (extractDir_of env jobId) = Thrown t ->
    run_path env jobId archivePath [to_processing; to_failed t] (Thrown t)
| fails_discover t :
    extractArchive env archivePath (extractDir_of env jobId) = Returned tt ->
    findHtmlFiles env (extractDir_of env jobId) = Thrown t ->
    run_path env jobId archivePath
      [to_processing; extracted; to_failed t] (Thrown t)
| fails_no_documents :
    extractArchive env archivePath (extractDir_of env jobId) = Returned tt ->
    findHtmlFiles env (extractDir_of env jobId) = Returned [] ->
    run_path env jobId archivePath
      [to_processing; extracted; to_failed no_html_files] (Thrown no_html_files)
| fails_mkdir file files t :
    extractArchive env archivePath (extractDir_of env jobId) = Returned tt ->
    findHtmlFiles env (extractDir_of env jobId) = Returned (file :: files) ->
    mkdir env (pdfDir_of env jobId) = Thrown t ->
    run_path env jobId archivePath
      [to_processing; extracted; discovered; to_failed t] (Thrown t)
| fails_convert file files t :
    extractArchive env archivePath (extractDir_of env jobId) = Returned tt ->
    findHtmlFiles env (extractDir_of env jobId) = Returned (file :: files) ->
    mkdir env (pdfDir_of env jobId) = Returned tt ->
    convertHtmlToPdf env (extractDir_of env jobId) (pdfDir_of env jobId) = Thrown t ->
    run_path env jobId archivePath
      [to_processing; extracted; discovered; to_failed t] (Thrown t)
| fails_merge file files t :
    extractArchive env archivePath (extractDir_of env jobId) = Returned tt ->
    findHtmlFiles env (extractDir_of env jobId) = Returned (file :: files) ->
    mkdir env (pdfDir_of env jobId) = Returned tt ->
    convertHtmlToPdf env (extractDir_of env jobId) (pdfDir_of env jobId) = Returned tt ->
    mergePdfs env (pdfDir_of env jobId) (mergedPdfPath_of env jobId) = Thrown t ->
    run_path env jobId archivePath
      [to_processing; extracted; discovered; converted; to_failed t] (Thrown t)
| succeeds file files :
    extractArchive env archivePath (extractDir_of env jobId) = Returned tt ->
    findHtmlFiles env (extractDir_of env jobId) = Returned (file :: files) ->
    mkdir env (pdfDir_of env jobId) = Returned tt ->
    convertHtmlToPdf env (extractDir_of env jobId) (pdfDir_of env jobId) = Returned tt ->
    mergePdfs env (pdfDir_of env jobId) (mergedPdfPath_of env jobId) = Returned tt ->
    run_path env jobId archivePath
      [to_processing; extracted; discovered; converted; to_completed jobId]
      (Returned tt).

(** ** Sample environments *)

(** A server in [/app] on whose disk one uploaded archive and one merged
    output exist. *)
Definition env_disk : Env :=
  {| cwd := "/app";
     extname := fun _ => ".zip";
     mkdir := fun _ => Returned tt;
     extract_zip := fun _ _ => Returned tt;
     which_unrar := Close (Some 0%Z);
     unrar := fun _ _ => Close (Some 0%Z);
     readdir_tree := fun _ => Returned [];
     spawn_throws := fun _ => false;
     python := fun _ _ => mkPyRun "" "" (Close (Some 0%Z));
     rm := fun _ => Returned tt;
     existsSync := fun p =>
       String.eqb p "/app/uploads/1700000000000_site.zip" ||
       String.eqb p "/app/outputs/merged_17000000000004fzyo82mv.pdf";
     readFile := fun p =>
       if String.eqb p "/app/uploads/1700000000000_site.zip"
       then Returned "PK-archive-bytes"
       else if String.eqb p "/app/outputs/merged_17000000000004fzyo82mv.pdf"
       then Returned "%PDF-merged"
       else Thrown (ErrorObj "ENOENT: no such file or directory") |}.

(** A server in [/app] given by what the archive extraction does, what the
    scan of the extracted directory sees and how the Python scripts run. *)
Definition sample_env (zip : outcome unit) (tree : outcome (list Dirent))
    (run : PyRun) : Env :=
  {| cwd := "/app";
     extname := fun _ => ".zip";
     mkdir := fun _ => Returned tt;
     extract_zip := fun _ _ => zip;
     which_unrar := Close (Some 1%Z);
     unrar := fun _ _ => Close (Some 0%Z);
     readdir_tree := fun _ => tree;
     spawn_throws := fun _ => false;
     python := fun _ _ => run;
     rm := fun _ => Returned tt;
     existsSync := fun _ => false;
     readFile := fun _ => Thrown (ErrorObj "ENOENT: no such file or directory") |}.

Definition env_bad_zip : Env :=
  sample_env (Thrown (ErrorObj "end of central directory record signature not found"))
             (Returned []) (mkPyRun "" "" (Close (Some 0%Z))).

Definition env_two_pages : Env :=
  sample_env (Returned tt)
             (Returned [Directory "site" [File "b.HTML"; Other "link.html"];
                        File "a.htm"; File "notes.txt"])
             (mkPyRun "ok" "" (Close (Some 0%Z))).

Definition env_no_pages : Env :=
  sample_env (Returned tt) (Returned [Directory "img" [File "logo.png"]])
             (mkPyRun "" "" (Close (Some 0%Z))).

(** A registry with one job, as the upload route creates it. *)
Definition one_job : string * JsMap.t :=
  createJob 1700000000000 "0.4fzyo82mvyr" 1700000000000
            type_full_process ["site.zip"] [].

(** The registry after three uploads, two of them in the same millisecond. *)
Definition three_jobs : JsMap.t :=
  snd (createJob 1700000000005 "0.zzzzzzzzzzz" 1700000000005 type_full_process ["c.zip"]
    (snd (createJob 1700000000009 "0.bbbbbbbbbbb" 1700000000009 type_full_process ["b.zip"]
      (snd (createJob 1700000000005 "0.aaaaaaaaaaa" 1700000000005 type_full_process ["a.zip"] []))))).

(** Three uploads and their runs, each on an empty registry: an archive with
    two pages, an archive without pages, and a job created with kind
    [convert]. *)
Definition run_two_pages : JsMap.t * list JsMap.t * outcome unit :=
  create_and_process env_two_pages 1700000000000 "0.4fzyo82mvyr" 1700000000000
    type_full_process ["site.zip"] "/app/uploads/1700000000000_site.zip" [].

Definition run_no_pages : JsMap.t * list JsMap.t * outcome unit :=
  create_and_process env_no_pages 1700000000000 "0.4fzyo82mvyr" 1700000000000
    type_full_process ["site.zip"] "/app/uploads/1700000000000_site.zip" [].

Definition run_convert_job : JsMap.t * list JsMap.t * outcome unit :=
  create_and_process env_two_pages 1700000000000 "0.4fzyo82mvyr" 1700000000000
    type_convert ["site.zip"] "/app/uploads/1700000000000_site.zip" [].

(** Two creations in the same millisecond whose random draws share their
    first nine digits. *)
Definition first_creation : string * JsMap.t :=
  createJob 1700000000000 "0.4fzyo82mvyr" 1700000000000
    type_full_process ["a.zip"] [].

Definition second_creation : string * JsMap.t :=
  createJob 1700000000000 "0.4fzyo82mv3k" 1700000000000
    type_full_process ["b.zip"] (snd first_creation).

Definition sample_draws : list (Z * string) :=
  [(1700000000000, "0.4fzyo82mvyr"); (1700000000000, "0.9k2c0x7q1ab");
   (1700000000001, "0.4fzyo82mvyr")]%Z.

(** A server on which the ZIP branch throws, the dynamic import giving the
    module and not the function, and on which [unrar] is installed and
    unpacks an archive with one page. *)
Definition env_zip_throws : Env :=
  {| cwd := "/app";
     extname := fun p => if Str.ends_with ".rar" p then ".rar" else ".zip";
     mkdir := fun _ => Returned tt;
     extract_zip := fun _ _ => Thrown (ErrorObj "extract is not a function");
     which_unrar := Close (Some 0%Z);
     unrar := fun _ _ => Close (Some 0%Z);
     readdir_tree := fun _ => Returned [File "index.html"];
     spawn_throws := fun _ => false;
     python := fun _ _ => mkPyRun "done" "" (Close (Some 0%Z));
     rm := fun _ => Returned tt;
     existsSync := fun _ => false;
     readFile := fun _ => Thrown (ErrorObj "ENOENT: no such file or directory") |}.

(** Two uploads in the same millisecond, [a.zip] and [b.rar], whose ids
    coincide: the registry holds one record, that of the second upload. *)
Definition colliding_uploads : string * JsMap.t :=
  createJob 1700000000000 "0.4fzyo82mv3k" 1700000000000 type_full_process ["b.rar"]
    (snd (createJob 1700000000000 "0.4fzyo82mvyr" 1700000000000
            type_full_process ["a.zip"] [])).

(** One more run of [processArchive] after what happened so far. *)
Definition then_processArchive (env : Env) (jobId archivePath : string)
    (so_far : JsMap.t * list JsMap.t * outcome unit)
  : JsMap.t * list JsMap.t * outcome unit :=
  match processArchive env jobId archivePath (final so_far) with
  | (jobs, log, r) => (jobs, snapshots so_far ++ log, r)
  end.

(** The two runs that the two uploads schedule, on the id they share: the
    run on [a.zip] first, or the run on [b.rar] first. *)
Definition runs_zip_then_rar : JsMap.t * list JsMap.t * outcome unit :=
  then_processArchive env_zip_throws (fst colliding_uploads)
    "/app/uploads/1700000000000_b.rar"
    (then_processArchive env_zip_throws (fst colliding_uploads)
       "/app/uploads/1700000000000_a.zip"
       (snd colliding_uploads, [snd colliding_uploads], Returned tt)).

Definition runs_rar_then_zip : JsMap.t * list JsMap.t * outcome unit :=
  then_processArchive env_zip_throws (fst colliding_uploads)
    "/app/uploads/1700000000000_a.zip"
    (then_processArchive env_zip_throws (fst colliding_uploads)
       "/app/uploads/1700000000000_b.rar"
       (snd colliding_uploads, [snd colliding_uploads], Returned tt)).

(** ** Further vocabulary *)

(** No id occurs twice in the registry. *)
Definition keys_unique (jobs : JsMap.t) : Prop := NoDup (JsMap.keys jobs).

(** [env] with another behaviour of [fs.rm]. *)
Definition with_rm (env : Env) (rm' : string -> outcome unit) : Env :=
  {| cwd := cwd env;
     extname := extname env;
     mkdir := mkdir env;
     extract_zip := extract_zip env;
     which_unrar := which_unrar env;
     unrar := unrar env;
     readdir_tree := readdir_tree env;
     spawn_throws := spawn_throws env;
     python := python env;
     rm := rm';
     existsSync := existsSync env;
     readFile := readFile env |}.

(** The message of [extractArchive] when [unrar] is not installed. *)
Definition rar_not_supported : string :=
  "RAR extraction is not supported on this system. Please install unrar utility or use ZIP files instead. For Ubuntu/Debian: sudo apt-get install unrar".

(** The message of [extractArchive] for another extension. *)
Definition unsupported_format : string :=
  "Unsupported archive format. Please use ZIP or RAR files.".

(** A server on which [which unrar] finds nothing, asked for a RAR archive. *)
Definition env_rar_no_unrar : Env :=
  {| cwd := "/app";
     extname := fun _ => ".RAR";
     mkdir := fun _ => Returned tt;
     extract_zip := fun _ _ => Returned tt;
     which_unrar := Close (Some 1%Z);
     unrar := fun _ _ => Close (Some 0%Z);
     readdir_tree := fun _ => Returned [File "index.html"];
     spawn_throws := fun _ => false;
     python := fun _ _ => mkPyRun "" "" (Close (Some 0%Z));
     rm := fun _ => Returned tt;
     existsSync := fun _ => false;
     readFile := fun _ => Thrown (ErrorObj "ENOENT: no such file or directory") |}.

(** A server without [python3] on which [python] would work: the spawn of
    [python3] returns a process that emits ['error']. *)
Definition env_python3_missing : Env :=
  {| cwd := "/app";
     extname := fun _ => ".zip";
     mkdir := fun _ => Returned tt;
     extract_zip := fun _ _ => Returned tt;
     which_unrar := Close (Some 1%Z);
     unrar := fun _ _ => Close (Some 0%Z);
     readdir_tree := fun _ => Returned [File "index.html"];
     spawn_throws := fun _ => false;
     python := fun executable _ =>
       if String.eqb executable "python3"
       then mkPyRun "" "" (ProcError "spawn python3 ENOENT")
       else mkPyRun "done" "" (Close (Some 0%Z));
     rm := fun _ => Returned tt;
     existsSync := fun _ => false;
     readFile := fun _ => Thrown (ErrorObj "ENOENT: no such file or directory") |}.

(** A server on which every stage works, cleanup fails and the merged file
    of the sample job is on disk afterwards. *)
Definition env_served : Env :=
  {| cwd := "/app";
     extname := fun _ => ".zip";
     mkdir := fun _ => Returned tt;
     extract_zip := fun _ _ => Returned tt;
     which_unrar := Close (Some 1%Z);
     unrar := fun _ _ => Close (Some 0%Z);
     readdir_tree := fun _ => Returned [File "index.html"];
     spawn_throws := fun _ => false;
     python := fun _ _ => mkPyRun "done" "" (Close (Some 0%Z));
     rm := fun _ => Thrown (ErrorObj "EBUSY: resource busy or locked");
     existsSync := fun p =>
       String.eqb p "/app/outputs/merged_17000000000004fzyo82mv.pdf";
     readFile := fun p =>
       if String.eqb p "/app/outputs/merged_17000000000004fzyo82mv.pdf"
       then Returned "%PDF-merged"
       else Thrown (ErrorObj "ENOENT: no such file or directory") |}.

(** A server whose disk is full: no directory can be made. *)
Definition env_no_room : Env :=
  {| cwd := "/app";
     extname := fun _ => ".zip";
     mkdir := fun _ => Thrown (ErrorObj "ENOSPC: no space left on device, mkdir");
     extract_zip := fun _ _ => Returned tt;
     which_unrar := Close (Some 0%Z);
     unrar := fun _ _ => Close (Some 0%Z);
     readdir_tree := fun _ => Returned [File "index.html"];
     spawn_throws := fun _ => false;
     python := fun _ _ => mkPyRun "done" "" (Close (Some 0%Z));
     rm := fun _ => Returned tt;
     existsSync := fun _ => false;
     readFile := fun _ => Thrown (ErrorObj "ENOENT: no such file or directory") |}.

(** A server whose output directory exists and holds nothing. *)
Definition env_empty_outputs : Env :=
  {| cwd := "/app";
     extname := fun _ => ".zip";
     mkdir := fun _ => Returned tt;
     extract_zip := fun _ _ => Returned tt;
     which_unrar := Close (Some 0%Z);
     unrar := fun _ _ => Close (Some 0%Z);
     readdir_tree := fun _ => Returned [];
     spawn_throws := fun _ => false;
     python := fun _ _ => mkPyRun "" "" (Close (Some 0%Z));
     rm := fun _ => Returned tt;
     existsSync := fun p => String.eqb p "/app/outputs" || String.eqb p "/app/uploads";
     readFile := fun p =>
       if String.eqb p "/app/outputs" || String.eqb p "/app/uploads"
       then Thrown (ErrorObj "EISDIR: illegal operation on a directory, read")
       else Thrown (ErrorObj "ENOENT: no such file or directory") |}.

(** A server asked for an archive with another extension. *)
Definition env_7z : Env :=
  {| cwd := "/app";
     extname := fun _ => ".7z";
     mkdir := fun _ => Returned tt;
     extract_zip := fun _ _ => Returned tt;
     which_unrar := Close (Some 0%Z);
     unrar := fun _ _ => Close (Some 0%Z);
     readdir_tree := fun _ => Returned [File "index.html"];
     spawn_throws := fun _ => false;
     python := fun _ _ => mkPyRun "" "" (Close (Some 0%Z));
     rm := fun _ => Returned tt;
     existsSync := fun _ => false;
     readFile := fun _ => Thrown (ErrorObj "ENOENT: no such file or directory") |}.

(** The names of a tree are names as [readdir] gives them: no ['/'], none
    empty, ["."] or [".."]. *)
Inductive plain_names : Dirent -> Prop :=
| plain_file name : Path.plain name -> plain_names (File name)
| plain_other name : Path.plain name -> plain_names (Other name)
| plain_directory name entries :
    Path.plain name -> Forall plain_names entries ->
    plain_names (Directory name entries).

(** A regular file called [name] is reached in a tree by going down the
    directories called [dirs], one inside the other. *)
Inductive file_reached : list Dirent -> list string -> string -> Prop :=
| reached_here entries name :
    In (File name) entries -> file_reached entries [] name
| reached_below entries d sub dirs name :
    In (Directory d sub) entries -> file_reached sub dirs name ->
    file_reached entries (d :: dirs) name.

(** The same tree listed in another order, at any depth. *)
Inductive reordered : list Dirent -> list Dirent -> Prop :=
| reordered_nil : reordered [] []
| reordered_same entry es es' :
    reordered es es' -> reordered (entry :: es) (entry :: es')
| reordered_inside name sub sub' es es' :
    reordered sub sub' -> reordered es es' ->
    reordered (Directory name sub :: es) (Directory name sub' :: es')
| reordered_swap x y es : reordered (x :: y :: es) (y :: x :: es)
| reordered_trans es1 es2 es3 :
    reordered es1 es2 -> reordered es2 es3 -> reordered es1 es3.

(** A tree with nested pages, and the same tree as another [readdir] order
    would list it. *)
Definition tree_listed : list Dirent :=
  [Directory "docs" [File "b.html"; File "a.HTM"]; File "index.html"; Other "link.html"].

Definition tree_listed_otherwise : list Dirent :=
  [File "index.html"; Directory "docs" [File "a.HTM"; File "b.html"]; Other "link.html"].

Definition env_listed : Env :=
  sample_env (Returned tt) (Returned tree_listed) (mkPyRun "" "" (Close (Some 0%Z))).

Definition env_listed_otherwise : Env :=
  sample_env (Returned tt) (Returned tree_listed_otherwise)
             (mkPyRun "" "" (Close (Some 0%Z))).

(** ** The upload route: [POST /api/upload] *)

(** The [file] field of the posted form: absent, a text value, or a file
    with its name and what reading its bytes gives. *)
Inductive FormField :=
| NoField
| TextField (value : string)
| FileField (name : string) (arrayBuffer : outcome string).

(** What the route reads besides the class's environment: the parsed form,
    [fs.writeFile], the [Date.now()] of the stored name, and the clock and
    random draw of the [createJob] that follows. *)
Record UploadWorld := mkUploadWorld {
  server : Env;
  formData : outcome FormField;
  writeFile : string -> string -> outcome unit;
  stored_now : Z;
  id_now : Z;
  id_random36 : string;
  id_created : Z
}.

(** The JSON answers of the route with their status. *)
Inductive UploadResponse :=
| UploadRejected400 (error : string)
| UploadFailed500 (error : string)
| UploadAccepted200 (jobId : string) (message : string).

(** The answer, the registry afterwards, the files written, and the run
    handed to [setImmediate]: the job id and the stored archive's path. *)
Record Posted := mkPosted {
  response : UploadResponse;
  registry : JsMap.t;
  written : list string;
  scheduled : option (string * string)
}.

Definition allowedTypes : list string := [".zip"; ".rar"].

(** [allowedTypes.includes(fileExtension)]. *)
Definition includes (l : list string) (s : string) : bool :=
  existsb (String.eqb s) l.

Definition upload_failed (jobs : JsMap.t) (written : list string) : Posted :=
  mkPosted (UploadFailed500 "Failed to process upload") jobs written None.

(** [POST(request)]. *)
Definition POST_upload (w : UploadWorld) (jobs : JsMap.t) : Posted :=
  match formData w with
  | Thrown _ => upload_failed jobs []
  | Returned NoField => mkPosted (UploadRejected400 "No file uploaded") jobs [] None
  | Returned (TextField value) =>
      (* a text value: empty is falsy, otherwise [file.name] is undefined
         and [path.extname] throws *)
      if String.eqb value ""
      then mkPosted (UploadRejected400 "No file uploaded") jobs [] None
      else upload_failed jobs []
  | Returned (FileField name arrayBuffer) =>
      let fileExtension := Str.to_lower (extname (server w) name) in
      if negb (includes allowedTypes fileExtension)
      then mkPosted (UploadRejected400 "Only ZIP and RAR files are allowed") jobs [] None
      else
        match arrayBuffer with
        | Thrown _ => upload_failed jobs []
        | Returned buffer =>
            let uploadDir := Path.join (cwd (server w)) "uploads" in
            let keep := Path.join uploadDir ".gitkeep" in
            match writeFile w keep "" with
            | Thrown _ => upload_failed jobs []
            | Returned _ =>
                let filename := (toString (stored_now w) ++ "_" ++ name)%string in
                let filepath := Path.join uploadDir filename in
                match writeFile w filepath buffer with
                | Thrown _ => upload_failed jobs [keep]
                | Returned _ =>
                    let '(jobId, jobs') :=
                      createJob (id_now w) (id_random36 w) (id_created w)
                                type_full_process [name] jobs in
                    mkPosted
                      (UploadAccepted200 jobId "File uploaded successfully. Processing started.")
                      jobs' [keep; filepath] (Some (jobId, filepath))
                end
            end
        end
  end.

(** An upload of [site.ZIP] to a server that stores it, and the same
    upload of [notes.7z]. *)
Definition world_zip : UploadWorld :=
  {| server := sample_env (Returned tt) (Returned [File "index.html"])
                          (mkPyRun "" "" (Close (Some 0%Z)));
     formData := Returned (FileField "site.ZIP" (Returned "PK-archive-bytes"));
     writeFile := fun _ _ => Returned tt;
     stored_now := 1700000000000;
     id_now := 1700000000001;
     id_random36 := "0.4fzyo82mvyr";
     id_created := 1700000000001 |}.

Definition world_7z : UploadWorld :=
  {| server := env_7z;
     formData := Returned (FileField "notes.7z" (Returned "7z-bytes"));
     writeFile := fun _ _ => Returned tt;
     stored_now := 1700000000000;
     id_now := 1700000000001;
     id_random36 := "0.4fzyo82mvyr";
     id_created := 1700000000001 |}.

(** ** The dashboard: [JobMonitor] *)

Inductive Icon :=
| CheckCircle_green      (* <CheckCircle className="h-4 w-4 text-green-500" /> *)
| XCircle_red            (* <XCircle className="h-4 w-4 text-red-500" /> *)
| Loader2_spinning       (* <Loader2 className="h-4 w-4 text-blue-500 animate-spin" /> *)
| Clock_gray400          (* <Clock className="h-4 w-4 text-gray-400" /> *)
| Clock_gray300.         (* <Clock className="h-4 w-4 text-gray-300" /> *)

(** [getStatusIcon(status)]. *)
Definition getStatusIcon (s : Status) : Icon :=
  match s with
  | completed => CheckCircle_green
  | failed => XCircle_red
  | processing => Loader2_spinning
  | pending => Clock_gray400
  end.

(** [getStepIcon(completed, isActive)]. *)
Definition getStepIcon (completed isActive : bool) : Icon :=
  if completed then CheckCircle_green
  else if isActive then Loader2_spinning
  else Clock_gray300.

(** [getCurrentStep(job)]: [None] is [null]. *)
Definition getCurrentStep (job : ProcessingJob) : option string :=
  match steps job with
  | None => None
  | Some s =>
      if negb (extract s) then Some "extract"
      else if negb (convert s) then Some "convert"
      else if negb (merge s) then Some "merge"
      else Some "completed"
  end.

(** [getCurrentStep(job) === name]. *)
Definition current_is (job : ProcessingJob) (name : string) : bool :=
  match getCurrentStep job with
  | Some current => String.eqb current name
  | None => false
  end.

(** [x && (...)] on an optional string: rendered when the string is there
    and not empty. *)
Definition truthy (o : option string) : option string :=
  match o with
  | Some s => if String.eqb s "" then None else Some s
  | None => None
  end.

(** What the card of one job shows: the status icon, the progress section
    (only while processing: the value and, when the job has steps, the icons
    of extract, convert and merge), the input files listed and how many more
    there are, the download button's file and the error alert's text. *)
Record JobCard := mkJobCard {
  card_icon : Icon;
  card_status : Status;
  card_progress : option (Z * option (list Icon));
  card_files : list string;
  card_more : option Z;
  card_download : option string;
  card_alert : option string
}.

(** The body of [jobs.map((job) => ...)]. *)
Definition render_job (job : ProcessingJob) : JobCard :=
  {| card_icon := getStatusIcon (status job);
     card_status := status job;
     card_progress :=
       match status job with
       | processing =>
           Some (progress job,
                 match steps job with
                 | Some s =>
                     Some [getStepIcon (extract s) (current_is job "extract");
                           getStepIcon (convert s) (current_is job "convert");
                           getStepIcon (merge s) (current_is job "merge")]
                 | None => None
                 end)
       | _ => None
       end;
     card_files := firstn 2 (inputFiles job);
     card_more :=
       if (2 <? List.length (inputFiles job))%nat
       then Some (Z.of_nat (List.length (inputFiles job)) - 2)%Z
       else None;
     card_download := truthy (outputFile job);
     card_alert := truthy (error job) |}.

(** ** The upload widget: [FileUpload] *)

Record DroppedFile := mkDroppedFile { file_name : string; file_bytes : string }.

(** The body [response.json()] parses: its [error] and [jobId] properties. *)
Record JsonBody := mkJsonBody {
  json_error : option string;
  json_jobId : option string
}.

(** What [fetch('/api/upload')] resolves to: [response.ok] and what
    [response.json()] gives. *)
Record HttpResponse := mkHttpResponse {
  ok : bool;
  json : outcome JsonBody
}.

Inductive Toast := toast_success (text : string) | toast_error (text : string).

(** After [onDrop]: the [error] state, the toast, and the argument of
    [onUploadComplete] when it was called ([Some None] is a call with
    [undefined]). *)
Record Dropped := mkDropped {
  fetched : bool;
  error_state : option string;
  toast : option Toast;
  upload_complete : option (option string)
}.

(** [error instanceof Error ? error.message : 'Upload failed']. *)
Definition upload_error_text (t : thrown) : string :=
  match t with
  | ErrorObj message => message
  | NonError => "Upload failed"
  end.

(** [onDrop(acceptedFiles)], with what [fetch] does for a file. *)
Definition onDrop (previous_error : option string)
    (fetch : DroppedFile -> outcome HttpResponse)
    (acceptedFiles : list DroppedFile) : Dropped :=
  match acceptedFiles with
  | [] => mkDropped false previous_error None None
  | file :: _ =>
      let caught (t : thrown) :=
        mkDropped true (Some (upload_error_text t))
                  (Some (toast_error (upload_error_text t))) None in
      match fetch file with
      | Thrown t => caught t
      | Returned response =>
          match json response with
          | Thrown t => caught t
          | Returned body =>
              if negb (ok response) then
                caught (ErrorObj match truthy (json_error body) with
                                 | Some e => e
                                 | None => "Upload failed"
                                 end)
              else
                mkDropped true None
                  (Some (toast_success "File uploaded successfully! Processing started."))
                  (Some (json_jobId body))
          end
      end
  end.

(** The route's answer as [fetch] sees it: [NextResponse.json(body, status)]. *)
Definition http_of (r : UploadResponse) : HttpResponse :=
  match r with
  | UploadRejected400 e => mkHttpResponse false (Returned (mkJsonBody (Some e) None))
  | UploadFailed500 e => mkHttpResponse false (Returned (mkJsonBody (Some e) None))
  | UploadAccepted200 jobId _ =>
      mkHttpResponse true (Returned (mkJsonBody None (Some jobId)))
  end.

(** The form the widget posts: the dropped file as the [file] field. *)
Definition posting (w : UploadWorld) (file : DroppedFile) : UploadWorld :=
  {| server := server w;
     formData := Returned (FileField (file_name file) (Returned (file_bytes file)));
     writeFile := writeFile w;
     stored_now := stored_now w;
     id_now := id_now w;
     id_random36 := id_random36 w;
     id_created := id_created w |}.

(** [fetch('/api/upload', { method: 'POST', body: formData })] against the
    route on a server with registry [jobs]. *)
Definition fetch_upload (w : UploadWorld) (jobs : JsMap.t) (file : DroppedFile)
  : outcome HttpResponse :=
  Returned (http_of (response (POST_upload (posting w file) jobs))).

(** * Properties *)

(** ** Strings and paths *)

Lemma append_nil_r (s : string) : (s ++ "")%string = s.
Proof. induction s; simpl; congruence. Qed.

Lemma append_assoc (a b c : string) : ((a ++ b) ++ c)%string = (a ++ (b ++ c))%string.
Proof. induction a; simpl; congruence. Qed.

Lemma split_slash_nonnil (s : string) : Str.split_slash s <> [].
Proof.
  induction s as [|c s IH]; simpl; [discriminate|].
  destruct (Ascii.eqb c Str.slash); [discriminate|].
  destruct (Str.split_slash s); [contradiction|discriminate].
Qed.

Lemma split_slash_app (a b : string) :
  Str.split_slash (a ++ "/" ++ b) = Str.split_slash a ++ Str.split_slash b.
Proof.
  induction a as [|c a IH]; simpl in *; [reflexivity|].
  rewrite IH.
  destruct (Ascii.eqb c Str.slash); [reflexivity|].
  destruct (Str.split_slash a) eqn:E; [now apply split_slash_nonnil in E|reflexivity].
Qed.

Lemma split_slash_free (s : string) :
  Str.slash_free s = true -> Str.split_slash s = [s].
Proof.
  induction s as [|c s IH]; simpl; [reflexivity|].
  destruct (Ascii.eqb c Str.slash); simpl; [discriminate|].
  intros H. now rewrite (IH H).
Qed.

Lemma ends_with_slash_app (a b : string) :
  b <> "" -> Str.ends_with_slash (a ++ b) = Str.ends_with_slash b.
Proof.
  intros Hb. induction a as [|c a IH]; simpl; [reflexivity|].
  rewrite IH. destruct (a ++ b)%string eqn:E; [|reflexivity].
  destruct a; simpl in E; [congruence|discriminate].
Qed.

Lemma ends_with_slash_free (s : string) :
  Str.slash_free s = true -> Str.ends_with_slash s = false.
Proof.
  induction s as [|c s IH]; simpl; [reflexivity|].
  destruct (Ascii.eqb c Str.slash); simpl; [discriminate|].
  intros H. rewrite (IH H). now destruct s.
Qed.

Lemma plain_step (b : bool) (acc : list string) (seg : string) :
  Path.plain seg -> Path.norm_step b acc seg = acc ++ [seg].
Proof.
  intros (_ & H1 & H2 & H3). unfold Path.norm_step.
  apply String.eqb_neq in H1, H2, H3. now rewrite H1, H2, H3.
Qed.

Lemma plain_fold (b : bool) (segs acc : list string) :
  Forall Path.plain segs -> fold_left (Path.norm_step b) segs acc = acc ++ segs.
Proof.
  intros H. revert acc. induction H as [|s segs Hs _ IH]; intros acc; simpl.
  - now rewrite app_nil_r.
  - rewrite (plain_step b acc Hs), IH, <- app_assoc. reflexivity.
Qed.

Lemma concat_cons2 (s t : string) (l : list string) :
  String.concat "/" (s :: t :: l) = (s ++ "/" ++ String.concat "/" (t :: l))%string.
Proof. reflexivity. Qed.

Lemma split_concat_plain (segs : list string) :
  Forall Path.plain segs -> segs <> [] ->
  Str.split_slash (String.concat "/" segs) = segs.
Proof.
  induction 1 as [|s segs Hs Hsegs IH]; intros Hne; [contradiction|].
  destruct segs as [|t l].
  - simpl. apply split_slash_free, Hs.
  - rewrite concat_cons2, split_slash_app, IH by discriminate.
    now rewrite (split_slash_free s (proj1 Hs)).
Qed.

Lemma fold_split_concat (b : bool) (segs acc : list string) :
  Forall Path.plain segs ->
  fold_left (Path.norm_step b) (Str.split_slash (String.concat "/" segs)) acc
  = acc ++ segs.
Proof.
  intros H. destruct segs as [|s l].
  - simpl. now rewrite app_nil_r.
  - rewrite split_concat_plain by (assumption || discriminate).
    now apply plain_fold.
Qed.

(** Normalizing [dir/rel] for an absolute, already normal [dir] walks the
    segments of [rel] from the segments of [dir]. *)
Lemma normalizeString_below (segs : list string) (rel : string) :
  Forall Path.plain segs ->
  Path.normalizeString (Path.render_abs segs ++ "/" ++ rel) false
  = fold_left (Path.norm_step false) (Str.split_slash rel) segs.
Proof.
  intros H. unfold Path.normalizeString, Path.render_abs.
  rewrite split_slash_app, fold_left_app.
  change ("/" ++ String.concat "/" segs)%string
    with ("" ++ "/" ++ String.concat "/" segs)%string.
  rewrite split_slash_app, fold_left_app. simpl (fold_left _ (Str.split_slash "") _).
  now rewrite fold_split_concat.
Qed.

Lemma normalizeString_render (segs : list string) :
  Forall Path.plain segs ->
  Path.normalizeString (Path.render_abs segs) false = segs.
Proof.
  intros H. unfold Path.normalizeString, Path.render_abs.
  change ("/" ++ String.concat "/" segs)%string
    with ("" ++ "/" ++ String.concat "/" segs)%string.
  rewrite split_slash_app, fold_left_app. simpl (fold_left _ (Str.split_slash "") _).
  now rewrite fold_split_concat.
Qed.

Lemma dotdot_free_fold (b : bool) (l acc : list string) :
  ~ In ".." l ->
  exists rest, fold_left (Path.norm_step b) l acc = acc ++ rest.
Proof.
  revert acc. induction l as [|seg l IH]; intros acc Hno; simpl.
  - exists []. now rewrite app_nil_r.
  - assert (Hseg : seg <> "..") by (intros ->; apply Hno; now left).
    assert (Hl : ~ In ".." l) by (intros Hin; apply Hno; now right).
    unfold Path.norm_step at 2.
    destruct (String.eqb seg "" || String.eqb seg ".").
    + apply IH, Hl.
    + apply String.eqb_neq in Hseg. rewrite Hseg.
      destruct (IH (acc ++ [seg]) Hl) as [rest Hrest].
      exists (seg :: rest). rewrite Hrest, <- app_assoc. reflexivity.
Qed.

Lemma concat_app_nonnil (a b : list string) :
  a <> [] -> b <> [] ->
  String.concat "/" (a ++ b)
  = (String.concat "/" a ++ "/" ++ String.concat "/" b)%string.
Proof.
  intros Ha Hb. induction a as [|s a IH]; [contradiction|].
  destruct a as [|t a].
  - destruct b; [contradiction|reflexivity].
  - change (String.concat "/" ((s :: t :: a) ++ b))
      with (s ++ "/" ++ String.concat "/" ((t :: a) ++ b))%string.
    rewrite IH by discriminate. rewrite concat_cons2.
    now rewrite !append_assoc.
Qed.

Lemma concat_plain_nonempty (s : string) (l : list string) :
  s <> "" -> String.concat "/" (s :: l) <> "".
Proof.
  intros Hs. destruct s as [|c s]; [contradiction|].
  destruct l; simpl; discriminate.
Qed.

Lemma ends_with_slash_render (segs : list string) :
  Forall Path.plain segs -> segs <> [] ->
  Str.ends_with_slash (Path.render_abs segs) = false.
Proof.
  intros H Hne. unfold Path.render_abs.
  assert (G : forall a, Str.ends_with_slash (a ++ String.concat "/" segs) = false).
  { induction H as [|s l Hs Hl IH]; [contradiction|]. intros a.
    destruct l as [|t l].
    - simpl. rewrite ends_with_slash_app by apply Hs.
      apply ends_with_slash_free, Hs.
    - rewrite concat_cons2.
      replace (a ++ s ++ "/" ++ String.concat "/" (t :: l))%string
        with ((a ++ s ++ "/") ++ String.concat "/" (t :: l))%string
        by now rewrite !append_assoc.
      apply IH. discriminate. }
  apply G.
Qed.

Lemma concat_nonempty_plain (l : list string) :
  Forall Path.plain l -> l <> [] -> String.concat "/" l <> "".
Proof.
  intros H Hne. destruct H as [|s l Hs _]; [contradiction|].
  apply concat_plain_nonempty, Hs.
Qed.

(** [path.join(dir, rel)] for an absolute normal [dir] and a non-empty
    [rel]. *)
Lemma join_below (segs : list string) (rel : string) :
  Forall Path.plain segs -> rel <> "" ->
  Path.join (Path.render_abs segs) rel =
  let body := String.concat "/"
                (fold_left (Path.norm_step false) (Str.split_slash rel) segs) in
  if String.eqb body "" then "/"
  else ("/" ++ body ++ (if Str.ends_with_slash rel then "/" else ""))%string.
Proof.
  intros H Hrel. unfold Path.join.
  change (String.eqb (Path.render_abs segs) "") with false.
  apply String.eqb_neq in Hrel. rewrite Hrel. apply String.eqb_neq in Hrel.
  cbv beta iota. unfold Path.normalize.
  change (String.eqb (Path.render_abs segs ++ "/" ++ rel) "") with false.
  change (Str.starts_with_slash (Path.render_abs segs ++ "/" ++ rel)) with true.
  cbv beta iota zeta. change (negb true) with false.
  rewrite normalizeString_below by assumption.
  rewrite (ends_with_slash_app (Path.render_abs segs) (b := "/" ++ rel)) by discriminate.
  replace (Str.ends_with_slash ("/" ++ rel)) with (Str.ends_with_slash rel)
    by (destruct rel; [contradiction|reflexivity]).
  reflexivity.
Qed.

Lemma join_render (segs : list string) (name : string) :
  Forall Path.plain segs -> Path.plain name ->
  Path.join (Path.render_abs segs) name = Path.render_abs (segs ++ [name]).
Proof.
  intros H Hn. rewrite join_below by (assumption || apply Hn).
  cbv zeta. rewrite (split_slash_free name (proj1 Hn)). simpl fold_left.
  rewrite (plain_step false segs Hn).
  assert (Hne : String.concat "/" (segs ++ [name]) <> "").
  { apply concat_nonempty_plain.
    - apply Forall_app; split; [assumption|now constructor].
    - now destruct segs. }
  apply String.eqb_neq in Hne. rewrite Hne.
  rewrite (ends_with_slash_free name (proj1 Hn)), append_nil_r. reflexivity.
Qed.

Lemma join_empty (segs : list string) :
  Forall Path.plain segs -> segs <> [] ->
  Path.join (Path.render_abs segs) "" = Path.render_abs segs.
Proof.
  intros H Hne. unfold Path.join.
  change (String.eqb (Path.render_abs segs) "") with false.
  cbn [String.eqb]. unfold Path.normalize.
  change (String.eqb (Path.render_abs segs) "") with false.
  change (Str.starts_with_slash (Path.render_abs segs)) with true.
  cbv beta iota zeta. change (negb true) with false.
  rewrite normalizeString_render, ends_with_slash_render by assumption.
  pose proof (concat_nonempty_plain H Hne) as Hb.
  apply String.eqb_neq in Hb. rewrite Hb. now rewrite append_nil_r.
Qed.

Lemma plain_outputs : Path.plain "outputs".
Proof. repeat split; discriminate. Qed.

Lemma outputDir_render (env : Env) (segs : list string) :
  cwd env = Path.render_abs segs -> Forall Path.plain segs ->
  outputDir env = Path.render_abs (segs ++ ["outputs"]).
Proof.
  intros Hcwd H. unfold outputDir. rewrite Hcwd.
  apply join_render; [assumption|apply plain_outputs].
Qed.

(** Without a [".."] segment in [rel], the join stays in [dir]. *)
Lemma join_under (segs : list string) (rel : string) :
  Forall Path.plain segs -> segs <> [] ->
  ~ In ".." (Str.split_slash rel) ->
  Path.under (Path.render_abs segs) (Path.join (Path.render_abs segs) rel).
Proof.
  intros H Hne Hno.
  destruct (string_dec rel "") as [->|Hrel].
  { left. now apply join_empty. }
  rewrite join_below by assumption. cbv zeta.
  destruct (dotdot_free_fold false (Str.split_slash rel) segs Hno) as [rest Hrest].
  rewrite Hrest.
  assert (Hb : String.concat "/" (segs ++ rest) <> "").
  { destruct segs as [|s l]; [contradiction|].
    apply concat_plain_nonempty. inversion H; subst. match goal with h : Path.plain s |- _ => apply h end. }
  apply String.eqb_neq in Hb. rewrite Hb.
  destruct rest as [|r rest].
  - rewrite List.app_nil_r. destruct (Str.ends_with_slash rel).
    + right. exists "". reflexivity.
    + left. unfold Path.render_abs. now rewrite append_nil_r.
  - right. rewrite concat_app_nonnil by (assumption || discriminate).
    exists (String.concat "/" (r :: rest) ++ (if Str.ends_with_slash rel then "/" else ""))%string.
    unfold Path.render_abs. now rewrite !append_assoc.
Qed.

(** ** C1: the download lookup *)

(** C1, as stated, fails: for the filename [../uploads/1700000000000_site.zip]
    [downloadFile] returns a path outside the output directory and the
    route serves that file. *)
Lemma C1_counterexample_traversal_served :
  outputDir env_disk = "/app/outputs" /\
  downloadFile env_disk "../uploads/1700000000000_site.zip"
    = Some "/app/uploads/1700000000000_site.zip" /\
  ~ Path.under (outputDir env_disk) "/app/uploads/1700000000000_site.zip" /\
  GET_download env_disk "../uploads/1700000000000_site.zip"
    = Attachment200 "PK-archive-bytes" "../uploads/1700000000000_site.zip".
Proof.
  repeat split; try reflexivity.
  change (outputDir env_disk) with "/app/outputs".
  intros [H | [rest H]]; discriminate H.
Qed.

(** C1, amended: [downloadFile] returns exactly [path.join(outputDir,
    filename)] when something exists there and [null] otherwise; when the
    filename has no [".."] segment the returned path is the output directory
    or below it. *)
Theorem C1_downloadFile_joined_path (env : Env) (segs : list string)
    (filename : string) :
  cwd env = Path.render_abs segs -> Forall Path.plain segs ->
  (forall p, downloadFile env filename = Some p <->
             p = Path.join (outputDir env) filename /\ existsSync env p = true) /\
  (downloadFile env filename = None <->
   existsSync env (Path.join (outputDir env) filename) = false) /\
  (downloadFile env filename = None -> GET_download env filename = NotFound404) /\
  (~ In ".." (Str.split_slash filename) ->
   forall p, downloadFile env filename = Some p -> Path.under (outputDir env) p).
Proof.
  intros Hcwd Hsegs. split; [|split; [|split]].
  - unfold downloadFile.
    intros p. destruct (existsSync env (Path.join (outputDir env) filename)) eqn:E.
    + split; [intros [= <-]; now split|intros [-> _]; reflexivity].
    + split; [discriminate|intros [-> H]; congruence].
  - unfold downloadFile.
    destruct (existsSync env (Path.join (outputDir env) filename));
      split; intros; (reflexivity || discriminate).
  - unfold GET_download. now intros ->.
  - unfold downloadFile. intros Hno p.
    destruct (existsSync env (Path.join (outputDir env) filename)); [|discriminate].
    intros [= <-]. rewrite (outputDir_render env Hcwd Hsegs).
    apply join_under; [|now destruct segs|assumption].
    apply Forall_app; split; [assumption|constructor; [apply plain_outputs|constructor]].
Qed.

Lemma C1_downloadFile_joined_path_witness :
  cwd env_disk = Path.render_abs ["app"] /\ Forall Path.plain ["app"] /\
  ~ In ".." (Str.split_slash "merged_17000000000004fzyo82mv.pdf") /\
  downloadFile env_disk "merged_17000000000004fzyo82mv.pdf"
  = Some "/app/outputs/merged_17000000000004fzyo82mv.pdf" /\
  Path.under (outputDir env_disk) "/app/outputs/merged_17000000000004fzyo82mv.pdf".
Proof.
  assert (Hp : Forall Path.plain ["app"]).
  { constructor; [repeat split; discriminate|constructor]. }
  assert (Hno : ~ In ".." (Str.split_slash "merged_17000000000004fzyo82mv.pdf")).
  { cbn. intros [H|[]]. discriminate H. }
  split; [reflexivity|]. split; [exact Hp|]. split; [exact Hno|].
  split; [reflexivity|].
  exact (proj2 (proj2 (proj2 (@C1_downloadFile_joined_path env_disk ["app"]
                                "merged_17000000000004fzyo82mv.pdf" eq_refl Hp)))
           Hno _ eq_refl).
Defined.

(** ** The registry *)

Lemma get_set_eq (m : JsMap.t) (k : string) (v : ProcessingJob) :
  JsMap.get (JsMap.set m k v) k = Some v.
Proof.
  induction m as [|[k' v'] m IH]; simpl.
  - now rewrite String.eqb_refl.
  - destruct (String.eqb k' k) eqn:E; simpl; rewrite E; [reflexivity|exact IH].
Qed.

Lemma get_set_ne (m : JsMap.t) (k k' : string) (v : ProcessingJob) :
  k' <> k -> JsMap.get (JsMap.set m k v) k' = JsMap.get m k'.
Proof.
  intros Hne. induction m as [|[k0 v0] m IH]; simpl.
  - apply String.eqb_neq in Hne. now rewrite String.eqb_sym, Hne.
  - destruct (String.eqb k0 k) eqn:E; simpl.
    + apply String.eqb_eq in E. subst k0.
      assert (H : String.eqb k k' = false) by (apply String.eqb_neq; congruence).
      now rewrite H.
    + now rewrite IH.
Qed.

Lemma set_set (m : JsMap.t) (k : string) (a b : ProcessingJob) :
  JsMap.set (JsMap.set m k a) k b = JsMap.set m k b.
Proof.
  induction m as [|[k' v'] m IH]; simpl.
  - now rewrite String.eqb_refl.
  - destruct (String.eqb k' k) eqn:E; simpl; rewrite E; [reflexivity|now rewrite IH].
Qed.

Lemma updateJob_map_hit (jobs : JsMap.t) (jobId : string) (job : ProcessingJob)
    (updates : Partial) :
  JsMap.get jobs jobId = Some job ->
  updateJob_map jobs jobId updates = JsMap.set jobs jobId (assign job updates).
Proof. intros H. unfold updateJob_map. now rewrite H. Qed.

Lemma updateJob_map_other (jobs : JsMap.t) (jobId k : string) (updates : Partial) :
  k <> jobId ->
  JsMap.get (updateJob_map jobs jobId updates) k = JsMap.get jobs k.
Proof.
  intros Hne. unfold updateJob_map.
  destruct (JsMap.get jobs jobId); [now apply get_set_ne|reflexivity].
Qed.

Lemma cleanup_returns (env : Env) (a b : string) : cleanup env a b = Returned tt.
Proof. unfold cleanup. destruct (rm env a); [destruct (rm env b)|]; reflexivity. Qed.

(** ** Every run of [processArchive] follows one of the paths *)

Ltac run_eval :=
  cbv beta iota zeta delta [processArchive try_catch bind await throw updateJob
                            ret app fold_updates scan_updates fold_left
                            Nat.eqb List.length].

Lemma processArchive_run (env : Env) (jobId archivePath : string) (jobs : JsMap.t) :
  exists ups r,
    run_path env jobId archivePath ups r /\
    processArchive env jobId archivePath jobs
    = (fold_updates jobs jobId ups, scan_updates jobs jobId ups, r).
Proof.
  destruct (extractArchive env archivePath (extractDir_of env jobId))
    as [[]|t] eqn:Hextract.
  2:{ eexists _, _. split; [apply fails_extract, Hextract|].
      run_eval. rewrite Hextract. reflexivity. }
  destruct (findHtmlFiles env (extractDir_of env jobId)) as [[|file files]|t] eqn:Hfind.
  2:{ destruct (mkdir env (pdfDir_of env jobId)) as [[]|t] eqn:Hmkdir.
      2:{ eexists _, _. split; [eapply fails_mkdir; eassumption|].
          run_eval. rewrite Hextract, Hfind, Hmkdir. reflexivity. }
      destruct (convertHtmlToPdf env (extractDir_of env jobId) (pdfDir_of env jobId))
        as [[]|t] eqn:Hconvert.
      2:{ eexists _, _. split; [eapply fails_convert; eassumption|].
          run_eval. rewrite Hextract, Hfind, Hmkdir, Hconvert. reflexivity. }
      destruct (mergePdfs env (pdfDir_of env jobId) (mergedPdfPath_of env jobId))
        as [[]|t] eqn:Hmerge.
      2:{ eexists _, _. split; [eapply fails_merge; eassumption|].
          run_eval. rewrite Hextract, Hfind, Hmkdir, Hconvert, Hmerge. reflexivity. }
      eexists _, _. split; [eapply succeeds; eassumption|].
      run_eval. rewrite Hextract, Hfind, Hmkdir, Hconvert, Hmerge, cleanup_returns.
      reflexivity. }
  - eexists _, _. split; [eapply fails_no_documents; eassumption|].
    run_eval. rewrite Hextract, Hfind. reflexivity.
  - eexists _, _. split; [eapply fails_discover; eassumption|].
    run_eval. rewrite Hextract, Hfind. reflexivity.
Qed.

Lemma last_cons_default {A} (l : list A) (x d d' : A) :
  last (x :: l) d = last (x :: l) d'.
Proof.
  revert x. induction l as [|y l IH]; intros x; [reflexivity|].
  change (last (y :: l) d = last (y :: l) d'). apply IH.
Qed.

Lemma scan_updates_present (ups : list Partial) :
  forall (jobs : JsMap.t) (jobId : string) (job : ProcessingJob),
  JsMap.get jobs jobId = Some job ->
  history jobId (scan_updates jobs jobId ups) = map Some (scan_assign job ups) /\
  JsMap.get (fold_updates jobs jobId ups) jobId = Some (last (scan_assign job ups) job).
Proof.
  induction ups as [|u ups IH]; intros jobs jobId job Hget.
  - split; [reflexivity|exact Hget].
  - assert (H1 : JsMap.get (updateJob_map jobs jobId u) jobId = Some (assign job u)).
    { rewrite (@updateJob_map_hit jobs jobId job u Hget). apply get_set_eq. }
    destruct (IH _ _ _ H1) as [Hh Hf]. split.
    + simpl. now rewrite H1, <- Hh.
    + unfold fold_updates in *. simpl fold_left. rewrite Hf. f_equal.
      destruct ups as [|p ups]; [reflexivity|].
      apply (last_cons_default (scan_assign (assign (assign job u) p) ups)).
Qed.

Lemma scan_updates_other (ups : list Partial) :
  forall (jobs : JsMap.t) (jobId k : string),
  k <> jobId ->
  Forall (fun snap => JsMap.get snap k = JsMap.get jobs k)
         (scan_updates jobs jobId ups) /\
  JsMap.get (fold_updates jobs jobId ups) k = JsMap.get jobs k.
Proof.
  induction ups as [|u ups IH]; intros jobs jobId k Hne.
  - split; [constructor|reflexivity].
  - pose proof (@updateJob_map_other jobs jobId k u Hne) as H1.
    destruct (IH (updateJob_map jobs jobId u) jobId k Hne) as [Hs Hf]. split.
    + simpl. constructor; [exact H1|].
      eapply Forall_impl; [|exact Hs]. simpl. intros snap ->. exact H1.
    + unfold fold_updates in *. simpl fold_left. now rewrite Hf.
Qed.


(** ** What the adapters throw *)

Lemma python_promise_described (env : Env) (args : list string)
    (prefix : string) (t : thrown) :
  prefix <> "" ->
  python_promise env args prefix = Thrown t -> described t.
Proof.
  intros Hp. unfold python_promise.
  destruct (spawn_python env args) as [run|]; [|intros [= <-]; discriminate].
  destruct (ending run) as [[[| |]|]|message];
    try (intros [= <-]; unfold described; simpl;
         destruct prefix; [contradiction|discriminate]);
    try discriminate.
Qed.

Lemma convertHtmlToPdf_described (env : Env) (a b : string) (t : thrown) :
  convertHtmlToPdf env a b = Thrown t -> described t.
Proof. apply python_promise_described. discriminate. Qed.

Lemma mergePdfs_described (env : Env) (a b : string) (t : thrown) :
  mergePdfs env a b = Thrown t -> described t.
Proof. apply python_promise_described. discriminate. Qed.

Lemma extractArchive_described (env : Env) (a d : string) (t : thrown) :
  external_errors_described env ->
  extractArchive env a d = Thrown t -> described t.
Proof.
  intros (Hmk & Hzip & _). unfold extractArchive.
  destruct (mkdir env d) eqn:E; [|intros [= <-]; eapply Hmk, E].
  destruct (String.eqb _ ".zip"); [apply Hzip|].
  destruct (String.eqb _ ".rar"); [|intros [= <-]; discriminate].
  destruct (which_unrar env) as [[[| |]|]|]; simpl;
    try (intros [= <-]; discriminate).
  destruct (unrar env a d) as [[[| |]|]|];
    try (intros [= <-]; discriminate); discriminate.
Qed.

Lemma findHtmlFiles_described (env : Env) (d : string) (t : thrown) :
  external_errors_described env ->
  findHtmlFiles env d = Thrown t -> described t.
Proof.
  intros (_ & _ & Hrd). unfold findHtmlFiles.
  destruct (readdir_tree env d) eqn:E; [discriminate|intros [= <-]; eapply Hrd, E].
Qed.

(** Whatever a run throws carries a message, as long as the errors from
    outside the class do. *)
Lemma run_path_described (env : Env) (jobId archivePath : string)
    (ups : list Partial) (t : thrown) :
  external_errors_described env ->
  run_path env jobId archivePath ups (Thrown t) -> described t.
Proof.
  intros Hext H. inversion H; subst;
    first [ eapply extractArchive_described; eassumption
          | eapply findHtmlFiles_described; eassumption
          | eapply convertHtmlToPdf_described; eassumption
          | eapply mergePdfs_described; eassumption
          | discriminate
          | destruct Hext as (Hmk & _); eapply Hmk; eassumption ].
Qed.

(** ** C2: every run ends in a terminal status *)



(** ** A created job and its run, seen from the job *)

Lemma in_history (jobId : string) (snaps : list JsMap.t) (snap : JsMap.t) :
  In snap snaps -> In (JsMap.get snap jobId) (history jobId snaps).
Proof. intros H. unfold history. now apply (in_map (fun jobs => JsMap.get jobs jobId)). Qed.

Lemma in_map_Some {A} (x : A) (l : list A) : In (Some x) (map Some l) -> In x l.
Proof.
  intros H. apply in_map_iff in H. destruct H as (y & [= ->] & H). exact H.
Qed.

(** The run that follows a creation: the updates are those of one path,
    the created job goes through the records they yield one after the other,
    and no other job of the registry is touched. *)
Lemma create_and_process_view (env : Env) (now : Z) (random36 : string)
    (created : Z) (kind : JobType) (files : list string)
    (archivePath : string) (jobs : JsMap.t) :
  let jobId := new_id now random36 in
  let job0 := new_record jobId created kind files in
  let run := create_and_process env now random36 created kind files
               archivePath jobs in
  exists ups r,
    run_path env jobId archivePath ups r /\
    result run = r /\
    history jobId (snapshots run) = map Some (job0 :: scan_assign job0 ups) /\
    JsMap.get (final run) jobId = Some (last (scan_assign job0 ups) job0) /\
    (forall k, k <> jobId ->
       Forall (fun snap => JsMap.get snap k = JsMap.get jobs k) (snapshots run) /\
       JsMap.get (final run) k = JsMap.get jobs k).
Proof.
  intros jobId job0 run. subst run. unfold create_and_process, createJob.
  fold jobId. fold job0.
  destruct (processArchive_run env jobId archivePath (JsMap.set jobs jobId job0))
    as (ups & r & Hpath & ->).
  exists ups, r. unfold final, snapshots, result; cbn [fst snd].
  pose proof (get_set_eq jobs jobId job0) as H0.
  destruct (scan_updates_present ups _ _ H0) as [Hh Hf].
  split; [exact Hpath|]. split; [reflexivity|]. split; [|split].
  - cbn [history map]. rewrite H0. f_equal. exact Hh.
  - exact Hf.
  - intros k Hk.
    destruct (scan_updates_other ups (JsMap.set jobs jobId job0) Hk) as [Hs Hfin].
    pose proof (get_set_ne jobs job0 Hk) as Hne. split.
    + constructor; [exact Hne|].
      eapply Forall_impl; [|exact Hs]. cbv beta. intros snap ->. exact Hne.
    + now rewrite Hfin.
Qed.

(** The records of a path, one by one. *)
Ltac records_of_path Hpath Hin :=
  inversion Hpath; subst;
  cbn [scan_assign In] in Hin;
  repeat match goal with
         | H : _ \/ _ |- _ => destruct H as [H | H]
         | H : False |- _ => destruct H
         end;
  subst.

(** ** C3: completed jobs *)

(** C3, as stated, fails.  Nothing keeps a second run from a record:
    [updateJob] and [processArchive] do not look at the status they find.
    Two uploads whose ids coincide share one record, which carries neither
    an error nor a completed status after the two creations; the run on
    [a.zip] fails and records its message, the run on [b.rar] then goes
    through, and the job is left [completed] with the error still set. *)
Lemma C3_counterexample_completed_with_error :
  (forall k j, JsMap.get (snd colliding_uploads) k = Some j -> completed_ok j) /\
  result runs_zip_then_rar = Returned tt /\
  exists j,
    getJob (final runs_zip_then_rar) (fst colliding_uploads) = Some j /\
    In (final runs_zip_then_rar) (snapshots runs_zip_then_rar) /\
    status j = completed /\
    error j = Some "extract is not a function" /\
    ~ completed_ok j.
Proof.
  split.
  { intros k j Hget. unfold colliding_uploads in Hget.
    cbn [createJob fst snd] in Hget.
    destruct (string_dec k (new_id 1700000000000 "0.4fzyo82mv3k")) as [->|Hk].
    - rewrite get_set_eq in Hget. injection Hget as <-.
      intros Hc. discriminate Hc.
    - rewrite (get_set_ne _ _ Hk) in Hget.
      change (new_id 1700000000000 "0.4fzyo82mvyr")
        with (new_id 1700000000000 "0.4fzyo82mv3k") in Hget.
      rewrite (get_set_ne _ _ Hk) in Hget. discriminate Hget. }
  split; [vm_compute; reflexivity|].
  eexists. split; [vm_compute; reflexivity|].
  split; [vm_compute; do 7 right; left; reflexivity|].
  split; [reflexivity|]. split; [reflexivity|].
  intros H. destruct (H eq_refl) as (_ & _ & He & _). discriminate He.
Qed.

(** C3, amended: in a registry whose completed jobs carry a non-empty output
    file, progress 100, no error and (when they have steps) all three flags,
    the same holds for every job at every point of a creation and of the one
    run that follows it: after [createJob] and after each update of that
    [processArchive]. *)
Theorem C3_completed_jobs_carry_output (env : Env) (now : Z) (random36 : string)
    (created : Z) (kind : JobType) (files : list string)
    (archivePath : string) (jobs : JsMap.t) :
  (forall k j, JsMap.get jobs k = Some j -> completed_ok j) ->
  forall snap,
    In snap (snapshots (create_and_process env now random36 created kind
                          files archivePath jobs)) ->
    forall k j, JsMap.get snap k = Some j -> completed_ok j.
Proof.
  intros Hinv snap Hin k j Hget.
  destruct (create_and_process_view env now random36 created kind files
              archivePath jobs) as (ups & r & Hpath & _ & Hh & _ & Hother).
  destruct (string_dec k (new_id now random36)) as [->|Hk].
  - apply (in_history (new_id now random36)) in Hin.
    rewrite Hh, Hget in Hin. apply in_map_Some in Hin.
    cbn [In] in Hin. destruct Hin as [<- | Hin]; [intros [=]|].
    records_of_path Hpath Hin; intros Hc; try discriminate Hc.
    cbn. split; [eexists; split; [reflexivity|discriminate]|].
    split; [reflexivity|]. split; [reflexivity|].
    intros s [= <-]. auto.
  - destruct (Hother k Hk) as [HF _]. rewrite Forall_forall in HF.
    rewrite (HF snap Hin) in Hget. eapply Hinv, Hget.
Qed.

Lemma C3_completed_jobs_carry_output_witness :
  (forall k j, JsMap.get [] k = Some j -> completed_ok j) /\
  In (final run_two_pages) (snapshots run_two_pages) /\
  exists j, JsMap.get (final run_two_pages) "17000000000004fzyo82mv" = Some j /\
            status j = completed /\ completed_ok j.
Proof.
  assert (H0 : forall k j, JsMap.get [] k = Some j -> completed_ok j)
    by (intros k j [=]).
  assert (Hin : In (final run_two_pages) (snapshots run_two_pages))
    by (vm_compute; do 5 right; left; reflexivity).
  split; [exact H0|]. split; [exact Hin|].
  eexists. split; [vm_compute; reflexivity|]. split; [reflexivity|].
  apply (@C3_completed_jobs_carry_output env_two_pages 1700000000000
           "0.4fzyo82mvyr" 1700000000000 type_full_process ["site.zip"]
           "/app/uploads/1700000000000_site.zip" [] H0 (final run_two_pages) Hin)
    with (k := "17000000000004fzyo82mv").
  vm_compute. reflexivity.
Defined.

Unset Implicit Arguments.

(** ** C4: the order of the statuses *)

Lemma last_position {A} (P : A -> Prop) (l : list A) (x : A) :
  Forall (fun y => ~ P y) l ->
  forall pre s post, l ++ [x] = pre ++ s :: post -> P s -> post = [].
Proof.
  induction 1 as [|y l Hy _ IH]; intros pre s post Heq Hs.
  - destruct pre as [|p pre]; simpl in Heq.
    + now injection Heq as _ <-.
    + injection Heq as _ Heq. now destruct pre.
  - destruct pre as [|p pre]; simpl in Heq.
    + injection Heq as <- _. contradiction.
    + injection Heq as _ Heq. eapply IH; eassumption.
Qed.

Lemma map_Some_app_inv {A} (l : list A) (pre post : list (option A)) (s : option A) :
  map Some l = pre ++ s :: post ->
  exists pre' s' post', l = pre' ++ s' :: post' /\ s = Some s' /\ post = map Some post'.
Proof.
  revert l. induction pre as [|p pre IH]; intros l Heq.
  - destruct l as [|a l]; [discriminate|]. injection Heq as <- <-.
    now exists [], a, l.
  - destruct l as [|a l]; [discriminate|]. injection Heq as _ Heq.
    destruct (IH l Heq) as (pre' & s' & post' & -> & -> & ->).
    now exists (a :: pre'), s', post'.
Qed.

(** C4, as stated, fails: [completed] and [failed] are not kept by later
    updates.  On the record that two uploads with the same id share, the
    run on [a.zip] ends [failed], and the updates of the run on [b.rar]
    then take the job back to [processing] and on to [completed]; in the
    other order of the two runs [completed] is followed by [processing] and
    [failed]. *)
Lemma C4_counterexample_terminal_status_left :
  statuses (fst colliding_uploads) (snapshots runs_zip_then_rar)
  = map Some [pending; processing; failed;
              processing; processing; processing; processing; completed] /\
  statuses (fst colliding_uploads) (snapshots runs_rar_then_zip)
  = map Some [pending; processing; processing; processing; processing; completed;
              processing; failed] /\
  exists pre s post,
    statuses (fst colliding_uploads) (snapshots runs_zip_then_rar)
    = pre ++ Some s :: post /\
    terminal s /\ post <> [] /\ In (Some processing) post /\ In (Some completed) post.
Proof.
  split; [vm_compute; reflexivity|]. split; [vm_compute; reflexivity|].
  exists (map Some [pending; processing]), failed,
         (map Some [processing; processing; processing; processing; completed]).
  split; [vm_compute; reflexivity|]. split; [right; reflexivity|].
  split; [discriminate|]. split; cbn; auto 8.
Qed.

(** C4, amended: over a creation and the one run that follows it the job is
    [pending], then [processing] for one or more updates, then [completed]
    or [failed], and that terminal status is the last one the run records;
    the statuses of the other jobs of the registry are not touched. *)
Theorem C4_status_order (env : Env) (now : Z) (random36 : string)
    (created : Z) (kind : JobType) (files : list string)
    (archivePath : string) (jobs : JsMap.t) :
  let jobId := new_id now random36 in
  let run := create_and_process env now random36 created kind files
               archivePath jobs in
  (exists n final_status,
     terminal final_status /\
     statuses jobId (snapshots run)
     = map Some (pending :: repeat processing (S n) ++ [final_status])) /\
  (forall pre s post,
     statuses jobId (snapshots run) = pre ++ Some s :: post ->
     terminal s -> post = []) /\
  (forall k, k <> jobId ->
     Forall (fun snap => option_map status (JsMap.get snap k)
                         = option_map status (JsMap.get jobs k))
            (snapshots run)).
Proof.
  intros jobId run.
  destruct (create_and_process_view env now random36 created kind files
              archivePath jobs) as (ups & r & Hpath & _ & Hh & _ & Hother).
  fold jobId in Hpath, Hh, Hother. fold run in Hh, Hother.
  assert (Hshape : exists n final_status,
             terminal final_status /\
             statuses jobId (snapshots run)
             = map Some (pending :: repeat processing (S n) ++ [final_status])).
  { unfold statuses. rewrite Hh, map_map.
    inversion Hpath; subst; cbn [scan_assign map option_map];
      [ exists 0%nat, failed | exists 1%nat, failed | exists 1%nat, failed
      | exists 2%nat, failed | exists 2%nat, failed | exists 3%nat, failed
      | exists 3%nat, completed ];
      (split; [unfold terminal; auto|reflexivity]). }
  split; [exact Hshape|]. split.
  - destruct Hshape as (n & fs & _ & ->). intros pre s post Heq Hs.
    change (pending :: repeat processing (S n) ++ [fs])
      with ((pending :: repeat processing (S n)) ++ [fs]) in Heq.
    destruct (map_Some_app_inv _ _ _ _ Heq) as (pre' & s' & post' & Heq' & [= <-] & ->).
    assert (Hnt : Forall (fun y => ~ terminal y) (pending :: repeat processing (S n))).
    2:{ now rewrite (last_position terminal _ fs Hnt pre' s post' Heq' Hs). }
    constructor; [intros [H|H]; discriminate|].
    apply Forall_forall. intros y Hy. apply repeat_spec in Hy. subst y.
    intros [H|H]; discriminate.
  - intros k Hk. destruct (Hother k Hk) as [HF _].
    eapply Forall_impl; [|exact HF]. cbv beta. now intros snap ->.
Qed.

Lemma C4_status_order_witness :
  exists post,
    statuses "17000000000004fzyo82mv" (snapshots run_two_pages)
    = map Some [pending; processing; processing; processing; processing]
      ++ Some completed :: post /\
    post = [].
Proof.
  exists []. split; [vm_compute; reflexivity|].
  refine (proj1 (proj2 (C4_status_order env_two_pages 1700000000000
                          "0.4fzyo82mvyr" 1700000000000 type_full_process
                          ["site.zip"] "/app/uploads/1700000000000_site.zip" []))
            (map Some [pending; processing; processing; processing; processing])
            completed [] _ (or_introl eq_refl)).
  vm_compute. reflexivity.
Defined.

(** ** C5: progress *)

(** C5: over a creation and its run the job's progress values are integers
    between 0 and 100, each update leaves a value at least as large as the
    one before, and the values are 0, 10, 30, 40, 70, 100 cut where the run
    fails (the failure update keeps the value reached). *)
Theorem C5_progress_monotone (env : Env) (now : Z) (random36 : string)
    (created : Z) (kind : JobType) (files : list string)
    (archivePath : string) (jobs : JsMap.t) :
  let jobId := new_id now random36 in
  let run := create_and_process env now random36 created kind files
               archivePath jobs in
  exists ps : list Z,
    progresses jobId (snapshots run) = map Some ps /\
    Forall (fun p => 0 <= p <= 100)%Z ps /\
    Sorted Z.le ps /\
    exists n, (2 <= n <= 6)%nat /\
      match result run with
      | Returned _ => n = 6%nat /\ ps = progress_marks
      | Thrown _ =>
          (n < 6)%nat /\
          ps = firstn n progress_marks ++ [last (firstn n progress_marks) 0%Z]
      end.
Proof.
  intros jobId run.
  destruct (create_and_process_view env now random36 created kind files
              archivePath jobs) as (ups & r & Hpath & Hr & Hh & _ & _).
  fold jobId in Hpath, Hh. fold run in Hh, Hr.
  unfold progresses. rewrite Hh, map_map, Hr. clear Hr Hh.
  inversion Hpath; subst; cbn [scan_assign map option_map];
    [ exists [0; 10; 10]%Z | exists [0; 10; 30; 30]%Z | exists [0; 10; 30; 30]%Z
    | exists [0; 10; 30; 40; 40]%Z | exists [0; 10; 30; 40; 40]%Z
    | exists [0; 10; 30; 40; 70; 70]%Z | exists [0; 10; 30; 40; 70; 100]%Z ];
    (split; [reflexivity|]);
    (split; [repeat constructor; lia|]);
    (split; [repeat constructor; lia|]).
  - exists 2%nat. repeat split; lia.
  - exists 3%nat. repeat split; lia.
  - exists 3%nat. repeat split; lia.
  - exists 4%nat. repeat split; lia.
  - exists 4%nat. repeat split; lia.
  - exists 5%nat. repeat split; lia.
  - exists 6%nat. repeat split; lia.
Qed.

Lemma C5_progress_monotone_witness :
  progresses "17000000000004fzyo82mv" (snapshots run_no_pages)
  = map Some [0; 10; 30; 30]%Z /\
  result run_no_pages = Thrown no_html_files /\
  Sorted Z.le [0; 10; 30; 30]%Z.
Proof.
  set (run := run_no_pages).
  destruct (C5_progress_monotone env_no_pages 1700000000000 "0.4fzyo82mvyr"
              1700000000000 type_full_process ["site.zip"]
              "/app/uploads/1700000000000_site.zip" [])
    as (ps & Hps & _ & Hsorted & _).
  assert (E : progresses "17000000000004fzyo82mv" (snapshots run)
              = map Some [0; 10; 30; 30]%Z) by (vm_compute; reflexivity).
  split; [exact E|]. split; [vm_compute; reflexivity|].
  change (progresses (new_id 1700000000000 "0.4fzyo82mvyr") (snapshots run) = map Some ps) in Hps.
  change (new_id 1700000000000 "0.4fzyo82mvyr") with "17000000000004fzyo82mv" in Hps.
  rewrite E in Hps.
  assert (Heq : ps = [0; 10; 30; 30]%Z).
  { clear -Hps. revert Hps. generalize [0; 10; 30; 30]%Z. intros l. revert ps.
    induction l as [|a l IH]; intros [|p ps] H; try discriminate; [reflexivity|].
    injection H as <- H. f_equal. now apply IH. }
  rewrite <- Heq. exact Hsorted.
Defined.

(** ** C6: the stage flags *)

(** C6, as stated, fails: a job created with kind [convert] and run through
    [processArchive] carries a [steps] record. *)
Lemma C6_counterexample_steps_on_convert_job :
  exists j,
    JsMap.get (final run_convert_job) "17000000000004fzyo82mv" = Some j /\
    type j = type_convert /\
    steps j = Some (mkSteps true true true) /\
    ~ (steps j <> None <-> type j = type_full_process).
Proof.
  eexists. split; [vm_compute; reflexivity|].
  cbn. repeat split. intros [H _]. discriminate H. discriminate.
Qed.

Lemma kept_flips_once (l : list bool) :
  Sorted (fun a b => a = true -> b = true) l -> flips_once l.
Proof.
  induction 1 as [|b l Hs IH Hhd]; [now exists 0%nat, 0%nat|].
  destruct IH as (n & m & ->). destruct b.
  - exists 0%nat, (S (n + m)). cbn [repeat app]. f_equal.
    destruct n as [|n]; [reflexivity|].
    inversion Hhd as [|? ? Hb]; subst. discriminate (Hb eq_refl).
  - now exists (S n), m.
Qed.

Lemma steps_kept_flag (f : Steps -> bool) (l : list (option Steps)) :
  In f [extract; convert; merge] ->
  Sorted steps_kept l -> Sorted (fun a b => a = true -> b = true) (map (flag f) l).
Proof.
  intros Hf. induction 1 as [|o l Hs IH Hhd]; [constructor|].
  cbn [map]. constructor; [exact IH|].
  destruct Hhd as [|o' l' Hk]; constructor. now apply Hk.
Qed.

(** C6, amended: at creation [steps] is present exactly when the kind is
    [full-process], and on a full-process job it stays present; whatever
    the kind, at every point of the run merge implies convert implies
    extract, and from one update to the next no flag goes back from true to
    false (an absent record counting as no flag set), so that each flag
    flips at most once. *)
Theorem C6_steps_flags (env : Env) (now : Z) (random36 : string)
    (created : Z) (kind : JobType) (files : list string)
    (archivePath : string) (jobs : JsMap.t) :
  let jobId := new_id now random36 in
  let run := create_and_process env now random36 created kind files
               archivePath jobs in
  exists (s0 : option Steps) (ss : list (option Steps)),
    steps_history jobId (snapshots run) = map Some (s0 :: ss) /\
    (s0 <> None <-> kind = type_full_process) /\
    (kind = type_full_process ->
       s0 = Some (mkSteps false false false) /\ Forall (fun o => o <> None) ss) /\
    Forall (fun o => forall s, o = Some s -> steps_ordered s) (s0 :: ss) /\
    Sorted steps_kept (s0 :: ss) /\
    (forall f, In f [extract; convert; merge] ->
               flips_once (map (flag f) (s0 :: ss))).
Proof.
  intros jobId run.
  destruct (create_and_process_view env now random36 created kind files
              archivePath jobs) as (ups & r & Hpath & _ & Hh & _ & _).
  fold jobId in Hpath, Hh. fold run in Hh.
  exists (steps (new_record jobId created kind files)),
         (map steps (scan_assign (new_record jobId created kind files) ups)).
  split.
  { unfold steps_history. rewrite Hh. cbn [map option_map]. f_equal.
    now rewrite !map_map. }
  clear Hh.
  assert (Hkept : forall a b,
             (flag extract a = true -> flag extract b = true) ->
             (flag convert a = true -> flag convert b = true) ->
             (flag merge a = true -> flag merge b = true) ->
             steps_kept a b).
  { intros a b He Hc Hm f [<-|[<-|[<-|[]]]]; assumption. }
  assert (Hsorted : Sorted steps_kept
            (steps (new_record jobId created kind files)
             :: map steps (scan_assign (new_record jobId created kind files) ups))).
  { inversion Hpath; subst; destruct kind; cbn;
      repeat (apply Sorted_cons || apply Sorted_nil
              || apply HdRel_cons || apply HdRel_nil);
      apply Hkept; cbn; congruence. }
  split; [|split; [|split; [|split; [exact Hsorted|]]]].
  4:{ intros f Hf. now apply kept_flips_once, steps_kept_flag. }
  - destruct kind; cbn; split; congruence.
  - intros ->. split; [reflexivity|].
    inversion Hpath; subst; cbn;
      repeat (apply Forall_cons || apply Forall_nil); discriminate.
  - inversion Hpath; subst; destruct kind; cbn;
      repeat (apply Forall_cons || apply Forall_nil);
      try discriminate; intros s [= <-]; split; cbn; congruence.
Qed.

Lemma C6_steps_flags_witness :
  steps_history "17000000000004fzyo82mv" (snapshots run_two_pages)
  = map Some [Some (mkSteps false false false); Some (mkSteps false false false);
              Some (mkSteps true false false); Some (mkSteps true false false);
              Some (mkSteps true true false); Some (mkSteps true true true)] /\
  exists s0 ss,
    steps_history "17000000000004fzyo82mv" (snapshots run_two_pages)
    = map Some (s0 :: ss) /\
    Sorted steps_kept (s0 :: ss).
Proof.
  split; [vm_compute; reflexivity|].
  destruct (C6_steps_flags env_two_pages 1700000000000 "0.4fzyo82mvyr"
              1700000000000 type_full_process ["site.zip"]
              "/app/uploads/1700000000000_site.zip" [])
    as (s0 & ss & Hh & _ & _ & _ & Hs & _).
  exists s0, ss. split; [exact Hh|exact Hs].
Defined.

(** ** C7: the listing *)

Section ArraySortFacts.
Variable A : Type.
Variable compareFn : A -> A -> Z.

Lemma sort_insert_perm (x : A) (l : list A) :
  Permutation (sort_insert compareFn x l) (x :: l).
Proof.
  induction l as [|y l IH]; simpl; [reflexivity|].
  destruct (compareFn x y <=? 0)%Z; [reflexivity|].
  rewrite IH. apply perm_swap.
Qed.

Lemma array_sort_perm (l : list A) : Permutation (array_sort compareFn l) l.
Proof.
  induction l as [|x l IH]; simpl; [reflexivity|].
  rewrite sort_insert_perm. now constructor.
Qed.

  (** An order the comparison function decides. *)
Variable le : A -> A -> Prop.
Hypothesis compare_le : forall x y, (compareFn x y <= 0)%Z -> le x y.
Hypothesis compare_gt : forall x y, (0 < compareFn x y)%Z -> le y x.

Lemma sort_insert_sorted (x : A) (l : list A) :
  Sorted le l -> Sorted le (sort_insert compareFn x l).
Proof.
  induction 1 as [|y l Hl IH Hhd]; simpl; [repeat constructor|].
  destruct (compareFn x y <=? 0)%Z eqn:E.
  - apply Z.leb_le in E. repeat constructor; auto.
  - apply Z.leb_gt in E. constructor; [exact IH|].
    destruct l as [|z l]; simpl.
    + constructor. now apply compare_gt.
    + destruct (compareFn x z <=? 0)%Z; constructor.
      * now apply compare_gt.
      * now inversion Hhd.
Qed.

Lemma array_sort_sorted (l : list A) : Sorted le (array_sort compareFn l).
Proof.
  induction l as [|x l IH]; simpl; [constructor|now apply sort_insert_sorted].
Qed.

  (** Stability: elements the comparison function ties keep their order. *)
Variable same : A -> bool.
Hypothesis same_tie :
    forall x y, same x = true -> same y = true -> (compareFn x y <= 0)%Z.

Lemma sort_insert_filter (x : A) (l : list A) :
  filter same (sort_insert compareFn x l) = filter same (x :: l).
Proof.
  induction l as [|y l IH]; [reflexivity|]. simpl sort_insert.
  destruct (compareFn x y <=? 0)%Z eqn:E; [reflexivity|].
  apply Z.leb_gt in E. simpl in *. rewrite IH.
  destruct (same x) eqn:Hx, (same y) eqn:Hy; try reflexivity.
  specialize (same_tie x y Hx Hy). lia.
Qed.

Lemma array_sort_filter (l : list A) :
  filter same (array_sort compareFn l) = filter same l.
Proof.
  induction l as [|x l IH]; [reflexivity|]. simpl array_sort.
  rewrite sort_insert_filter. simpl. now rewrite IH.
Qed.

End ArraySortFacts.

(** C7: [getAllJobs] returns the records of the registry, all of them and
    each as often as the registry holds it, most recent [createdAt] first;
    records created at the same time come in the order in which the
    registry holds them. *)
Theorem C7_getAllJobs_recent_first (jobs : JsMap.t) :
  Permutation (getAllJobs jobs) (JsMap.values jobs) /\
  StronglySorted (fun a b => createdAt a >= createdAt b)%Z (getAllJobs jobs) /\
  (forall t, filter (fun j => createdAt j =? t)%Z (getAllJobs jobs)
             = filter (fun j => createdAt j =? t)%Z (JsMap.values jobs)).
Proof.
  unfold getAllJobs. split; [apply array_sort_perm|]. split.
  - apply Sorted_StronglySorted.
    + intros a b c Hab Hbc. lia.
    + apply array_sort_sorted; intros x y H; lia.
  - intros t. apply array_sort_filter. intros x y Hx Hy.
    apply Z.eqb_eq in Hx, Hy. lia.
Qed.

Lemma C7_getAllJobs_recent_first_witness :
  map (fun j => (createdAt j, inputFiles j)) (getAllJobs three_jobs)
  = [(1700000000009, ["b.zip"]); (1700000000005, ["a.zip"]);
     (1700000000005, ["c.zip"])]%Z /\
  StronglySorted (fun a b => createdAt a >= createdAt b)%Z (getAllJobs three_jobs).
Proof.
  split; [vm_compute; reflexivity|].
  exact (proj1 (proj2 (C7_getAllJobs_recent_first three_jobs))).
Defined.

(** ** C8: the ids of [createJob] *)

(** C8, as stated, fails: two creations in the same millisecond whose random
    draws agree on their first nine base-36 digits return the same id, and
    the second record takes the place of the first. *)
Lemma C8_counterexample_same_id_twice :
  fst first_creation = "17000000000004fzyo82mv" /\
  fst second_creation = fst first_creation /\
  In (fst second_creation) (JsMap.keys (snd first_creation)) /\
  List.length (snd second_creation) = 1%nat /\
  option_map inputFiles (getJob (snd second_creation) (fst first_creation))
  = Some ["b.zip"].
Proof. vm_compute. repeat split; auto. Qed.

Lemma append_same_length (a1 a2 b1 b2 : string) :
  String.length a1 = String.length a2 ->
  (a1 ++ b1)%string = (a2 ++ b2)%string -> a1 = a2 /\ b1 = b2.
Proof.
  revert a2. induction a1 as [|c a1 IH]; intros [|c2 a2] Hlen Heq;
    simpl in *; try discriminate.
  - now split.
  - injection Hlen as Hlen. injection Heq as -> Heq.
    destruct (IH a2 Hlen Heq) as [-> ->]. now split.
Qed.

Lemma toString_inj (n m : Z) : toString n = toString m -> n = m.
Proof.
  unfold toString. intros H.
  apply DecimalZ.to_int_inj.
  pose proof (DecimalString.NilEmpty.isi (Z.to_int n)) as Hn.
  pose proof (DecimalString.NilEmpty.isi (Z.to_int m)) as Hm.
  rewrite H in Hn. rewrite Hn in Hm. now injection Hm.
Qed.

Lemma new_id_inj (now1 now2 : Z) (r1 r2 : string) :
  String.length (toString now1) = String.length (toString now2) ->
  new_id now1 r1 = new_id now2 r2 ->
  now1 = now2 /\ substring 2 9 r1 = substring 2 9 r2.
Proof.
  intros Hlen Heq. unfold new_id in Heq.
  destruct (append_same_length _ _ _ _ Hlen Heq) as [Ht Hr].
  split; [now apply toString_inj|exact Hr].
Qed.

(** C8, amended: the id is the decimal [Date.now()] followed by up to nine
    base-36 digits of the random draw, and nothing is checked against the
    registry.  The ids of any number of creations whose timestamps have the
    same number of digits are pairwise distinct as long as no two creations
    agree on both the timestamp and the nine random digits; two creations
    with distinct ids both stay in the registry. *)
Theorem C8_ids_distinct_for_distinct_draws (draws : list (Z * string)) :
  (forall d d', In d draws -> In d' draws ->
     String.length (toString (fst d)) = String.length (toString (fst d'))) ->
  NoDup (map (fun d => (fst d, substring 2 9 (snd d))) draws) ->
  NoDup (map (fun d => new_id (fst d) (snd d)) draws) /\
  (forall d d' c c' ty ty' files files' jobs,
     In d draws -> In d' draws ->
     (fst d, substring 2 9 (snd d)) <> (fst d', substring 2 9 (snd d')) ->
     let first := createJob (fst d) (snd d) c ty files jobs in
     let second := createJob (fst d') (snd d') c' ty' files' (snd first) in
     fst first <> fst second /\
     getJob (snd second) (fst first) = Some (new_record (fst first) c ty files) /\
     getJob (snd second) (fst second) = Some (new_record (fst second) c' ty' files')).
Proof.
  intros Hlen Hnd. split.
  - induction draws as [|d draws IH]; [constructor|].
    cbn [map] in *. inversion Hnd as [|? ? Hnotin Hnd']; subst. constructor.
    + intros Hin. apply Hnotin. apply in_map_iff in Hin.
      destruct Hin as (d' & Heq & Hd'). apply in_map_iff. exists d'. split; [|exact Hd'].
      destruct (new_id_inj _ _ _ _ (Hlen d' d (or_intror Hd') (or_introl eq_refl)) Heq)
        as [-> ->]. reflexivity.
    + apply IH; [|exact Hnd']. intros a b Ha Hb. apply Hlen; now right.
  - intros d d' c c' ty ty' files files' jobs Hd Hd' Hne first second.
    assert (Hids : fst first <> fst second).
    { cbn. intros Heq. apply Hne.
      destruct (new_id_inj _ _ _ _ (Hlen d d' Hd Hd') Heq) as [-> ->]. reflexivity. }
    split; [exact Hids|]. unfold getJob. cbn. split.
    + rewrite get_set_ne by exact Hids. apply get_set_eq.
    + apply get_set_eq.
Qed.

Lemma C8_ids_distinct_for_distinct_draws_witness :
  (forall d d', In d sample_draws -> In d' sample_draws ->
     String.length (toString (fst d)) = String.length (toString (fst d'))) /\
  NoDup (map (fun d => (fst d, substring 2 9 (snd d))) sample_draws) /\
  NoDup (map (fun d => new_id (fst d) (snd d)) sample_draws).
Proof.
  set (draws := sample_draws).
  assert (Hlen : forall d d', In d draws -> In d' draws ->
            String.length (toString (fst d)) = String.length (toString (fst d'))).
  { intros d d' [<-|[<-|[<-|[]]]] [<-|[<-|[<-|[]]]]; reflexivity. }
  assert (Hnd : NoDup (map (fun d => (fst d, substring 2 9 (snd d))) draws)).
  { cbn. repeat constructor; cbn; intros H;
      repeat (destruct H as [H|H]; [discriminate H|]); exact H. }
  split; [exact Hlen|]. split; [exact Hnd|].
  exact (proj1 (C8_ids_distinct_for_distinct_draws draws Hlen Hnd)).
Defined.

(** ** C9: document discovery *)

Lemma lower_dot (c : ascii) : Str.lower c = "."%char -> c = "."%char.
Proof.
  destruct c as [[] [] [] [] [] [] [] []]; vm_compute; intros H;
    first [reflexivity | discriminate H].
Qed.

Lemma to_lower_app (a b : string) :
  Str.to_lower (a ++ b) = (Str.to_lower a ++ Str.to_lower b)%string.
Proof. induction a as [|c a IH]; simpl; [reflexivity|now rewrite IH]. Qed.

Lemma to_lower_app_inv (s a b : string) :
  Str.to_lower s = (a ++ b)%string ->
  exists a' b', s = (a' ++ b')%string /\ Str.to_lower a' = a /\ Str.to_lower b' = b.
Proof.
  revert s. induction a as [|c a IH]; intros s H.
  - exists "", s. now repeat split.
  - destruct s as [|c' s]; [discriminate|]. simpl in H. injection H as Hc H.
    destruct (IH s H) as (a' & b' & -> & <- & <-).
    exists (String c' a'), b'. simpl. rewrite Hc. now repeat split.
Qed.

Lemma ends_with_iff (suf s : string) :
  Str.ends_with suf s = true <-> exists pre, s = (pre ++ suf)%string.
Proof.
  induction s as [|c s IH].
  - cbn [Str.ends_with]. rewrite orb_false_r, String.eqb_eq. split.
    + intros <-. now exists "".
    + intros [[|c pre] H]; [exact H|discriminate].
  - cbn [Str.ends_with]. rewrite orb_true_iff, String.eqb_eq, IH. split.
    + intros [<-|[pre ->]]; [now exists ""|now exists (String c pre)].
    + intros [[|c' pre] H]; [now left|].
      right. injection H as -> ->. now exists pre.
Qed.

Lemma dot_suffix_inv (b ext : string) :
  Str.to_lower b = ("." ++ ext)%string ->
  exists e, b = ("." ++ e)%string /\ Str.to_lower e = ext.
Proof.
  destruct b as [|c e]; [discriminate|]. simpl. intros [= Hc He].
  apply lower_dot in Hc. subst c. now exists e.
Qed.

(** The regular expression accepts exactly the names with an [html] or
    [htm] extension, whatever the case. *)
Lemma is_html_name_spec (name : string) :
  is_html_name name = true <-> has_html_extension name.
Proof.
  unfold is_html_name, has_html_extension.
  rewrite orb_true_iff, !ends_with_iff. split.
  - intros [[pre H]|[pre H]];
      destruct (to_lower_app_inv _ _ _ H) as (a' & b' & -> & _ & Hb);
      destruct (dot_suffix_inv _ _ Hb) as (e & -> & He);
      exists a', e; (split; [reflexivity|]); [now left|now right].
  - intros (stem & ext & -> & [He|He]); [left|right];
      exists (Str.to_lower stem); rewrite !to_lower_app, He; reflexivity.
Qed.

(** Induction on a tree of entries. *)
Lemma Dirent_induction (P : Dirent -> Prop) :
  (forall name, P (File name)) ->
  (forall name entries, Forall P entries -> P (Directory name entries)) ->
  (forall name, P (Other name)) ->
  forall entry, P entry.
Proof.
  intros HF HD HO. fix IH 1. intros [name|name entries|name].
  - apply HF.
  - apply HD. induction entries as [|e es IHes]; constructor; [apply IH|exact IHes].
  - apply HO.
Qed.

Lemma scanEntry_Directory (dir name : string) (entries : list Dirent)
    (files : list string) :
  scanEntry dir files (Directory name entries)
  = scanDirectory (Path.join dir name) entries files.
Proof. reflexivity. Qed.

Lemma scanDirectory_cons (dir : string) (e : Dirent) (es : list Dirent)
    (files : list string) :
  scanDirectory dir (e :: es) files = scanDirectory dir es (scanEntry dir files e).
Proof. reflexivity. Qed.

(** A scan appends what it finds to the files found before. *)
Lemma scanEntry_app (entry : Dirent) :
  forall dir files, scanEntry dir files entry = files ++ scanEntry dir [] entry.
Proof.
  induction entry as [name|name entries IH|name] using Dirent_induction;
    intros dir files.
  - simpl. destruct (is_html_name name); [reflexivity|now rewrite List.app_nil_r].
  - rewrite !scanEntry_Directory. generalize (Path.join dir name) as d. intros d.
    revert files. induction IH as [|e es He _ IHes]; intros files.
    + simpl. now rewrite List.app_nil_r.
    + rewrite !scanDirectory_cons, IHes, (IHes (scanEntry d [] e)), (He d files).
      now rewrite List.app_assoc.
  - simpl. now rewrite List.app_nil_r.
Qed.

Lemma scanDirectory_app (dir : string) (es : list Dirent) (files : list string) :
  scanDirectory dir es files = files ++ scanDirectory dir es [].
Proof.
  revert files. induction es as [|e es IH]; intros files.
  - simpl. now rewrite List.app_nil_r.
  - rewrite !scanDirectory_cons, IH, (IH (scanEntry dir [] e)), (scanEntry_app e dir files).
    now rewrite List.app_assoc.
Qed.

Lemma scanDirectory_step (dir : string) (e : Dirent) (es : list Dirent) :
  scanDirectory dir (e :: es) [] = scanEntry dir [] e ++ scanDirectory dir es [].
Proof. rewrite scanDirectory_cons. apply scanDirectory_app. Qed.

Lemma scanDirectory_count_from (dir : string) (es : list Dirent) :
  Forall (fun e => forall d, List.length (scanEntry d [] e) = count_html e) es ->
  List.length (scanDirectory dir es []) = count_html_all es.
Proof.
  induction 1 as [|e es He _ IH]; [reflexivity|].
  rewrite scanDirectory_step, length_app, He, IH. reflexivity.
Qed.

Lemma scanEntry_count (entry : Dirent) :
  forall dir, List.length (scanEntry dir [] entry) = count_html entry.
Proof.
  induction entry as [name|name entries IH|name] using Dirent_induction; intros dir.
  - simpl. now destruct (is_html_name name).
  - rewrite scanEntry_Directory. now apply scanDirectory_count_from.
  - reflexivity.
Qed.

Lemma scanDirectory_count (dir : string) (es : list Dirent) :
  List.length (scanDirectory dir es []) = count_html_all es.
Proof.
  apply scanDirectory_count_from, Forall_forall. intros e _. apply scanEntry_count.
Qed.

Lemma html_file_at_incl (dir : string) (es es' : list Dirent) (p : string) :
  incl es es' -> html_file_at dir es p -> html_file_at dir es' p.
Proof.
  intros Hincl H. destruct H as [dir es name Hin Hext|dir es name sub p Hin Hsub].
  - apply html_here; auto.
  - eapply html_below; eauto.
Qed.

Lemma html_file_at_cons (dir : string) (e : Dirent) (es : list Dirent) (p : string) :
  html_file_at dir (e :: es) p <-> html_file_at dir [e] p \/ html_file_at dir es p.
Proof.
  split.
  - intros H. inversion H as [d l name Hin Hext|d l name sub q Hin Hsub]; subst;
      destruct Hin as [->|Hin].
    + left. apply html_here; [now left|exact Hext].
    + right. now apply html_here.
    + left. eapply html_below; [now left|exact Hsub].
    + right. eapply html_below; eassumption.
  - intros [H|H]; eapply html_file_at_incl; try exact H.
    + intros x [->|[]]. now left.
    + intros x Hx. now right.
Qed.

Lemma html_file_at_nil (dir p : string) : ~ html_file_at dir [] p.
Proof. intros H. inversion H; subst; contradiction. Qed.

Lemma scanDirectory_in_from (dir : string) (es : list Dirent) (p : string) :
  Forall (fun e => forall d q, In q (scanEntry d [] e) <-> html_file_at d [e] q) es ->
  In p (scanDirectory dir es []) <-> html_file_at dir es p.
Proof.
  induction 1 as [|e es He _ IH].
  - split; [intros []|intros H; now apply html_file_at_nil in H].
  - rewrite scanDirectory_step, in_app_iff, html_file_at_cons, He, IH. reflexivity.
Qed.

Lemma scanEntry_in (entry : Dirent) :
  forall dir p, In p (scanEntry dir [] entry) <-> html_file_at dir [entry] p.
Proof.
  induction entry as [name|name entries IH|name] using Dirent_induction;
    intros dir p.
  - simpl. destruct (is_html_name name) eqn:E; split.
    + intros [<-|[]]. apply html_here; [now left|now apply is_html_name_spec].
    + intros H. inversion H as [d l n Hin Hext|d l n sub q Hin Hsub]; subst.
      * destruct Hin as [[= ->]|[]]. now left.
      * destruct Hin as [Hin|[]]; discriminate Hin.
    + intros [].
    + intros H. inversion H as [d l n Hin Hext|d l n sub q Hin Hsub]; subst.
      * destruct Hin as [[= ->]|[]]. apply is_html_name_spec in Hext. congruence.
      * destruct Hin as [Hin|[]]; discriminate Hin.
  - rewrite scanEntry_Directory, (scanDirectory_in_from _ _ _ IH). split.
    + intros H. eapply html_below; [now left|exact H].
    + intros H. inversion H as [d l n Hin Hext|d l n sub q Hin Hsub]; subst.
      * destruct Hin as [Hin|[]]; discriminate Hin.
      * destruct Hin as [[= -> ->]|[]]. exact Hsub.
  - simpl. split; [intros []|].
    intros H. inversion H as [d l n Hin Hext|d l n sub q Hin Hsub]; subst;
      destruct Hin as [Hin|[]]; discriminate Hin.
Qed.

Lemma scanDirectory_in (dir : string) (es : list Dirent) (p : string) :
  In p (scanDirectory dir es []) <-> html_file_at dir es p.
Proof.
  apply scanDirectory_in_from, Forall_forall. intros e _. apply scanEntry_in.
Qed.

Lemma compare_strings_le (a b : string) :
  (compare_strings a b <= 0)%Z -> String.leb a b = true.
Proof.
  unfold compare_strings, String.leb.
  destruct (String.compare a b); intros H; first [reflexivity | lia].
Qed.

Lemma compare_strings_gt (a b : string) :
  (0 < compare_strings a b)%Z -> String.leb b a = true.
Proof.
  unfold compare_strings, String.leb. rewrite (String.compare_antisym a b).
  destruct (String.compare b a); simpl; intros H; first [reflexivity | lia].
Qed.

Lemma leb_iff (a b : string) :
  String.leb a b = true <-> a = b \/ OrderedTypeEx.String_as_OT.lt a b.
Proof.
  unfold String.leb.
  pose proof (OrderedTypeEx.String_as_OT.cmp_eq a b) as Heq.
  pose proof (OrderedTypeEx.String_as_OT.cmp_lt a b) as Hlt.
  unfold OrderedTypeEx.String_as_OT.cmp in Heq, Hlt.
  destruct (String.compare a b); split; intros H;
    try reflexivity; try discriminate H.
  - left. now apply Heq.
  - right. now apply Hlt.
  - destruct H as [H|H]; [apply Heq in H|apply Hlt in H]; discriminate H.
Qed.

Lemma leb_trans (a b c : string) :
  String.leb a b = true -> String.leb b c = true -> String.leb a c = true.
Proof.
  rewrite !leb_iff. intros [->|Hab] [->|Hbc]; auto.
  right. eapply OrderedTypeEx.String_as_OT.lt_trans; eassumption.
Qed.

(** C9: when the scan reads the tree, [findHtmlFiles] returns the full paths
    of the regular files whose extension is [html] or [htm] up to case:
    as many paths as there are such files, a path exactly when it is such a
    file's, in lexicographic order; and when there is no such file, a run
    whose extraction succeeded throws, leaving the job [failed] with the
    message that no HTML files were found. *)
Theorem C9_discovery (env : Env) (dir : string) (entries : list Dirent) :
  readdir_tree env dir = Returned entries ->
  (exists paths,
     findHtmlFiles env dir = Returned paths /\
     List.length paths = count_html_all entries /\
     (forall p, In p paths <-> html_file_at dir entries p) /\
     StronglySorted (fun a b => String.leb a b = true) paths) /\
  (forall jobs jobId archivePath job,
     dir = extractDir_of env jobId ->
     JsMap.get jobs jobId = Some job ->
     extractArchive env archivePath dir = Returned tt ->
     count_html_all entries = 0%nat ->
     let run := processArchive env jobId archivePath jobs in
     result run = Thrown no_html_files /\
     exists job',
       JsMap.get (final run) jobId = Some job' /\
       status job' = failed /\
       error job' = Some "No HTML files found in the archive").
Proof.
  intros Hread.
  assert (Hfind : findHtmlFiles env dir
                  = Returned (array_sort compare_strings (scanDirectory dir entries [])))
    by (unfold findHtmlFiles; now rewrite Hread).
  pose proof (array_sort_perm _ compare_strings (scanDirectory dir entries [])) as Hperm.
  split.
  - eexists. split; [exact Hfind|]. split; [|split].
    + rewrite (Permutation_length Hperm). apply scanDirectory_count.
    + intros p. rewrite <- scanDirectory_in. split; apply Permutation_in;
        [exact Hperm|now apply Permutation_sym].
    + apply Sorted_StronglySorted; [intros a b c; apply leb_trans|].
      apply array_sort_sorted;
        [exact compare_strings_le|exact compare_strings_gt].
  - intros jobs jobId archivePath job -> Hget Hextract Hzero run. subst run.
    assert (Hnone : findHtmlFiles env (extractDir_of env jobId) = Returned []).
    { rewrite Hfind. f_equal.
      pose proof (scanDirectory_count (extractDir_of env jobId) entries) as Hlen.
      rewrite Hzero in Hlen. apply length_zero_iff_nil in Hlen. now rewrite Hlen. }
    destruct (processArchive_run env jobId archivePath jobs) as (ups & r & Hpath & ->).
    destruct (scan_updates_present ups jobs jobId Hget) as [_ Hfinal].
    unfold final, result; cbn [fst snd].
    inversion Hpath; subst; try congruence.
    split; [reflexivity|]. eexists. split; [exact Hfinal|]. split; reflexivity.
Qed.

Lemma C9_discovery_witness :
  readdir_tree env_two_pages
    (extractDir_of env_two_pages "17000000000004fzyo82mv")
  = Returned [Directory "site" [File "b.HTML"; Other "link.html"];
              File "a.htm"; File "notes.txt"] /\
  findHtmlFiles env_two_pages (extractDir_of env_two_pages "17000000000004fzyo82mv")
  = Returned ["/app/uploads/extracted_17000000000004fzyo82mv/a.htm";
              "/app/uploads/extracted_17000000000004fzyo82mv/site/b.HTML"] /\
  (exists paths,
     findHtmlFiles env_two_pages
       (extractDir_of env_two_pages "17000000000004fzyo82mv") = Returned paths /\
     List.length paths = 2%nat) /\
  count_html_all [Directory "img" [File "logo.png"]] = 0%nat /\
  result (processArchive env_no_pages (fst one_job)
            "/app/uploads/1700000000000_site.zip" (snd one_job))
  = Thrown no_html_files.
Proof.
  split; [reflexivity|]. split; [vm_compute; reflexivity|]. split; [|split].
  - destruct (proj1 (C9_discovery env_two_pages
                       (extractDir_of env_two_pages "17000000000004fzyo82mv")
                       _ eq_refl)) as (paths & Hfind & Hlen & _).
    exists paths. split; [exact Hfind|exact Hlen].
  - reflexivity.
  - refine (proj1 (proj2 (C9_discovery env_no_pages
                            (extractDir_of env_no_pages (fst one_job))
                            [Directory "img" [File "logo.png"]] eq_refl)
                     (snd one_job) (fst one_job)
                     "/app/uploads/1700000000000_site.zip" _ eq_refl eq_refl _ eq_refl)).
    vm_compute. reflexivity.
Defined.

(** ** C10: what a failure leaves untouched *)

(** C10, as stated, fails in its last part: a failed job can carry an
    output file, because the failure update leaves [outputFile] as it finds
    it and nothing clears it.  On the record that two uploads with the same
    id share, the run on [b.rar] completes and sets [outputFile]; the run on
    [a.zip] then throws and leaves the job [failed], at progress 10, with
    that output file and with all three stage flags still set. *)
Lemma C10_counterexample_failed_with_output :
  result runs_rar_then_zip = Thrown (ErrorObj "extract is not a function") /\
  exists j,
    getJob (final runs_rar_then_zip) (fst colliding_uploads) = Some j /\
    status j = failed /\
    error j = Some "extract is not a function" /\
    progress j = 10%Z /\
    outputFile j = Some "merged_17000000000004fzyo82mv.pdf" /\
    outputFile j <> None /\
    steps j = Some (mkSteps true true true).
Proof.
  split; [vm_compute; reflexivity|].
  eexists. split; [vm_compute; reflexivity|].
  cbn. repeat split. discriminate.
Qed.

(** C10, amended: when the one run that follows a job's creation throws,
    the last update changes the job's status to [failed] and its error to
    the message, and nothing else: progress stays at the value of the last
    stage update (10, 30, 40 or 70), and [outputFile], [steps],
    [inputFiles], the kind, [createdAt] and the id stay; [outputFile] is
    absent on the failed job, and on every record of that run that is
    [failed]; the other jobs are as before. *)
Theorem C10_failure_update_frame (env : Env) (now : Z) (random36 : string)
    (created : Z) (kind : JobType) (files : list string)
    (archivePath : string) (jobs : JsMap.t) :
  let jobId := new_id now random36 in
  let run := create_and_process env now random36 created kind files
               archivePath jobs in
  forall t, result run = Thrown t ->
  (exists pre before after,
     history jobId (snapshots run) = map Some (pre ++ [before; after]) /\
     JsMap.get (final run) jobId = Some after /\
     status after = failed /\
     error after = Some (error_text t) /\
     progress after = progress before /\
     In (progress after) [10; 30; 40; 70]%Z /\
     outputFile after = outputFile before /\
     outputFile after = None /\
     steps after = steps before /\
     inputFiles after = inputFiles before /\
     type after = type before /\
     createdAt after = createdAt before /\
     id after = id before) /\
  Forall (fun o => forall j, o = Some j -> status j = failed -> outputFile j = None)
         (history jobId (snapshots run)) /\
  (forall k, k <> jobId -> JsMap.get (final run) k = JsMap.get jobs k).
Proof.
  intros jobId run t Ht.
  destruct (create_and_process_view env now random36 created kind files
              archivePath jobs) as (ups & r & Hpath & Hr & Hh & Hfinal & Hother).
  fold jobId in Hpath, Hh, Hfinal, Hother. fold run in Hh, Hr, Hfinal, Hother.
  rewrite Ht in Hr. subst r. split; [|split].
  - rewrite Hh, Hfinal. clear Hh Hfinal Hother.
    set (job0 := new_record jobId created kind files).
    inversion Hpath; subst; cbn [scan_assign last].
    + exists [job0], (assign job0 to_processing). eexists.
      split; [reflexivity|]. cbn. repeat split; auto.
    + exists [job0; assign job0 to_processing],
        (assign (assign job0 to_processing) extracted). eexists.
      split; [reflexivity|]. cbn. repeat split; auto.
    + exists [job0; assign job0 to_processing],
        (assign (assign job0 to_processing) extracted). eexists.
      split; [reflexivity|]. cbn. repeat split; auto.
    + exists [job0; assign job0 to_processing;
              assign (assign job0 to_processing) extracted],
        (assign (assign (assign job0 to_processing) extracted) discovered). eexists.
      split; [reflexivity|]. cbn. repeat split; auto.
    + exists [job0; assign job0 to_processing;
              assign (assign job0 to_processing) extracted],
        (assign (assign (assign job0 to_processing) extracted) discovered). eexists.
      split; [reflexivity|]. cbn. repeat split; auto.
    + exists [job0; assign job0 to_processing;
              assign (assign job0 to_processing) extracted;
              assign (assign (assign job0 to_processing) extracted) discovered],
        (assign (assign (assign (assign job0 to_processing) extracted) discovered)
           converted). eexists.
      split; [reflexivity|]. cbn. repeat split; auto 6.
  - rewrite Hh. clear Hh Hfinal Hother.
    inversion Hpath; subst; cbn [scan_assign map];
      repeat (apply Forall_cons || apply Forall_nil);
      intros j [= <-]; cbn; intros H'; first [reflexivity | discriminate H'].
  - intros k Hk. apply (Hother k Hk).
Qed.

Lemma C10_failure_update_frame_witness :
  result run_no_pages = Thrown no_html_files /\
  Forall (fun o => forall j, o = Some j -> status j = failed -> outputFile j = None)
         (history "17000000000004fzyo82mv" (snapshots run_no_pages)) /\
  option_map (fun j => (status j, progress j, error j, outputFile j))
             (JsMap.get (final run_no_pages) "17000000000004fzyo82mv")
  = Some (failed, 30%Z, Some "No HTML files found in the archive", None).
Proof.
  set (run := run_no_pages).
  assert (Ht : result run = Thrown no_html_files) by (vm_compute; reflexivity).
  split; [exact Ht|]. split; [|vm_compute; reflexivity].
  exact (proj1 (proj2 (C10_failure_update_frame env_no_pages 1700000000000
                         "0.4fzyo82mvyr" 1700000000000 type_full_process
                         ["site.zip"] "/app/uploads/1700000000000_site.zip" []
                         no_html_files Ht))).
Defined.

(** * Further properties of the code *)

(** ** The registry: [createJob], [getJob], [updateJob], [getAllJobs] *)

Lemma get_None_keys (m : JsMap.t) (k : string) :
  JsMap.get m k = None <-> ~ In k (JsMap.keys m).
Proof.
  induction m as [|[k' v] m IH]; simpl.
  - split; [intros _ []|reflexivity].
  - destruct (String.eqb k' k) eqn:E.
    + apply String.eqb_eq in E. split; [discriminate|intros H; exfalso; apply H; now left].
    + apply String.eqb_neq in E. rewrite IH. split.
      * intros H [H'|H']; [contradiction|now apply H].
      * intros H H'. apply H. now right.
Qed.

Lemma keys_set (m : JsMap.t) (k : string) (v : ProcessingJob) :
  JsMap.keys (JsMap.set m k v)
  = match JsMap.get m k with
    | Some _ => JsMap.keys m
    | None => JsMap.keys m ++ [k]
    end.
Proof.
  induction m as [|[k' v'] m IH]; simpl; [reflexivity|].
  destruct (String.eqb k' k); simpl; [reflexivity|].
  rewrite IH. now destruct (JsMap.get m k).
Qed.

Lemma keys_updateJob_map (jobs : JsMap.t) (jobId : string) (updates : Partial) :
  JsMap.keys (updateJob_map jobs jobId updates) = JsMap.keys jobs.
Proof.
  unfold updateJob_map. destruct (JsMap.get jobs jobId) eqn:E; [|reflexivity].
  now rewrite keys_set, E.
Qed.

(** [updateJob] changes one record at most: the ids of the registry and
    their order stay, every other job's record stays, an id that is not in
    the registry leaves the registry as it is, and a record that is there
    takes the properties of the update and keeps its other fields. *)
Theorem updateJob_touches_one_record (jobs : JsMap.t) (jobId : string)
    (updates : Partial) :
  JsMap.keys (updateJob_map jobs jobId updates) = JsMap.keys jobs /\
  (forall k, k <> jobId ->
     getJob (updateJob_map jobs jobId updates) k = getJob jobs k) /\
  (getJob jobs jobId = None -> updateJob_map jobs jobId updates = jobs) /\
  (forall job, getJob jobs jobId = Some job ->
     getJob (updateJob_map jobs jobId updates) jobId = Some (assign job updates)).
Proof.
  unfold getJob. split; [apply keys_updateJob_map|]. split; [|split].
  - intros k Hk. now apply updateJob_map_other.
  - intros H. unfold updateJob_map. now rewrite H.
  - intros job H. rewrite (@updateJob_map_hit jobs jobId job updates H). apply get_set_eq.
Qed.

Lemma updateJob_touches_one_record_witness :
  getJob (snd one_job) "no-such-id" = None /\
  updateJob_map (snd one_job) "no-such-id" to_processing = snd one_job /\
  option_map status
    (getJob (updateJob_map (snd one_job) (fst one_job) to_processing) (fst one_job))
  = Some processing.
Proof.
  split; [reflexivity|]. split.
  - exact (proj1 (proj2 (proj2 (updateJob_touches_one_record
             (snd one_job) "no-such-id" to_processing))) eq_refl).
  - rewrite (proj2 (proj2 (proj2 (updateJob_touches_one_record
               (snd one_job) (fst one_job) to_processing))) _ eq_refl).
    reflexivity.
Defined.

(** [createJob] then [getJob]: the returned id looks up the new record,
    pending, at progress 0, without output file or error, with the three
    stage flags all false when the kind is full-process and without stage
    flags for the other kinds; every other id looks up what it did before;
    a new id goes to the end of the registry and an id that was there keeps
    its place, its record replaced. *)
Theorem createJob_then_getJob (now : Z) (random36 : string) (created : Z)
    (kind : JobType) (files : list string) (jobs : JsMap.t) :
  let jobId := fst (createJob now random36 created kind files jobs) in
  let jobs' := snd (createJob now random36 created kind files jobs) in
  (exists job,
     getJob jobs' jobId = Some job /\
     id job = jobId /\ type job = kind /\ status job = pending /\
     progress job = 0%Z /\ inputFiles job = files /\ outputFile job = None /\
     error job = None /\ createdAt job = created /\
     (kind = type_full_process -> steps job = Some (mkSteps false false false)) /\
     (kind <> type_full_process -> steps job = None)) /\
  (forall k, k <> jobId -> getJob jobs' k = getJob jobs k) /\
  (getJob jobs jobId = None -> JsMap.keys jobs' = JsMap.keys jobs ++ [jobId]) /\
  (getJob jobs jobId <> None -> JsMap.keys jobs' = JsMap.keys jobs).
Proof.
  cbn [createJob fst snd]. unfold getJob. split; [|split; [|split]].
  - eexists. split; [apply get_set_eq|]. cbn.
    repeat split; try reflexivity; destruct kind; cbn; congruence.
  - intros k Hk. now apply get_set_ne.
  - intros H. now rewrite keys_set, H.
  - intros H. rewrite keys_set. now destruct (JsMap.get jobs (new_id now random36)).
Qed.

Lemma createJob_then_getJob_witness :
  getJob (snd first_creation) (fst second_creation) <> None /\
  JsMap.keys (snd second_creation) = JsMap.keys (snd first_creation) /\
  getJob [] (fst first_creation) = None /\
  JsMap.keys (snd first_creation) = [fst first_creation] /\
  (exists job, getJob (snd first_creation) (fst first_creation) = Some job /\
               steps job = Some (mkSteps false false false)) /\
  type_convert <> type_full_process /\
  (exists job, getJob (snd (createJob 1700000000000 "0.4fzyo82mvyr" 1700000000000
                              type_convert ["a.zip"] []))
                      "17000000000004fzyo82mv" = Some job /\
               steps job = None).
Proof.
  assert (H1 : getJob (snd first_creation) (fst second_creation) <> None)
    by (vm_compute; discriminate).
  assert (H2 : type_convert <> type_full_process) by discriminate.
  split; [exact H1|]. split.
  { exact (proj2 (proj2 (proj2 (createJob_then_getJob 1700000000000 "0.4fzyo82mv3k"
             1700000000000 type_full_process ["b.zip"] (snd first_creation)))) H1). }
  split; [reflexivity|]. split.
  { exact (proj1 (proj2 (proj2 (createJob_then_getJob 1700000000000 "0.4fzyo82mvyr"
             1700000000000 type_full_process ["a.zip"] []))) eq_refl). }
  split.
  { destruct (proj1 (createJob_then_getJob 1700000000000 "0.4fzyo82mvyr"
                       1700000000000 type_full_process ["a.zip"] []))
      as (job & Hj & _ & _ & _ & _ & _ & _ & _ & _ & Hs & _).
    exists job. split; [exact Hj|exact (Hs eq_refl)]. }
  split; [exact H2|].
  destruct (proj1 (createJob_then_getJob 1700000000000 "0.4fzyo82mvyr"
                     1700000000000 type_convert ["a.zip"] []))
    as (job & Hj & _ & _ & _ & _ & _ & _ & _ & _ & _ & Hs).
  exists job. split; [exact Hj|exact (Hs H2)].
Defined.

Lemma set_keeps_unique (m : JsMap.t) (k : string) (v : ProcessingJob) :
  keys_unique m -> keys_unique (JsMap.set m k v).
Proof.
  unfold keys_unique. intros H. rewrite keys_set.
  destruct (JsMap.get m k) eqn:E; [exact H|].
  apply get_None_keys in E.
  apply NoDup_app; repeat split; auto.
  - constructor; [intros []|constructor].
  - intros x Hx [<-|[]]. contradiction.
Qed.

Lemma scan_updates_keys (ups : list Partial) :
  forall jobs jobId,
    Forall (fun snap => JsMap.keys snap = JsMap.keys jobs)
           (scan_updates jobs jobId ups) /\
    JsMap.keys (fold_updates jobs jobId ups) = JsMap.keys jobs.
Proof.
  induction ups as [|u ups IH]; intros jobs jobId; [split; [constructor|reflexivity]|].
  destruct (IH (updateJob_map jobs jobId u) jobId) as [Hs Hf].
  pose proof (keys_updateJob_map jobs jobId u) as Hk. split.
  - cbn [scan_updates]. constructor; [exact Hk|].
    eapply Forall_impl; [|exact Hs]. cbv beta. intros snap ->. exact Hk.
  - unfold fold_updates in *. cbn [fold_left]. now rewrite Hf.
Qed.

(** A run of [processArchive] adds no record, removes none and moves none:
    at every update and at the end the ids of the registry are those it
    started with, in the same order, and the record of every job other than
    its own is what it was.  For an id that is not in the registry the run
    leaves the registry as it is throughout. *)
Theorem processArchive_keeps_registry_shape (env : Env) (jobId archivePath : string)
    (jobs : JsMap.t) :
  let run := processArchive env jobId archivePath jobs in
  Forall (fun snap => JsMap.keys snap = JsMap.keys jobs /\
                      forall k, k <> jobId -> getJob snap k = getJob jobs k)
         (final run :: snapshots run) /\
  (getJob jobs jobId = None ->
   Forall (fun snap => snap = jobs) (final run :: snapshots run)).
Proof.
  intros run. subst run.
  destruct (processArchive_run env jobId archivePath jobs) as (ups & r & _ & ->).
  unfold final, snapshots; cbn [fst snd].
  destruct (scan_updates_keys ups jobs jobId) as [Hks Hkf]. split.
  - constructor.
    + split; [exact Hkf|]. intros k Hk.
      apply (proj2 (scan_updates_other ups jobs Hk)).
    + apply Forall_forall. intros snap Hin. split.
      * rewrite Forall_forall in Hks. now apply Hks.
      * intros k Hk. pose proof (proj1 (scan_updates_other ups jobs Hk)) as Ho.
        rewrite Forall_forall in Ho. now apply Ho.
  - intros Hnone. unfold getJob in Hnone. clear Hks Hkf.
    assert (G : forall ups, Forall (fun snap => snap = jobs) (scan_updates jobs jobId ups) /\
                            fold_updates jobs jobId ups = jobs).
    { intros l. induction l as [|u l IH]; [split; [constructor|reflexivity]|].
      assert (Hu : updateJob_map jobs jobId u = jobs)
        by (unfold updateJob_map; now rewrite Hnone).
      cbn [scan_updates]. unfold fold_updates. cbn [fold_left]. rewrite Hu.
      destruct IH as [IH1 IH2]. split; [now constructor|exact IH2]. }
    destruct (G ups) as [G1 G2]. constructor; assumption.
Qed.

Lemma processArchive_keeps_registry_shape_witness :
  getJob (snd one_job) "1700000000000zzzzzzzzz" = None /\
  final (processArchive env_two_pages "1700000000000zzzzzzzzz"
           "/app/uploads/1700000000000_site.zip" (snd one_job)) = snd one_job /\
  result (processArchive env_two_pages "1700000000000zzzzzzzzz"
            "/app/uploads/1700000000000_site.zip" (snd one_job)) = Returned tt.
Proof.
  split; [reflexivity|]. split; [|vm_compute; reflexivity].
  pose proof (proj2 (processArchive_keeps_registry_shape env_two_pages
                       "1700000000000zzzzzzzzz" "/app/uploads/1700000000000_site.zip"
                       (snd one_job)) eq_refl) as H.
  now inversion H.
Defined.

(** One record per id: a registry in which no id occurs twice stays so
    through [createJob] and through every update of the run that follows. *)
Theorem registry_ids_stay_unique (env : Env) (now : Z) (random36 : string)
    (created : Z) (kind : JobType) (files : list string)
    (archivePath : string) (jobs : JsMap.t) :
  keys_unique jobs ->
  let run := create_and_process env now random36 created kind files
               archivePath jobs in
  Forall keys_unique (final run :: snapshots run).
Proof.
  intros Hu run. subst run. unfold create_and_process, createJob.
  set (jobId := new_id now random36).
  set (jobs0 := JsMap.set jobs jobId (new_record jobId created kind files)).
  assert (H0 : keys_unique jobs0) by now apply set_keeps_unique.
  destruct (processArchive_run env jobId archivePath jobs0) as (ups & r & _ & ->).
  destruct (scan_updates_keys ups jobs0 jobId) as [Hlog Hf].
  unfold final, snapshots; cbn [fst snd].
  constructor; [unfold keys_unique; now rewrite Hf|].
  constructor; [exact H0|].
  eapply Forall_impl; [|exact Hlog]. cbv beta.
  intros snap Hk. unfold keys_unique. now rewrite Hk.
Qed.

Lemma registry_ids_stay_unique_witness :
  keys_unique (snd first_creation) /\
  keys_unique (final (create_and_process env_two_pages 1700000000000
                        "0.4fzyo82mv3k" 1700000000000 type_full_process
                        ["b.zip"] "/app/uploads/1700000000000_b.zip"
                        (snd first_creation))).
Proof.
  assert (H : keys_unique (snd first_creation)).
  { vm_compute. constructor; [intros []|constructor]. }
  split; [exact H|].
  pose proof (registry_ids_stay_unique env_two_pages 1700000000000
                "0.4fzyo82mv3k" 1700000000000 type_full_process ["b.zip"]
                "/app/uploads/1700000000000_b.zip" (snd first_creation) H) as G.
  now inversion G.
Defined.

Lemma get_Some_In (m : JsMap.t) (k : string) (v : ProcessingJob) :
  JsMap.get m k = Some v -> In (k, v) m.
Proof.
  induction m as [|[k' v'] m IH]; simpl; [discriminate|].
  destruct (String.eqb k' k) eqn:E.
  - apply String.eqb_eq in E. intros [= ->]. left. now subst.
  - intros H. right. now apply IH.
Qed.

Lemma In_get_Some (m : JsMap.t) (k : string) (v : ProcessingJob) :
  keys_unique m -> In (k, v) m -> JsMap.get m k = Some v.
Proof.
  unfold keys_unique. induction m as [|[k' v'] m IH]; simpl; [intros _ []|].
  intros Hnd [[= -> ->]|Hin].
  - now rewrite String.eqb_refl.
  - inversion Hnd as [|? ? Hnotin Hnd']; subst.
    destruct (String.eqb k' k) eqn:E; [|now apply IH].
    apply String.eqb_eq in E. subst k'. exfalso. apply Hnotin.
    change k with (fst (k, v)). now apply in_map.
Qed.

(** [getAllJobs] and [getJob] agree: in a registry with one record per id,
    the listing holds a record exactly when some id looks it up, and it has
    as many entries as the registry has ids. *)
Theorem getAllJobs_lists_what_getJob_finds (jobs : JsMap.t) :
  keys_unique jobs ->
  (forall job, In job (getAllJobs jobs) <-> exists k, getJob jobs k = Some job) /\
  List.length (getAllJobs jobs) = List.length (JsMap.keys jobs).
Proof.
  intros Hu. pose proof (array_sort_perm _ (fun a b => (createdAt b - createdAt a)%Z)
                           (JsMap.values jobs)) as Hperm.
  fold (getAllJobs jobs) in Hperm. split.
  - intros job. unfold getJob. split.
    + intros Hin. apply (Permutation_in _ Hperm) in Hin.
      unfold JsMap.values in Hin. apply in_map_iff in Hin.
      destruct Hin as ([k v] & Hv & Hin). cbn in Hv. subst v.
      exists k. now apply In_get_Some.
    + intros [k Hk]. apply (Permutation_in _ (Permutation_sym Hperm)).
      apply get_Some_In in Hk. unfold JsMap.values.
      change job with (snd (k, job)). now apply in_map.
  - rewrite (Permutation_length Hperm). unfold JsMap.values, JsMap.keys.
    now rewrite !length_map.
Qed.

Lemma getAllJobs_lists_what_getJob_finds_witness :
  keys_unique three_jobs /\
  List.length (getAllJobs three_jobs) = 3%nat /\
  forall job, In job (getAllJobs three_jobs) <-> exists k, getJob three_jobs k = Some job.
Proof.
  assert (H : keys_unique three_jobs).
  { vm_compute. repeat constructor; cbn; intros G;
      repeat (destruct G as [G|G]; [discriminate G|]); exact G. }
  split; [exact H|].
  destruct (getAllJobs_lists_what_getJob_finds three_jobs H) as [Hin Hlen].
  split; [rewrite Hlen; reflexivity|exact Hin].
Defined.

(** ** The pipeline: [processArchive] and its adapters *)

(** Cleanup is best effort: whatever [fs.rm] does, returning or throwing,
    for either directory, a run issues the same updates, leaves the same
    registry and returns or throws the same. *)
Theorem cleanup_failures_never_show (env : Env) (rm' : string -> outcome unit)
    (jobId archivePath : string) (jobs : JsMap.t) :
  processArchive (with_rm env rm') jobId archivePath jobs
  = processArchive env jobId archivePath jobs.
Proof.
  destruct env. unfold with_rm. cbn [cwd extname mkdir extract_zip which_unrar
    unrar readdir_tree spawn_throws python existsSync readFile].
  unfold processArchive. rewrite !cleanup_returns. reflexivity.
Qed.

(** A job is [completed] exactly when every stage succeeded: the archive was
    extracted, the scan found at least one page, the PDF directory was made
    and both Python scripts exited with code 0; and then the run returns.
    Otherwise the job ends [failed]: the run throws, and the job carries
    the message of what was thrown.  A run ends in no other way. *)
Theorem completed_iff_every_stage_succeeded (env : Env) (jobs : JsMap.t)
    (jobId archivePath : string) (job : ProcessingJob) :
  getJob jobs jobId = Some job ->
  let run := processArchive env jobId archivePath jobs in
  let all_stages :=
    extractArchive env archivePath (extractDir_of env jobId) = Returned tt /\
    (exists file files,
       findHtmlFiles env (extractDir_of env jobId) = Returned (file :: files)) /\
    mkdir env (pdfDir_of env jobId) = Returned tt /\
    convertHtmlToPdf env (extractDir_of env jobId) (pdfDir_of env jobId) = Returned tt /\
    mergePdfs env (pdfDir_of env jobId) (mergedPdfPath_of env jobId) = Returned tt in
  (option_map status (getJob (final run) jobId) = Some completed <-> all_stages) /\
  (result run = Returned tt <-> all_stages) /\
  (option_map status (getJob (final run) jobId) = Some failed <-> ~ all_stages) /\
  (option_map status (getJob (final run) jobId) = Some failed <->
   exists t, result run = Thrown t) /\
  (forall t, result run = Thrown t ->
     option_map error (getJob (final run) jobId) = Some (Some (error_text t))) /\
  (option_map status (getJob (final run) jobId) = Some completed \/
   option_map status (getJob (final run) jobId) = Some failed).
Proof.
  intros Hget run all_stages. subst run all_stages. unfold getJob in *.
  destruct (processArchive_run env jobId archivePath jobs) as (ups & r & Hpath & ->).
  destruct (scan_updates_present ups jobs jobId Hget) as [_ Hfinal].
  unfold final, result; cbn [fst snd]. rewrite Hfinal. clear Hfinal.
  inversion Hpath; subst; cbn;
    (split; [|split; [|split; [|split; [|split]]]]);
    try solve [right; reflexivity | left; reflexivity
              | intros t0 [= <-]; reflexivity | intros t0 [=]];
    split;
    solve [ discriminate
          | intros (He & (f & fs & Hf) & Hm & Hc & Hg); congruence
          | intros _ (He & (f & fs & Hf) & Hm & Hc & Hg); congruence
          | intros [t0 [=]]
          | intros _; eexists; reflexivity
          | intros Hn; exfalso; apply Hn; repeat split; eauto
          | intros _; repeat split; eauto ].
Qed.

Lemma completed_iff_every_stage_succeeded_witness :
  (exists job, getJob (snd one_job) (fst one_job) = Some job) /\
  option_map status
    (getJob (final (processArchive env_served (fst one_job)
                      "/app/uploads/1700000000000_site.zip" (snd one_job)))
            (fst one_job)) = Some completed /\
  mergePdfs env_served (pdfDir_of env_served (fst one_job))
            (mergedPdfPath_of env_served (fst one_job)) = Returned tt /\
  result (processArchive env_bad_zip (fst one_job)
            "/app/uploads/1700000000000_site.zip" (snd one_job))
  = Thrown (ErrorObj "end of central directory record signature not found") /\
  option_map status
    (getJob (final (processArchive env_bad_zip (fst one_job)
                      "/app/uploads/1700000000000_site.zip" (snd one_job)))
            (fst one_job)) = Some failed.
Proof.
  split; [eexists; reflexivity|].
  assert (Ht : result (processArchive env_bad_zip (fst one_job)
            "/app/uploads/1700000000000_site.zip" (snd one_job))
          = Thrown (ErrorObj "end of central directory record signature not found"))
    by (vm_compute; reflexivity).
  cut (option_map status
    (getJob (final (processArchive env_bad_zip (fst one_job)
                      "/app/uploads/1700000000000_site.zip" (snd one_job)))
            (fst one_job)) = Some failed).
  2:{ apply (proj2 (proj1 (proj2 (proj2 (proj2
               (completed_iff_every_stage_succeeded env_bad_zip (snd one_job)
                  (fst one_job) "/app/uploads/1700000000000_site.zip" _ eq_refl)))))).
      eexists. exact Ht. }
  intros Hfailed.
  assert (H : option_map status
    (getJob (final (processArchive env_served (fst one_job)
                      "/app/uploads/1700000000000_site.zip" (snd one_job)))
            (fst one_job)) = Some completed) by (vm_compute; reflexivity).
  split; [exact H|]. split.
  { apply (proj1 (proj1 (completed_iff_every_stage_succeeded env_served (snd one_job)
                         (fst one_job) "/app/uploads/1700000000000_site.zip" _ eq_refl))
           H). }
  split; [exact Ht|exact Hfailed].
Defined.

(** The stage flags tell the truth: over a creation and its run, a record
    with [steps.extract] set is only reached after [extractArchive]
    returned, one with [steps.convert] set only after pages were found and
    [convertHtmlToPdf] returned, and one with [steps.merge] set only after
    [mergePdfs] returned, and that record is [completed]. *)
Theorem stage_flags_follow_the_stages (env : Env) (now : Z) (random36 : string)
    (created : Z) (kind : JobType) (files : list string)
    (archivePath : string) (jobs : JsMap.t) :
  let jobId := new_id now random36 in
  let run := create_and_process env now random36 created kind files
               archivePath jobs in
  Forall (fun o => forall job s, o = Some job -> steps job = Some s ->
            (extract s = true ->
               extractArchive env archivePath (extractDir_of env jobId) = Returned tt) /\
            (convert s = true ->
               (exists f fs, findHtmlFiles env (extractDir_of env jobId)
                             = Returned (f :: fs)) /\
               convertHtmlToPdf env (extractDir_of env jobId) (pdfDir_of env jobId)
               = Returned tt) /\
            (merge s = true ->
               mergePdfs env (pdfDir_of env jobId) (mergedPdfPath_of env jobId)
               = Returned tt /\ status job = completed))
         (history jobId (snapshots run)).
Proof.
  intros jobId run.
  destruct (create_and_process_view env now random36 created kind files
              archivePath jobs) as (ups & r & Hpath & _ & Hh & _ & _).
  fold jobId in Hpath, Hh. fold run in Hh. rewrite Hh. clear Hh.
  inversion Hpath; subst; destruct kind; cbn [scan_assign map];
    repeat (apply Forall_cons || apply Forall_nil);
    intros job s [= <-]; cbn; intros [= <-]; cbn;
    repeat split; try discriminate; eauto.
Qed.

Lemma stage_flags_follow_the_stages_witness :
  exists job s,
    In (Some job) (history "17000000000004fzyo82mv" (snapshots run_two_pages)) /\
    steps job = Some s /\ merge s = true /\
    mergePdfs env_two_pages (pdfDir_of env_two_pages "17000000000004fzyo82mv")
              (mergedPdfPath_of env_two_pages "17000000000004fzyo82mv")
    = Returned tt /\
    status job = completed.
Proof.
  assert (exists job,
            nth_error (history "17000000000004fzyo82mv" (snapshots run_two_pages)) 5
            = Some (Some job) /\
            steps job = Some (mkSteps true true true)) as (job & Hn & Hs)
    by (vm_compute; eexists; split; reflexivity).
  apply nth_error_In in Hn.
  pose proof (stage_flags_follow_the_stages env_two_pages 1700000000000
                "0.4fzyo82mvyr" 1700000000000 type_full_process ["site.zip"]
                "/app/uploads/1700000000000_site.zip" []) as H.
  cbv zeta in H. rewrite Forall_forall in H.
  destruct (H _ Hn job _ eq_refl Hs) as (_ & _ & Hm).
  exists job, (mkSteps true true true).
  split; [exact Hn|]. split; [exact Hs|]. split; [reflexivity|].
  exact (Hm eq_refl).
Defined.

(** A RAR archive on a host without [unrar]: once the extraction directory
    is made, [which unrar] not closing with code 0 makes the run throw the
    message that names the utility and how to install it; the job ends
    [failed] with that message at progress 10, its steps, output file and
    other fields as they were, and [unrar] itself is never consulted. *)
Theorem rar_without_unrar_fails_the_job (env : Env) (jobs : JsMap.t)
    (jobId archivePath : string) (job : ProcessingJob) (made : unit) :
  getJob jobs jobId = Some job ->
  Str.to_lower (extname env archivePath) = ".rar" ->
  mkdir env (extractDir_of env jobId) = Returned made ->
  which_unrar env <> Close (Some 0%Z) ->
  let run := processArchive env jobId archivePath jobs in
  result run = Thrown (ErrorObj rar_not_supported) /\
  getJob (final run) jobId
  = Some (assign (assign job to_processing) (to_failed (ErrorObj rar_not_supported))) /\
  (exists job',
     getJob (final run) jobId = Some job' /\
     status job' = failed /\ error job' = Some rar_not_supported /\
     progress job' = 10%Z /\ steps job' = steps job /\
     outputFile job' = outputFile job).
Proof.
  intros Hget Hext Hmk Hwhich run. subst run. unfold getJob in *.
  assert (Hx : extractArchive env archivePath (extractDir_of env jobId)
               = Thrown (ErrorObj rar_not_supported)).
  { unfold extractArchive. rewrite Hmk, Hext. cbn [String.eqb Ascii.eqb Bool.eqb].
    destruct (which_unrar env) as [[[| |]|]|]; try reflexivity. congruence. }
  destruct (processArchive_run env jobId archivePath jobs) as (ups & r & Hpath & ->).
  destruct (scan_updates_present ups jobs jobId Hget) as [_ Hfinal].
  unfold final, result; cbn [fst snd]. rewrite Hfinal. clear Hfinal.
  inversion Hpath; subst; try congruence.
  assert (t = ErrorObj rar_not_supported) by congruence. subst t.
  split; [reflexivity|]. split; [reflexivity|].
  eexists. split; [reflexivity|]. cbn. repeat split.
Qed.

Lemma rar_without_unrar_fails_the_job_witness :
  (exists job, getJob (snd one_job) (fst one_job) = Some job) /\
  Str.to_lower (extname env_rar_no_unrar "/app/uploads/1700000000000_site.RAR") = ".rar" /\
  mkdir env_rar_no_unrar (extractDir_of env_rar_no_unrar (fst one_job)) = Returned tt /\
  which_unrar env_rar_no_unrar <> Close (Some 0%Z) /\
  result (processArchive env_rar_no_unrar (fst one_job)
            "/app/uploads/1700000000000_site.RAR" (snd one_job))
  = Thrown (ErrorObj rar_not_supported).
Proof.
  assert (Hw : which_unrar env_rar_no_unrar <> Close (Some 0%Z)) by discriminate.
  split; [eexists; reflexivity|]. split; [reflexivity|]. split; [reflexivity|].
  split; [exact Hw|].
  exact (proj1 (rar_without_unrar_fails_the_job env_rar_no_unrar (snd one_job)
                  (fst one_job) "/app/uploads/1700000000000_site.RAR" _ tt
                  eq_refl eq_refl eq_refl Hw)).
Defined.

(** When [extractArchive] returns and when it refuses: it returns exactly
    when the directory was made and either the extension is [.zip] (any
    case) and [extract-zip] returned, or it is [.rar], [which unrar] closed
    with code 0 and [unrar] closed with code 0; with the directory made and
    any other extension it throws the unsupported-format error, whatever the
    extraction tools would do.  A failing [mkdir] is thrown as it is,
    whatever the extension; and with the directory made a [.zip] archive
    gives what [extract-zip] gives, its return or what it throws. *)
Theorem extractArchive_by_extension (env : Env) (archivePath extractDir : string) :
  let ext := Str.to_lower (extname env archivePath) in
  (extractArchive env archivePath extractDir = Returned tt <->
   (exists made, mkdir env extractDir = Returned made) /\
   ((ext = ".zip" /\ extract_zip env archivePath extractDir = Returned tt) \/
    (ext = ".rar" /\ which_unrar env = Close (Some 0%Z) /\
     unrar env archivePath extractDir = Close (Some 0%Z)))) /\
  ((exists made, mkdir env extractDir = Returned made) ->
   ext <> ".zip" -> ext <> ".rar" ->
   extractArchive env archivePath extractDir = Thrown (ErrorObj unsupported_format)) /\
  (forall t, mkdir env extractDir = Thrown t ->
             extractArchive env archivePath extractDir = Thrown t) /\
  ((exists made, mkdir env extractDir = Returned made) -> ext = ".zip" ->
   extractArchive env archivePath extractDir = extract_zip env archivePath extractDir).
Proof.
  intros ext. subst ext. unfold extractArchive. split; [|split; [|split]].
  - destruct (mkdir env extractDir) as [made|t].
    2:{ split; [discriminate|intros [[made H] _]; discriminate H]. }
    destruct (String.eqb_spec (Str.to_lower (extname env archivePath)) ".zip") as [Hz|Hz].
    { split.
      - intros H. split; [now exists made|left; now split].
      - intros [_ [[_ H]|[H _]]]; [exact H|]. rewrite Hz in H. discriminate H. }
    destruct (String.eqb_spec (Str.to_lower (extname env archivePath)) ".rar") as [Hr|Hr].
    2:{ split; [discriminate|]. intros [_ [[H _]|[H _]]]; contradiction. }
    split.
    + intros H. split; [now exists made|right].
      destruct (which_unrar env) as [[[| |]|]|]; cbn in H; try discriminate H.
      destruct (unrar env archivePath extractDir) as [[[| |]|]|];
        try discriminate H. now repeat split.
    + intros [_ [[H _]|(_ & Hw & Hu)]]; [contradiction|].
      now rewrite Hw, Hu.
  - intros [made ->] Hz Hr.
    apply String.eqb_neq in Hz, Hr. now rewrite Hz, Hr.
  - now intros t ->.
  - intros [made ->] Hz. apply String.eqb_eq in Hz. now rewrite Hz.
Qed.

Lemma extractArchive_by_extension_witness :
  (exists made, mkdir env_7z "/app/uploads/extracted_1" = Returned made) /\
  Str.to_lower (extname env_7z "/app/uploads/1_site.7z") <> ".zip" /\
  Str.to_lower (extname env_7z "/app/uploads/1_site.7z") <> ".rar" /\
  extractArchive env_7z "/app/uploads/1_site.7z" "/app/uploads/extracted_1"
  = Thrown (ErrorObj unsupported_format) /\
  mkdir env_no_room "/app/uploads/extracted_1"
  = Thrown (ErrorObj "ENOSPC: no space left on device, mkdir") /\
  extractArchive env_no_room "/app/uploads/1_site.zip" "/app/uploads/extracted_1"
  = Thrown (ErrorObj "ENOSPC: no space left on device, mkdir") /\
  (exists made, mkdir env_bad_zip "/app/uploads/extracted_1" = Returned made) /\
  Str.to_lower (extname env_bad_zip "/app/uploads/1_site.zip") = ".zip" /\
  extractArchive env_bad_zip "/app/uploads/1_site.zip" "/app/uploads/extracted_1"
  = Thrown (ErrorObj "end of central directory record signature not found").
Proof.
  assert (Hm : exists made, mkdir env_7z "/app/uploads/extracted_1" = Returned made)
    by now exists tt.
  assert (Hz : Str.to_lower (extname env_7z "/app/uploads/1_site.7z") <> ".zip")
    by discriminate.
  assert (Hr : Str.to_lower (extname env_7z "/app/uploads/1_site.7z") <> ".rar")
    by discriminate.
  assert (Hm' : exists made, mkdir env_bad_zip "/app/uploads/extracted_1" = Returned made)
    by now exists tt.
  split; [exact Hm|]. split; [exact Hz|]. split; [exact Hr|]. split.
  { exact (proj1 (proj2 (extractArchive_by_extension env_7z "/app/uploads/1_site.7z"
                           "/app/uploads/extracted_1")) Hm Hz Hr). }
  split; [reflexivity|]. split.
  { exact (proj1 (proj2 (proj2 (extractArchive_by_extension env_no_room
                                  "/app/uploads/1_site.zip"
                                  "/app/uploads/extracted_1"))) _ eq_refl). }
  split; [exact Hm'|]. split; [reflexivity|].
  rewrite (proj2 (proj2 (proj2 (extractArchive_by_extension env_bad_zip
                                  "/app/uploads/1_site.zip"
                                  "/app/uploads/extracted_1"))) Hm' eq_refl).
  reflexivity.
Defined.

(** No fallback after a launch that fails asynchronously: when the spawn of
    [python3] does not throw, both Python adapters rest on that process
    alone; if it emits ['error'] they throw that the script failed to start,
    and if it closes with anything but code 0 they throw the captured
    standard error, or standard output when that is empty, whatever the
    other candidate executables would have done. *)
Theorem python_adapters_use_first_spawn (env : Env) (a b : string) :
  spawn_throws env "python3" = false ->
  let outcome_of (run : PyRun) (failed_prefix : string) : outcome unit :=
    match ending run with
    | Close (Some 0%Z) => Returned tt
    | Close _ =>
        Thrown (ErrorObj (failed_prefix ++
                          (if String.eqb (stderr run) "" then stdout run
                           else stderr run))%string)
    | ProcError message =>
        Thrown (ErrorObj ("Failed to start Python script: " ++ message)%string)
    end in
  (exists args, convertHtmlToPdf env a b
                = outcome_of (python env "python3" args)
                             "HTML to PDF conversion failed: ") /\
  (exists args, mergePdfs env a b
                = outcome_of (python env "python3" args) "PDF merge failed: ").
Proof.
  intros H outcome_of. subst outcome_of.
  unfold convertHtmlToPdf, mergePdfs, python_promise, spawn_python, or_else.
  cbn [pythonExecutables find]. rewrite H. cbn [negb].
  split; eexists; reflexivity.
Qed.

Lemma python_adapters_use_first_spawn_witness :
  spawn_throws env_python3_missing "python3" = false /\
  convertHtmlToPdf env_python3_missing "/app/uploads/extracted_1" "/app/outputs/pdfs_1"
  = Thrown (ErrorObj "Failed to start Python script: spawn python3 ENOENT") /\
  ending (python env_python3_missing "python" []) = Close (Some 0%Z).
Proof.
  split; [reflexivity|]. split; [|reflexivity].
  destruct (proj1 (python_adapters_use_first_spawn env_python3_missing
                     "/app/uploads/extracted_1" "/app/outputs/pdfs_1" eq_refl))
    as [args ->].
  reflexivity.
Defined.

(** The download of a finished job: when a run on a job of the registry
    returns, the job's [outputFile] is [merged_<id>.pdf], and [downloadFile]
    given that name looks at the very path that was handed to [mergePdfs]:
    it returns that path when the file is there and [null] when it is not. *)
Theorem finished_job_downloads_merged_file (env : Env) (jobs : JsMap.t)
    (jobId archivePath : string) (job : ProcessingJob) :
  getJob jobs jobId = Some job ->
  let run := processArchive env jobId archivePath jobs in
  result run = Returned tt ->
  exists job' name,
    getJob (final run) jobId = Some job' /\
    outputFile job' = Some name /\
    name = ("merged_" ++ jobId ++ ".pdf")%string /\
    mergePdfs env (pdfDir_of env jobId) (mergedPdfPath_of env jobId) = Returned tt /\
    downloadFile env name
    = (if existsSync env (mergedPdfPath_of env jobId)
       then Some (mergedPdfPath_of env jobId) else None).
Proof.
  intros Hget run Hres. subst run. unfold getJob in *.
  destruct (processArchive_run env jobId archivePath jobs) as (ups & r & Hpath & E).
  rewrite E in *. clear E.
  destruct (scan_updates_present ups jobs jobId Hget) as [_ Hfinal].
  unfold final, result in *; cbn [fst snd] in *. subst r.
  inversion Hpath; subst.
  eexists _, _. split; [exact Hfinal|]. cbn. repeat split. assumption.
Qed.

Lemma finished_job_downloads_merged_file_witness :
  (exists job, getJob (snd one_job) (fst one_job) = Some job) /\
  result (processArchive env_served (fst one_job)
            "/app/uploads/1700000000000_site.zip" (snd one_job)) = Returned tt /\
  exists job' name,
    getJob (final (processArchive env_served (fst one_job)
                     "/app/uploads/1700000000000_site.zip" (snd one_job)))
           (fst one_job) = Some job' /\
    outputFile job' = Some name /\
    GET_download env_served name = Attachment200 "%PDF-merged" name.
Proof.
  assert (Hr : result (processArchive env_served (fst one_job)
            "/app/uploads/1700000000000_site.zip" (snd one_job)) = Returned tt)
    by (vm_compute; reflexivity).
  split; [eexists; reflexivity|]. split; [exact Hr|].
  destruct (finished_job_downloads_merged_file env_served (snd one_job) (fst one_job)
              "/app/uploads/1700000000000_site.zip" _ eq_refl Hr)
    as (job' & name & Hj & Ho & Hn & _ & Hd).
  exists job', name. split; [exact Hj|]. split; [exact Ho|].
  unfold GET_download. rewrite Hd. subst name. vm_compute. reflexivity.
Defined.

(** ** Job-scoped paths and the download lookup *)

Lemma slash_free_app (a b : string) :
  Str.slash_free (a ++ b) = Str.slash_free a && Str.slash_free b.
Proof.
  induction a as [|c a IH]; cbn [append Str.slash_free]; [reflexivity|].
  rewrite IH. now rewrite andb_assoc.
Qed.

Lemma string_of_uint_slash_free (d : Decimal.uint) :
  Str.slash_free (DecimalString.NilEmpty.string_of_uint d) = true.
Proof. induction d; cbn; auto. Qed.

Lemma toString_slash_free (n : Z) : Str.slash_free (toString n) = true.
Proof.
  unfold toString. destruct (Z.to_int n); cbn; apply string_of_uint_slash_free.
Qed.

Lemma append_inj_l (a x y : string) : (a ++ x)%string = (a ++ y)%string -> x = y.
Proof. induction a as [|c a IH]; cbn; [auto|]. intros [= H]. auto. Qed.

Lemma length_append (a b : string) :
  String.length (a ++ b) = (String.length a + String.length b)%nat.
Proof. induction a as [|c a IH]; cbn; [reflexivity|now rewrite IH]. Qed.

Lemma append_inj_r (x y s : string) : (x ++ s)%string = (y ++ s)%string -> x = y.
Proof.
  intros H. apply (append_same_length x y s s); [|exact H].
  apply (f_equal String.length) in H. rewrite !length_append in H. lia.
Qed.

Lemma render_abs_snoc (segs : list string) (x : string) :
  segs <> [] ->
  Path.render_abs (segs ++ [x]) = (Path.render_abs segs ++ "/" ++ x)%string.
Proof.
  intros H. unfold Path.render_abs.
  rewrite (concat_app_nonnil (b := [x]) H) by discriminate.
  cbn [String.concat]. now rewrite append_assoc.
Qed.

Lemma plain_uploads : Path.plain "uploads".
Proof. repeat split; discriminate. Qed.

Lemma uploadDir_render (env : Env) (segs : list string) :
  cwd env = Path.render_abs segs -> Forall Path.plain segs ->
  uploadDir env = Path.render_abs (segs ++ ["uploads"]).
Proof.
  intros Hcwd H. unfold uploadDir. rewrite Hcwd.
  apply join_render; [assumption|apply plain_uploads].
Qed.

Lemma join_plain_below (segs : list string) (name : string) :
  Forall Path.plain segs -> segs <> [] -> Path.plain name ->
  Path.join (Path.render_abs segs) name = (Path.render_abs segs ++ "/" ++ name)%string.
Proof.
  intros H Hne Hn. rewrite join_render by assumption. now apply render_abs_snoc.
Qed.

Lemma plain_prefixed (c : ascii) (pre s : string) :
  c <> "."%char -> Str.slash_free (String c pre) = true -> Str.slash_free s = true ->
  Path.plain (String c pre ++ s).
Proof.
  intros Hc Hp Hs. repeat split.
  - rewrite slash_free_app, Hp, Hs. reflexivity.
  - discriminate.
  - cbn. intros [= H _]. contradiction.
  - cbn. intros [= H _]. contradiction.
Qed.

(** Every job works in places of its own: for a normal working directory
    and an id without ['/'] (such as [createJob] builds from base-36 digits),
    the extraction directory is [uploads/extracted_<id>], the PDF directory
    [outputs/pdfs_<id>] and the merged file [outputs/merged_<id>.pdf], and
    two different ids never share any of the three. *)
Theorem job_paths_are_scoped (env : Env) (segs : list string) (jobId : string) :
  cwd env = Path.render_abs segs -> Forall Path.plain segs ->
  Str.slash_free jobId = true ->
  extractDir_of env jobId = (uploadDir env ++ "/extracted_" ++ jobId)%string /\
  pdfDir_of env jobId = (outputDir env ++ "/pdfs_" ++ jobId)%string /\
  mergedPdfPath_of env jobId = (outputDir env ++ "/merged_" ++ jobId ++ ".pdf")%string /\
  (forall other, Str.slash_free other = true -> other <> jobId ->
     extractDir_of env other <> extractDir_of env jobId /\
     pdfDir_of env other <> pdfDir_of env jobId /\
     mergedPdfPath_of env other <> mergedPdfPath_of env jobId) /\
  (forall now random36, Str.slash_free (substring 2 9 random36) = true ->
     Str.slash_free (new_id now random36) = true).
Proof.
  intros Hcwd Hsegs Hid.
  assert (Hup : Forall Path.plain (segs ++ ["uploads"]))
    by (apply Forall_app; split; [assumption|repeat constructor; discriminate]).
  assert (Hout : Forall Path.plain (segs ++ ["outputs"]))
    by (apply Forall_app; split; [assumption|repeat constructor; discriminate]).
  assert (Hne : forall x, segs ++ [x] <> []) by (intros x; now destruct segs).
  assert (E : forall i, Str.slash_free i = true ->
    extractDir_of env i = (uploadDir env ++ "/extracted_" ++ i)%string /\
    pdfDir_of env i = (outputDir env ++ "/pdfs_" ++ i)%string /\
    mergedPdfPath_of env i = (outputDir env ++ "/merged_" ++ i ++ ".pdf")%string).
  { intros i Hi. unfold extractDir_of, pdfDir_of, mergedPdfPath_of.
    rewrite (uploadDir_render env segs Hcwd Hsegs), (outputDir_render env Hcwd Hsegs).
    repeat split; apply join_plain_below; auto; apply plain_prefixed;
      try discriminate; try reflexivity; auto.
    rewrite slash_free_app, Hi. reflexivity. }
  destruct (E jobId Hid) as (E1 & E2 & E3).
  split; [exact E1|]. split; [exact E2|]. split; [exact E3|]. split.
  - intros other Ho Hdiff. destruct (E other Ho) as (O1 & O2 & O3).
    rewrite E1, E2, E3, O1, O2, O3. repeat split; intros H; apply Hdiff.
    + apply append_inj_l in H. now apply (append_inj_l "/extracted_") in H.
    + apply append_inj_l in H. now apply (append_inj_l "/pdfs_") in H.
    + apply append_inj_l in H. apply (append_inj_l "/merged_") in H.
      now apply append_inj_r in H.
  - intros now random36 H. unfold new_id.
    now rewrite slash_free_app, toString_slash_free, H.
Qed.

Lemma job_paths_are_scoped_witness :
  cwd env_served = Path.render_abs ["app"] /\ Forall Path.plain ["app"] /\
  Str.slash_free (fst one_job) = true /\
  mergedPdfPath_of env_served (fst one_job)
  = "/app/outputs/merged_17000000000004fzyo82mv.pdf" /\
  extractDir_of env_served "17000000000009k2c0x7q1" <> extractDir_of env_served (fst one_job).
Proof.
  assert (Hp : Forall Path.plain ["app"]).
  { constructor; [repeat split; discriminate|constructor]. }
  split; [reflexivity|]. split; [exact Hp|]. split; [reflexivity|].
  destruct (job_paths_are_scoped env_served ["app"] (fst one_job) eq_refl Hp eq_refl)
    as (_ & _ & E3 & Hother & _).
  split; [rewrite E3; reflexivity|].
  apply (Hother "17000000000009k2c0x7q1" eq_refl). discriminate.
Defined.

(** The empty filename: for a normal working directory, [downloadFile("")]
    looks at the output directory itself and returns it when it exists; the
    route then answers 500 when reading it as a file throws, and never 404. *)
Theorem download_of_empty_filename (env : Env) (segs : list string) :
  cwd env = Path.render_abs segs -> Forall Path.plain segs ->
  downloadFile env ""
  = (if existsSync env (outputDir env) then Some (outputDir env) else None) /\
  (existsSync env (outputDir env) = true ->
   GET_download env "" <> NotFound404 /\
   forall t, readFile env (outputDir env) = Thrown t ->
             GET_download env "" = Failed500).
Proof.
  intros Hcwd Hsegs.
  assert (E : Path.join (outputDir env) "" = outputDir env).
  { rewrite (outputDir_render env Hcwd Hsegs). apply join_empty.
    - apply Forall_app; split; [assumption|repeat constructor; discriminate].
    - now destruct segs. }
  unfold GET_download, downloadFile. rewrite E. split; [reflexivity|].
  intros ->. split.
  - destruct (readFile env (outputDir env)); discriminate.
  - now intros t ->.
Qed.

Lemma download_of_empty_filename_witness :
  cwd env_empty_outputs = Path.render_abs ["app"] /\ Forall Path.plain ["app"] /\
  existsSync env_empty_outputs (outputDir env_empty_outputs) = true /\
  readFile env_empty_outputs (outputDir env_empty_outputs)
  = Thrown (ErrorObj "EISDIR: illegal operation on a directory, read") /\
  downloadFile env_empty_outputs "" = Some "/app/outputs" /\
  GET_download env_empty_outputs "" <> NotFound404 /\
  GET_download env_empty_outputs "" = Failed500.
Proof.
  assert (Hp : Forall Path.plain ["app"]).
  { constructor; [repeat split; discriminate|constructor]. }
  assert (He : existsSync env_empty_outputs (outputDir env_empty_outputs) = true)
    by reflexivity.
  assert (Hr : readFile env_empty_outputs (outputDir env_empty_outputs)
               = Thrown (ErrorObj "EISDIR: illegal operation on a directory, read"))
    by reflexivity.
  destruct (download_of_empty_filename env_empty_outputs ["app"] eq_refl Hp)
    as [Hd Hroute].
  destruct (Hroute He) as [Hn Hf].
  split; [reflexivity|]. split; [exact Hp|]. split; [exact He|]. split; [exact Hr|].
  split; [rewrite Hd; reflexivity|]. split; [exact Hn|].
  exact (Hf _ Hr).
Defined.

(** ** Document discovery *)

(** The regular expression of [findHtmlFiles] looks at nothing but the
    extension, up to case: it accepts a name exactly when the name is some
    stem, a dot, and [html] or [htm] in any mix of upper and lower case, so
    that names that agree up to case are accepted or refused together. *)
Theorem html_test_is_extension_test (name : string) :
  (is_html_name name = true <-> has_html_extension name) /\
  (forall other, Str.to_lower other = Str.to_lower name ->
                 is_html_name other = is_html_name name) /\
  (is_html_name name = true -> (4 <= String.length name)%nat).
Proof.
  split; [apply is_html_name_spec|]. split.
  - intros other H. unfold is_html_name. now rewrite H.
  - intros H. apply is_html_name_spec in H.
    destruct H as (stem & ext & -> & He).
    rewrite !length_append. cbn [String.length].
    assert (3 <= String.length ext)%nat; [|lia].
    assert (Hl : forall s, String.length (Str.to_lower s) = String.length s)
      by (intros s; induction s; cbn; congruence).
    rewrite <- Hl. destruct He as [-> | ->]; cbn; lia.
Qed.

Lemma html_test_is_extension_test_witness :
  is_html_name "b.HTML" = true /\ (4 <= String.length "b.HTML")%nat /\
  is_html_name "B.Html" = is_html_name "b.HTML".
Proof.
  split; [reflexivity|]. split.
  - exact (proj2 (proj2 (html_test_is_extension_test "b.HTML")) eq_refl).
  - exact (proj1 (proj2 (html_test_is_extension_test "b.HTML")) "B.Html" eq_refl).
Defined.

Lemma plain_names_In (entries : list Dirent) (entry : Dirent) :
  Forall plain_names entries -> In entry entries -> plain_names entry.
Proof. intros H Hin. rewrite Forall_forall in H. now apply H. Qed.

Lemma findHtmlFiles_in (env : Env) (dir : string) (entries : list Dirent)
    (paths : list string) :
  readdir_tree env dir = Returned entries ->
  findHtmlFiles env dir = Returned paths ->
  forall p, In p paths <-> html_file_at dir entries p.
Proof.
  intros Hread Hfind p. unfold findHtmlFiles in Hfind. rewrite Hread in Hfind.
  injection Hfind as <-. rewrite <- scanDirectory_in.
  pose proof (array_sort_perm _ compare_strings (scanDirectory dir entries [])) as Hperm.
  split; apply Permutation_in; [exact Hperm|now apply Permutation_sym].
Qed.

Lemma html_file_at_reached (dir : string) (entries : list Dirent) (p : string) :
  html_file_at dir entries p ->
  forall segs, dir = Path.render_abs segs -> Forall Path.plain segs ->
    Forall plain_names entries ->
    exists dirs name,
      file_reached entries dirs name /\
      p = Path.render_abs (segs ++ dirs ++ [name]) /\
      has_html_extension name.
Proof.
  induction 1 as [dir entries name Hin Hext|dir entries name sub p Hin Hsub IH];
    intros segs -> Hsegs Hplain.
  - pose proof (plain_names_In _ _ Hplain Hin) as Hp. inversion Hp; subst.
    exists [], name. cbn [app]. split; [now constructor|].
    split; [now apply join_render|assumption].
  - pose proof (plain_names_In _ _ Hplain Hin) as Hp. inversion Hp; subst.
    destruct (IH (segs ++ [name])) as (dirs & n & Hr & -> & He).
    + now apply join_render.
    + apply Forall_app; split; [assumption|now constructor].
    + assumption.
    + exists (name :: dirs), n. rewrite <- List.app_assoc. cbn [app].
      split; [econstructor; eassumption|]. split; [reflexivity|assumption].
Qed.

Lemma reached_html_file_at (entries : list Dirent) (dirs : list string)
    (name : string) :
  file_reached entries dirs name -> has_html_extension name ->
  forall segs, Forall Path.plain segs -> Forall plain_names entries ->
    html_file_at (Path.render_abs segs) entries
                 (Path.render_abs (segs ++ dirs ++ [name])).
Proof.
  induction 1 as [entries name Hin|entries d sub dirs name Hin Hsub IH];
    intros Hext segs Hsegs Hplain.
  - pose proof (plain_names_In _ _ Hplain Hin) as Hp. inversion Hp; subst.
    cbn [app]. rewrite <- (@join_render segs name) by assumption.
    now constructor.
  - pose proof (plain_names_In _ _ Hplain Hin) as Hp. inversion Hp; subst.
    apply (@html_below _ _ d sub); [assumption|].
    rewrite (@join_render segs d) by assumption.
    change (segs ++ (d :: dirs) ++ [name]) with (segs ++ [d] ++ dirs ++ [name]).
    rewrite List.app_assoc. apply IH; [assumption| |assumption].
    apply Forall_app; split; [assumption|now constructor].
Qed.

(** What [findHtmlFiles] returns, path by path: for a normal directory and
    a tree with names as [readdir] gives them, every returned path is the
    directory followed by the names of sub-directories of the tree, one
    inside the other, down to a regular file of the tree whose name carries
    an [html] or [htm] extension, so that it lies below the directory it was
    given; and every such file of the tree is returned. *)
Theorem discovered_paths_stay_below (env : Env) (segs : list string)
    (entries : list Dirent) (paths : list string) :
  segs <> [] -> Forall Path.plain segs -> Forall plain_names entries ->
  readdir_tree env (Path.render_abs segs) = Returned entries ->
  findHtmlFiles env (Path.render_abs segs) = Returned paths ->
  Forall (fun p =>
            exists dirs name,
              file_reached entries dirs name /\
              has_html_extension name /\
              p = Path.render_abs (segs ++ dirs ++ [name]) /\
              p = (Path.render_abs segs ++ "/"
                   ++ String.concat "/" (dirs ++ [name]))%string) paths /\
  (forall dirs name,
     file_reached entries dirs name -> has_html_extension name ->
     In (Path.render_abs (segs ++ dirs ++ [name])) paths).
Proof.
  intros Hne Hsegs Hplain Hread Hfind. split.
  - apply Forall_forall. intros p Hin.
    apply (findHtmlFiles_in env _ entries paths Hread Hfind) in Hin.
    destruct (html_file_at_reached _ _ _ Hin segs eq_refl Hsegs Hplain)
      as (dirs & name & Hr & -> & He).
    exists dirs, name. split; [exact Hr|]. split; [exact He|].
    split; [reflexivity|].
    unfold Path.render_abs.
    rewrite (concat_app_nonnil (a := segs) (b := dirs ++ [name])) by
      (assumption || now destruct dirs).
    now rewrite !append_assoc.
  - intros dirs name Hr He.
    apply (findHtmlFiles_in env _ entries paths Hread Hfind).
    now apply reached_html_file_at.
Qed.

Lemma discovered_paths_stay_below_witness :
  ["app"; "uploads"; "extracted_1"] <> [] /\
  Forall Path.plain ["app"; "uploads"; "extracted_1"] /\
  Forall plain_names tree_listed /\
  findHtmlFiles env_listed
                (Path.render_abs ["app"; "uploads"; "extracted_1"])
  = Returned ["/app/uploads/extracted_1/docs/a.HTM";
              "/app/uploads/extracted_1/docs/b.html";
              "/app/uploads/extracted_1/index.html"] /\
  Forall (fun p => exists rel, p = ("/app/uploads/extracted_1" ++ "/" ++ rel)%string)
         ["/app/uploads/extracted_1/docs/a.HTM";
          "/app/uploads/extracted_1/docs/b.html";
          "/app/uploads/extracted_1/index.html"].
Proof.
  assert (Hne : ["app"; "uploads"; "extracted_1"] <> []) by discriminate.
  assert (Hp : Forall Path.plain ["app"; "uploads"; "extracted_1"])
    by (repeat constructor; discriminate).
  assert (Ht : Forall plain_names tree_listed)
    by (unfold tree_listed; repeat constructor; discriminate).
  split; [exact Hne|]. split; [exact Hp|]. split; [exact Ht|].
  assert (Hf : findHtmlFiles env_listed
                (Path.render_abs ["app"; "uploads"; "extracted_1"])
  = Returned ["/app/uploads/extracted_1/docs/a.HTM";
              "/app/uploads/extracted_1/docs/b.html";
              "/app/uploads/extracted_1/index.html"]) by (vm_compute; reflexivity).
  split; [exact Hf|].
  pose proof (proj1 (discovered_paths_stay_below env_listed _ tree_listed _
                       Hne Hp Ht eq_refl Hf)) as H.
  eapply Forall_impl; [|exact H]. cbv beta.
  intros p (dirs & name & _ & _ & _ & Hrel). eexists. exact Hrel.
Defined.

Lemma scanDirectory_reordered (es es' : list Dirent) :
  reordered es es' ->
  forall dir, Permutation (scanDirectory dir es []) (scanDirectory dir es' []).
Proof.
  induction 1 as [|entry es es' _ IH|name sub sub' es es' _ IHsub _ IH|x y es
                  |es1 es2 es3 _ IH1 _ IH2]; intros dir.
  - reflexivity.
  - rewrite !scanDirectory_step. now apply Permutation_app_head.
  - rewrite !scanDirectory_step, !scanEntry_Directory.
    now apply Permutation_app.
  - rewrite !scanDirectory_step, !List.app_assoc.
    apply Permutation_app_tail, Permutation_app_comm.
  - etransitivity; [apply IH1|apply IH2].
Qed.

Lemma sorted_strings_unique (l l' : list string) :
  StronglySorted (fun a b => String.leb a b = true) l ->
  StronglySorted (fun a b => String.leb a b = true) l' ->
  Permutation l l' -> l = l'.
Proof.
  intros Hl. revert l'. induction Hl as [|a l Hl IH Ha]; intros l' Hl' Hperm.
  - apply Permutation_nil in Hperm. now subst.
  - destruct Hl' as [|b l' Hl' Hb].
    + apply Permutation_sym, Permutation_nil in Hperm. discriminate.
    + assert (a = b).
      { assert (Hab : In a (b :: l')) by (apply (Permutation_in _ Hperm); now left).
        assert (Hba : In b (a :: l))
          by (apply (Permutation_in _ (Permutation_sym Hperm)); now left).
        destruct Hab as [->|Hab]; [reflexivity|].
        destruct Hba as [->|Hba]; [reflexivity|].
        rewrite Forall_forall in Ha, Hb.
        apply String.leb_antisym; [now apply Ha|now apply Hb]. }
      subst b. f_equal. apply IH; [exact Hl'|].
      now apply Permutation_cons_inv in Hperm.
Qed.

Lemma array_sort_strings_sorted (l : list string) :
  StronglySorted (fun a b => String.leb a b = true) (array_sort compare_strings l).
Proof.
  apply Sorted_StronglySorted; [intros a b c; apply leb_trans|].
  apply array_sort_sorted; [exact compare_strings_le|exact compare_strings_gt].
Qed.

(** The order in which [readdir] lists entries does not matter: two scans
    that see the same tree, its entries listed in different orders at any
    depth, make [findHtmlFiles] return the same list. *)
Theorem findHtmlFiles_ignores_listing_order (env env' : Env) (dir : string)
    (entries entries' : list Dirent) :
  readdir_tree env dir = Returned entries ->
  readdir_tree env' dir = Returned entries' ->
  reordered entries entries' ->
  findHtmlFiles env dir = findHtmlFiles env' dir.
Proof.
  intros H H' Hre. unfold findHtmlFiles. rewrite H, H'. f_equal.
  apply sorted_strings_unique; try apply array_sort_strings_sorted.
  rewrite (array_sort_perm _ compare_strings (scanDirectory dir entries [])).
  rewrite (array_sort_perm _ compare_strings (scanDirectory dir entries' [])).
  now apply scanDirectory_reordered.
Qed.

Lemma findHtmlFiles_ignores_listing_order_witness :
  reordered tree_listed tree_listed_otherwise /\
  findHtmlFiles env_listed "/app/uploads/extracted_1"
  = findHtmlFiles env_listed_otherwise "/app/uploads/extracted_1".
Proof.
  assert (H : reordered tree_listed tree_listed_otherwise).
  { unfold tree_listed, tree_listed_otherwise.
    eapply reordered_trans; [apply reordered_swap|].
    apply reordered_same, reordered_inside; [apply reordered_swap|].
    apply reordered_same, reordered_nil. }
  split; [exact H|].
  exact (findHtmlFiles_ignores_listing_order env_listed env_listed_otherwise
           "/app/uploads/extracted_1" _ _ eq_refl eq_refl H).
Defined.

(** ** The upload route *)

(** The route creates a job exactly for an upload it has stored.  It
    answers 200 exactly when a file was posted with extension [.zip] or
    [.rar] (any case), its bytes were read, and both writes returned: that
    of [uploads/.gitkeep] and that of the archive under
    [uploads/<Date.now()>_<name>].  Then the returned id looks up a pending
    full-process job for that file, the other jobs are as before and the run
    is scheduled on that id and that path.  Any other answer leaves the
    registry as it was and schedules nothing, and a 400 answer has written
    nothing. *)
Theorem upload_creates_job_only_when_stored (w : UploadWorld) (jobs : JsMap.t) :
  let posted := POST_upload w jobs in
  let keep := Path.join (uploadDir (server w)) ".gitkeep" in
  let filepath name :=
    Path.join (uploadDir (server w)) (toString (stored_now w) ++ "_" ++ name) in
  let stored name buffer :=
    formData w = Returned (FileField name (Returned buffer)) /\
    (Str.to_lower (extname (server w) name) = ".zip" \/
     Str.to_lower (extname (server w) name) = ".rar") /\
    writeFile w keep "" = Returned tt /\
    writeFile w (filepath name) buffer = Returned tt in
  match response posted with
  | UploadAccepted200 jobId _ =>
      exists name buffer,
        stored name buffer /\
        jobId = new_id (id_now w) (id_random36 w) /\
        getJob (registry posted) jobId
        = Some (new_record jobId (id_created w) type_full_process [name]) /\
        (forall k, k <> jobId -> getJob (registry posted) k = getJob jobs k) /\
        scheduled posted = Some (jobId, filepath name) /\
        written posted = [keep; filepath name]
  | UploadRejected400 _ =>
      registry posted = jobs /\ scheduled posted = None /\ written posted = []
  | UploadFailed500 _ =>
      registry posted = jobs /\ scheduled posted = None
  end /\
  (forall name buffer,
     stored name buffer ->
     response posted
     = UploadAccepted200 (new_id (id_now w) (id_random36 w))
         "File uploaded successfully. Processing started.").
Proof.
  intros posted keep filepath stored. subst posted keep filepath stored. cbv beta.
  unfold POST_upload, upload_failed, uploadDir.
  destruct (formData w) as [[|value|name [buffer|t]]|t].
  - split; [cbn; auto|]. intros n b (Hf & _). discriminate Hf.
  - split; [destruct (String.eqb value ""); cbn; auto|].
    intros n b (Hf & _). discriminate Hf.
  - cbv zeta. unfold includes, allowedTypes. cbn [existsb].
    destruct (String.eqb_spec (Str.to_lower (extname (server w) name)) ".zip") as [Hz|Hz];
    destruct (String.eqb_spec (Str.to_lower (extname (server w) name)) ".rar") as [Hr|Hr];
      cbn [orb negb];
      try (split; [cbn; auto|];
           intros n b ([= <- <-] & [He|He] & _); contradiction);
      (destruct (writeFile w (Path.join (Path.join (cwd (server w)) "uploads") ".gitkeep") "")
         as [[]|] eqn:Hk;
       [|split; [cbn; auto|]; intros n b ([= <- <-] & _ & Hk' & _); discriminate Hk'];
       destruct (writeFile w (Path.join (Path.join (cwd (server w)) "uploads")
                                (toString (stored_now w) ++ "_" ++ name)) buffer)
         as [[]|] eqn:Hw;
       [|split; [cbn; auto|]; intros n b ([= <- <-] & _ & _ & Hw'); congruence];
       split; [|intros n b _; reflexivity];
       cbn; exists name, buffer; unfold getJob;
       repeat split; auto using get_set_eq;
       intros k Hk'; now apply get_set_ne).
  - cbv zeta. unfold includes, allowedTypes. cbn [existsb].
    split; [|intros n b (Hf & _); discriminate Hf].
    destruct (String.eqb _ ".zip"), (String.eqb _ ".rar"); cbn; auto.
  - split; [cbn; auto|]. intros n b (Hf & _). discriminate Hf.
Qed.

Lemma upload_creates_job_only_when_stored_witness :
  (formData world_zip = Returned (FileField "site.ZIP" (Returned "PK-archive-bytes")) /\
   (Str.to_lower (extname (server world_zip) "site.ZIP") = ".zip" \/
    Str.to_lower (extname (server world_zip) "site.ZIP") = ".rar") /\
   writeFile world_zip (Path.join (uploadDir (server world_zip)) ".gitkeep") ""
   = Returned tt /\
   writeFile world_zip
     (Path.join (uploadDir (server world_zip))
        (toString (stored_now world_zip) ++ "_" ++ "site.ZIP")) "PK-archive-bytes"
   = Returned tt) /\
  response (POST_upload world_zip [])
  = UploadAccepted200 "17000000000014fzyo82mv"
      "File uploaded successfully. Processing started." /\
  scheduled (POST_upload world_zip [])
  = Some ("17000000000014fzyo82mv", "/app/uploads/1700000000000_site.ZIP") /\
  response (POST_upload world_7z (snd one_job))
  = UploadRejected400 "Only ZIP and RAR files are allowed" /\
  registry (POST_upload world_7z (snd one_job)) = snd one_job.
Proof.
  assert (Hs : formData world_zip
               = Returned (FileField "site.ZIP" (Returned "PK-archive-bytes")) /\
   (Str.to_lower (extname (server world_zip) "site.ZIP") = ".zip" \/
    Str.to_lower (extname (server world_zip) "site.ZIP") = ".rar") /\
   writeFile world_zip (Path.join (uploadDir (server world_zip)) ".gitkeep") ""
   = Returned tt /\
   writeFile world_zip
     (Path.join (uploadDir (server world_zip))
        (toString (stored_now world_zip) ++ "_" ++ "site.ZIP")) "PK-archive-bytes"
   = Returned tt).
  { split; [reflexivity|]. split; [left; reflexivity|]. split; reflexivity. }
  assert (Ha : response (POST_upload world_zip [])
               = UploadAccepted200 "17000000000014fzyo82mv"
                   "File uploaded successfully. Processing started.").
  { rewrite (proj2 (upload_creates_job_only_when_stored world_zip []) _ _ Hs).
    reflexivity. }
  assert (Hr : response (POST_upload world_7z (snd one_job))
               = UploadRejected400 "Only ZIP and RAR files are allowed")
    by (vm_compute; reflexivity).
  split; [exact Hs|]. split; [exact Ha|]. split.
  - pose proof (upload_creates_job_only_when_stored world_zip []) as H.
    cbv zeta in H. destruct H as [H _]. rewrite Ha in H.
    destruct H as (name & buffer & (Hf & _) & _ & _ & _ & Hsch & _).
    injection Hf as <- _. rewrite Hsch. vm_compute. reflexivity.
  - split; [exact Hr|].
    pose proof (upload_creates_job_only_when_stored world_7z (snd one_job)) as H.
    cbv zeta in H. destruct H as [H _]. rewrite Hr in H. apply H.
Defined.

(** ** The dashboard and the upload widget *)

(** While a job is processing its card shows one stage at work: over a
    created full-process job's run, every processing record is rendered
    with its progress value and three stage icons, of which the finished
    stages are checked, exactly one, the first unfinished, spins, and the
    later ones wait. *)
Theorem processing_card_shows_one_active_step (env : Env) (now : Z)
    (random36 : string) (created : Z) (files : list string)
    (archivePath : string) (jobs : JsMap.t) :
  let jobId := new_id now random36 in
  let run := create_and_process env now random36 created type_full_process files
               archivePath jobs in
  Forall (fun o => forall job, o = Some job -> status job = processing ->
            exists done,
              (done <= 2)%nat /\
              card_progress (render_job job)
              = Some (progress job,
                      Some (repeat CheckCircle_green done ++ [Loader2_spinning]
                            ++ repeat Clock_gray300 (2 - done))))
         (history jobId (snapshots run)).
Proof.
  intros jobId run.
  destruct (create_and_process_view env now random36 created type_full_process files
              archivePath jobs) as (ups & r & Hpath & _ & Hh & _ & _).
  fold jobId in Hpath, Hh. fold run in Hh. rewrite Hh. clear Hh.
  inversion Hpath; subst; cbn [scan_assign map];
    repeat (apply Forall_cons || apply Forall_nil);
    intros job [= <-]; cbn; intros Hs; try discriminate Hs;
    first [ exists 0%nat; split; [lia|reflexivity]
          | exists 1%nat; split; [lia|reflexivity]
          | exists 2%nat; split; [lia|reflexivity] ].
Qed.

Lemma processing_card_shows_one_active_step_witness :
  exists job done,
    In (Some job) (history "17000000000004fzyo82mv" (snapshots run_two_pages)) /\
    status job = processing /\ progress job = 40%Z /\
    card_progress (render_job job)
    = Some (progress job,
            Some (repeat CheckCircle_green done ++ [Loader2_spinning]
                  ++ repeat Clock_gray300 (2 - done))).
Proof.
  assert (exists job,
            nth_error (history "17000000000004fzyo82mv" (snapshots run_two_pages)) 3
            = Some (Some job) /\
            status job = processing /\ progress job = 40%Z) as (job & Hn & Hs & Hp)
    by (vm_compute; eexists; split; [reflexivity|split; reflexivity]).
  apply nth_error_In in Hn.
  pose proof (processing_card_shows_one_active_step env_two_pages 1700000000000
                "0.4fzyo82mvyr" 1700000000000 ["site.zip"]
                "/app/uploads/1700000000000_site.zip" []) as H.
  cbv zeta in H. rewrite Forall_forall in H.
  destruct (H _ Hn job eq_refl Hs) as (done & _ & Hc).
  exists job, done. repeat split; assumption.
Defined.

Lemma card_of_record (env : Env) (jobId : string) (job : ProcessingJob) :
  (outputFile job = None /\ status job <> completed \/
   outputFile job = Some ("merged_" ++ jobId ++ ".pdf")%string /\ status job = completed) ->
  (error job = None /\ status job <> failed \/
   exists t, error job = Some (error_text t) /\ status job = failed /\
             (external_errors_described env -> described t)) ->
  (card_download (render_job job) <> None <-> status job = completed) /\
  (forall name, card_download (render_job job) = Some name ->
                name = ("merged_" ++ jobId ++ ".pdf")%string) /\
  (card_alert (render_job job) <> None -> status job = failed) /\
  (external_errors_described env -> status job = failed ->
   card_alert (render_job job) <> None /\
   card_alert (render_job job) = error job).
Proof.
  intros Hout Herr. cbn [render_job card_download card_alert].
  split; [|split; [|split]].
  - destruct Hout as [[-> Hs]|[-> Hs]]; cbn; split; congruence.
  - intros name. destruct Hout as [[-> _]|[-> _]]; cbn; congruence.
  - destruct Herr as [[-> _]|(t & -> & Hs & _)]; cbn; congruence.
  - intros Hext Hs. destruct Herr as [[_ Hn]|(t & -> & _ & Hd)]; [contradiction|].
    specialize (Hd Hext). unfold truthy. apply String.eqb_neq in Hd. rewrite Hd.
    split; [discriminate|reflexivity].
Qed.

(** The card offers what the job has: over a creation and its run, the
    download button is shown exactly on the completed record and carries
    [merged_<id>.pdf], the error alert is shown only on a failed record,
    and, the errors of the file system and of [extract-zip] being described,
    on every failed record, with the recorded message. *)
Theorem card_offers_download_iff_completed (env : Env) (now : Z)
    (random36 : string) (created : Z) (kind : JobType) (files : list string)
    (archivePath : string) (jobs : JsMap.t) :
  let jobId := new_id now random36 in
  let run := create_and_process env now random36 created kind files
               archivePath jobs in
  Forall (fun o => forall job, o = Some job ->
            (card_download (render_job job) <> None <-> status job = completed) /\
            (forall name, card_download (render_job job) = Some name ->
                          name = ("merged_" ++ jobId ++ ".pdf")%string) /\
            (card_alert (render_job job) <> None -> status job = failed) /\
            (external_errors_described env -> status job = failed ->
             card_alert (render_job job) <> None /\
             card_alert (render_job job) = error job))
         (history jobId (snapshots run)).
Proof.
  intros jobId run.
  destruct (create_and_process_view env now random36 created kind files
              archivePath jobs) as (ups & r & Hpath & _ & Hh & _ & _).
  fold jobId in Hpath, Hh. fold run in Hh. rewrite Hh. clear Hh.
  pose proof (fun t H Hext => @run_path_described env jobId archivePath ups t Hext H)
    as Hdesc.
  inversion Hpath; subst; cbn [scan_assign map];
    repeat (apply Forall_cons || apply Forall_nil);
    intros job [= <-]; apply (card_of_record env jobId); cbn;
    first [ left; split; [reflexivity|discriminate]
          | right; split; reflexivity
          | right; exists no_html_files; split; [reflexivity|];
            split; [reflexivity|]; intros Hext; eapply Hdesc; eassumption
          | right; eexists; split; [reflexivity|];
            split; [reflexivity|]; intros Hext; eapply Hdesc; eassumption ].
Qed.

Lemma card_offers_download_iff_completed_witness :
  exists job,
    In (Some job) (history "17000000000004fzyo82mv" (snapshots run_two_pages)) /\
    status job = completed /\
    card_download (render_job job) <> None /\
    card_alert (render_job job) = None.
Proof.
  assert (exists job,
            nth_error (history "17000000000004fzyo82mv" (snapshots run_two_pages)) 5
            = Some (Some job) /\
            status job = completed /\ card_alert (render_job job) = None)
    as (job & Hn & Hs & Ha)
    by (vm_compute; eexists; split; [reflexivity|split; reflexivity]).
  apply nth_error_In in Hn.
  pose proof (card_offers_download_iff_completed env_two_pages 1700000000000
                "0.4fzyo82mvyr" 1700000000000 type_full_process ["site.zip"]
                "/app/uploads/1700000000000_site.zip" []) as H.
  cbv zeta in H. rewrite Forall_forall in H.
  destruct (H _ Hn job eq_refl) as (Hd & _).
  exists job. split; [exact Hn|]. split; [exact Hs|]. split; [|exact Ha].
  apply Hd, Hs.
Defined.

(** The card accounts for every input file: it lists the first two names in
    order, and either that is the whole list or the line below counts the
    rest, the names shown and the count adding up to the number of files. *)
Theorem card_accounts_for_input_files (job : ProcessingJob) :
  let card := render_job job in
  (List.length (card_files card) <= 2)%nat /\
  (exists rest, inputFiles job = card_files card ++ rest /\
     match card_more card with
     | None => rest = []
     | Some n => n = Z.of_nat (List.length rest) /\ (0 < n)%Z
     end).
Proof.
  intros card. subst card. cbn [render_job card_files card_more].
  split; [rewrite length_firstn; lia|].
  exists (skipn 2 (inputFiles job)). split; [now rewrite firstn_skipn|].
  destruct (2 <? List.length (inputFiles job))%nat eqn:E.
  - apply Nat.ltb_lt in E. rewrite length_skipn. split; lia.
  - apply Nat.ltb_ge in E. now apply skipn_all2.
Qed.

Lemma upload_route_cases (w : UploadWorld) (jobs : JsMap.t) :
  (exists e, response (POST_upload w jobs) = UploadRejected400 e /\ e <> "" /\
             registry (POST_upload w jobs) = jobs) \/
  (exists e, response (POST_upload w jobs) = UploadFailed500 e /\ e <> "" /\
             registry (POST_upload w jobs) = jobs) \/
  (exists jobId m,
     response (POST_upload w jobs) = UploadAccepted200 jobId m /\
     forall name buffer,
       formData w = Returned (FileField name (Returned buffer)) ->
       exists job, getJob (registry (POST_upload w jobs)) jobId = Some job /\
                   status job = pending /\ inputFiles job = [name]).
Proof.
  unfold POST_upload, upload_failed.
  destruct (formData w) as [[|value|name [buffer|t]]|t].
  - left. eexists. cbn. repeat split. discriminate.
  - destruct (String.eqb value ""); cbn.
    + left. eexists. repeat split. discriminate.
    + right. left. eexists. repeat split. discriminate.
  - cbv zeta.
    destruct (negb (includes allowedTypes (Str.to_lower (extname (server w) name)))).
    { left. eexists. cbn. repeat split. discriminate. }
    destruct (writeFile w (Path.join (Path.join (cwd (server w)) "uploads") ".gitkeep") "").
    2:{ right. left. eexists. cbn. repeat split. discriminate. }
    destruct (writeFile w (Path.join (Path.join (cwd (server w)) "uploads")
                             (toString (stored_now w) ++ "_" ++ name)) buffer).
    2:{ right. left. eexists. cbn. repeat split. discriminate. }
    right. right. eexists _, _. cbn. split; [reflexivity|].
    intros n b [= <- <-]. eexists. unfold getJob. split; [apply get_set_eq|].
    split; reflexivity.
  - cbv zeta.
    destruct (negb (includes allowedTypes (Str.to_lower (extname (server w) name)))).
    + left. eexists. cbn. repeat split. discriminate.
    + right. left. eexists. cbn. repeat split. discriminate.
  - right. left. eexists. cbn. repeat split. discriminate.
Qed.

(** The upload widget shows what the route answered.  Dropping files posts
    the first one only; when the route accepts it, no error is shown and
    [onUploadComplete] receives the id of the job the route created; when
    the route rejects or fails, the widget shows and toasts the route's own
    message, which is never empty, [onUploadComplete] is not called and the
    registry is as before.  Dropping nothing posts nothing and keeps the
    error state. *)
Theorem dropped_file_shows_route_answer (w : UploadWorld) (jobs : JsMap.t)
    (previous_error : option string) (file : DroppedFile) (others : list DroppedFile) :
  let posted := POST_upload (posting w file) jobs in
  let dropped := onDrop previous_error (fetch_upload w jobs) (file :: others) in
  dropped = onDrop previous_error (fetch_upload w jobs) [file] /\
  onDrop previous_error (fetch_upload w jobs) []
  = mkDropped false previous_error None None /\
  match response posted with
  | UploadAccepted200 jobId _ =>
      error_state dropped = None /\
      upload_complete dropped = Some (Some jobId) /\
      (exists job, getJob (registry posted) jobId = Some job /\
                   status job = pending /\ inputFiles job = [file_name file])
  | UploadRejected400 e | UploadFailed500 e =>
      error_state dropped = Some e /\ toast dropped = Some (toast_error e) /\
      e <> "" /\ upload_complete dropped = None /\ registry posted = jobs
  end.
Proof.
  intros posted dropped. subst posted dropped.
  split; [reflexivity|]. split; [reflexivity|].
  pose proof (upload_route_cases (posting w file) jobs) as H.
  unfold onDrop, fetch_upload.
  destruct H as [(e & Hr & He & Hj)|[(e & Hr & He & Hj)|(jobId & m & Hr & Hj)]];
    rewrite Hr; cbn.
  - apply String.eqb_neq in He. rewrite He. apply String.eqb_neq in He.
    repeat split; auto.
  - apply String.eqb_neq in He. rewrite He. apply String.eqb_neq in He.
    repeat split; auto.
  - repeat split. apply (Hj (file_name file) (file_bytes file)). reflexivity.
Qed.

(** ** The pipeline and the registry, together *)

Lemma run_path_functional (env : Env) (jobId archivePath : string)
    (ups ups' : list Partial) (r r' : outcome unit) :
  run_path env jobId archivePath ups r ->
  run_path env jobId archivePath ups' r' ->
  ups = ups' /\ r = r'.
Proof.
  intros H H'. inversion H; subst; inversion H'; subst;
    try congruence;
    try (assert (t = t0) by congruence; subst; now split);
    now split.
Qed.

Lemma length_scan_updates (ups : list Partial) :
  forall jobs jobId, List.length (scan_updates jobs jobId ups) = List.length ups.
Proof.
  induction ups as [|u ups IH]; intros jobs jobId; [reflexivity|].
  cbn [scan_updates List.length]. now rewrite IH.
Qed.

(** The stages of a run do not look at the registry: whatever the registry
    holds, and whether or not it holds the job at all, [processArchive]
    for the same id and archive goes through the same stages, issues as many
    updates and returns or throws the same. *)
Theorem processArchive_outcome_ignores_registry (env : Env)
    (jobId archivePath : string) (jobs jobs' : JsMap.t) :
  result (processArchive env jobId archivePath jobs)
  = result (processArchive env jobId archivePath jobs') /\
  List.length (snapshots (processArchive env jobId archivePath jobs))
  = List.length (snapshots (processArchive env jobId archivePath jobs')) /\
  (2 <= List.length (snapshots (processArchive env jobId archivePath jobs)) <= 5)%nat.
Proof.
  destruct (processArchive_run env jobId archivePath jobs) as (ups & r & Hp & ->).
  destruct (processArchive_run env jobId archivePath jobs') as (ups' & r' & Hp' & ->).
  destruct (run_path_functional _ _ _ _ _ _ _ Hp Hp') as [-> ->].
  unfold result, snapshots; cbn [fst snd]. rewrite !length_scan_updates.
  split; [reflexivity|]. split; [reflexivity|].
  inversion Hp'; subst; cbn; lia.
Qed.

Lemma values_set_absent (m : JsMap.t) (k : string) (v : ProcessingJob) :
  JsMap.get m k = None -> JsMap.values (JsMap.set m k v) = JsMap.values m ++ [v].
Proof.
  induction m as [|[k' v'] m IH]; cbn; [reflexivity|].
  destruct (String.eqb k' k); [discriminate|].
  intros H. cbn. unfold JsMap.values in IH. now rewrite IH.
Qed.

(** A created job is listed at once: after [createJob] with an id that was
    not in the registry, [getAllJobs] holds the new record and every record
    it held before, and nothing else. *)
Theorem created_job_is_listed (now : Z) (random36 : string) (created : Z)
    (kind : JobType) (files : list string) (jobs : JsMap.t) :
  getJob jobs (new_id now random36) = None ->
  let jobId := fst (createJob now random36 created kind files jobs) in
  let jobs' := snd (createJob now random36 created kind files jobs) in
  Permutation (getAllJobs jobs')
              (new_record jobId created kind files :: getAllJobs jobs) /\
  In (new_record jobId created kind files) (getAllJobs jobs') /\
  List.length (getAllJobs jobs') = S (List.length (getAllJobs jobs)).
Proof.
  intros Hnone jobId jobs'. subst jobId jobs'. cbn [createJob fst snd].
  unfold getJob in Hnone.
  assert (Hperm : Permutation
            (getAllJobs (JsMap.set jobs (new_id now random36)
                           (new_record (new_id now random36) created kind files)))
            (new_record (new_id now random36) created kind files :: getAllJobs jobs)).
  { unfold getAllJobs. rewrite !array_sort_perm, (values_set_absent _ _ _ Hnone).
    apply Permutation_sym, Permutation_cons_append. }
  split; [exact Hperm|]. split.
  - apply (Permutation_in _ (Permutation_sym Hperm)). now left.
  - now rewrite (Permutation_length Hperm).
Qed.

Lemma created_job_is_listed_witness :
  getJob (snd first_creation) (new_id 1700000000001 "0.9k2c0x7q1ab") = None /\
  List.length
    (getAllJobs (snd (createJob 1700000000001 "0.9k2c0x7q1ab" 1700000000001
                        type_full_process ["c.zip"] (snd first_creation))))
  = 2%nat.
Proof.
  split; [reflexivity|].
  rewrite (proj2 (proj2 (created_job_is_listed 1700000000001 "0.9k2c0x7q1ab"
                           1700000000001 type_full_process ["c.zip"]
                           (snd first_creation) eq_refl))).
  reflexivity.
Defined.
